(** * Jira Software node and Elasticsearch document descriptors

    A shallow embedding of [Jira.execute] (the request builder of the
    issue-tracker connector) and of the [documentFields] descriptor table
    of the Elasticsearch connector, with the properties the specification
    states about them.

    Layout:
    - [JS]: the values the node handles ([IDataObject] and friends) and the
      JavaScript operations the source applies to them;
    - [Exec]: exceptions, the trace of outbound requests, and the monad in
      which [execute] runs;
    - [Jira]: [execute], operation by operation;
    - [Json]: a reader for a fragment of JSON, used to run the model;
    - [Elasticsearch]: the descriptor table and its display conditions;
    - [Methods]: the option lists of the Jira node and its credential
      test;
    - the vocabulary of the properties, and [Examples]: nodes and a Jira
      instance to run the model on;
    - the properties, claim by claim, and further properties of [execute]
      and of the option lists. *)

From Stdlib Require Import String Ascii List ZArith Bool Lia DecimalString.
Import ListNotations.

Local Open Scope list_scope.
Local Open Scope string_scope.

(* ================================================================= *)
(** ** JavaScript values *)

Module JS.

(** The values of an [IDataObject]: primitives, arrays and plain objects.
    Numbers are the integers (limits, versions, counts): the operations
    below never compute a fraction.  An object is the list of its own
    properties in insertion order. *)
Unset Elimination Schemes.
Inductive JsValue : Type :=
| JUndefined
| JNull
| JBool (b : bool)
| JNum (n : Z)
| JStr (s : string)
| JArr (elements : list JsValue)
| JObj (properties : list (string * JsValue)).
Set Elimination Schemes.

Definition IDataObject : Type := list (string * JsValue).

(** What leaves the pure part of a computation: a value or an exception. *)
Inductive Exception : Type :=
| NodeOperationError (message : string)   (* thrown by the node itself *)
| TypeError (message : string)            (* thrown by the runtime *)
| NodeApiError                            (* a request that failed *)
| ParameterError (name : string)          (* getNodeParameter found nothing *)
| OutsideModel (what : string).           (* a coercion the model leaves out *)

Inductive Result (A : Type) : Type :=
| Ok (a : A)
| Err (e : Exception).
Arguments Ok {A} a.
Arguments Err {A} e.

Definition rbind {A B} (r : Result A) (k : A -> Result B) : Result B :=
  match r with Ok a => k a | Err e => Err e end.

(** [if (v)]: ToBoolean. *)
Definition truthy (v : JsValue) : bool :=
  match v with
  | JUndefined | JNull => false
  | JBool b => b
  | JNum n => negb (n =? 0)%Z
  | JStr s => negb (s =? "")
  | JArr _ | JObj _ => true
  end.

(** [o[k]] on a plain object: [undefined] when [k] is not a property. *)
Fixpoint obj_get (o : IDataObject) (k : string) : JsValue :=
  match o with
  | [] => JUndefined
  | (k', v) :: rest => if k' =? k then v else obj_get rest k
  end.

Fixpoint obj_has (o : IDataObject) (k : string) : bool :=
  match o with
  | [] => false
  | (k', _) :: rest => (k' =? k) || obj_has rest k
  end.

(** [o[k] = v]: an existing property keeps its place, a new one goes last. *)
Fixpoint obj_set (o : IDataObject) (k : string) (v : JsValue) : IDataObject :=
  match o with
  | [] => [(k, v)]
  | (k', v') :: rest =>
      if k' =? k then (k, v) :: rest else (k', v') :: obj_set rest k v
  end.

(** [delete o[k]]. *)
Fixpoint obj_delete (o : IDataObject) (k : string) : IDataObject :=
  match o with
  | [] => []
  | (k', v') :: rest =>
      if k' =? k then obj_delete rest k else (k', v') :: obj_delete rest k
  end.

(** [Object.assign(target, source)]: the properties of [source], in order. *)
Definition obj_assign (target source : IDataObject) : IDataObject :=
  fold_left (fun t kv => obj_set t (fst kv) (snd kv)) source target.

(** [v.k] for the property names the source reads.  Reading a property of
    [undefined] or [null] throws; arrays and strings have a [length];
    every other read of a primitive or an array gives [undefined]. *)
Definition prop (v : JsValue) (k : string) : Result JsValue :=
  match v with
  | JUndefined =>
      Err (TypeError ("Cannot read properties of undefined (reading '" ++ k ++ "')"))
  | JNull =>
      Err (TypeError ("Cannot read properties of null (reading '" ++ k ++ "')"))
  | JObj o => Ok (obj_get o k)
  | JArr l => if k =? "length" then Ok (JNum (Z.of_nat (List.length l))) else Ok JUndefined
  | JStr s => if k =? "length" then Ok (JNum (Z.of_nat (String.length s))) else Ok JUndefined
  | JBool _ | JNum _ => Ok JUndefined
  end.

(** [typeof v === 'string']. *)
Definition is_string (v : JsValue) : bool :=
  match v with JStr _ => true | _ => false end.

(** [v === '']. *)
Definition is_empty_string (v : JsValue) : bool :=
  match v with JStr s => s =? "" | _ => false end.

(** SameValueZero, the comparison of [Array.prototype.includes].  Two
    arrays or objects are the same only when they are one reference; the
    values compared here come from different places, so they never are. *)
Definition same_value_zero (a b : JsValue) : bool :=
  match a, b with
  | JUndefined, JUndefined => true
  | JNull, JNull => true
  | JBool x, JBool y => Bool.eqb x y
  | JNum x, JNum y => (x =? y)%Z
  | JStr x, JStr y => x =? y
  | _, _ => false
  end.

Definition includes (l : list JsValue) (v : JsValue) : bool :=
  existsb (fun x => same_value_zero x v) l.

(** [v.toUpperCase()], for the [String.prototype.toUpperCase] of the
    runtime, [toUpperCase], which the model takes as it is. *)
Definition call_toUpperCase (toUpperCase : string -> string) (v : JsValue)
  : Result JsValue :=
  match v with
  | JStr s => Ok (JStr (toUpperCase s))
  | JUndefined | JNull => prop v "toUpperCase"
  | _ => Err (TypeError "toUpperCase is not a function")
  end.

(** [v === undefined]. *)
Definition is_undefined (v : JsValue) : bool :=
  match v with JUndefined => true | _ => false end.

(** [s.split(',')]. *)
Fixpoint split_comma (s : string) : list string :=
  match s with
  | EmptyString => [EmptyString]
  | String c rest =>
      if Ascii.eqb c "," then EmptyString :: split_comma rest
      else match split_comma rest with
           | h :: t => String c h :: t
           | [] => [String c EmptyString]
           end
  end.

(** [v.split(',')]. *)
Definition call_split (v : JsValue) : Result JsValue :=
  match v with
  | JStr s => Ok (JArr (map JStr (split_comma s)))
  | JUndefined | JNull => prop v "split"
  | _ => Err (TypeError "split is not a function")
  end.

(** [v.map(f)] for a callback that cannot throw. *)
Definition call_map (v : JsValue) (f : JsValue -> JsValue) : Result JsValue :=
  match v with
  | JArr l => Ok (JArr (map f l))
  | JUndefined | JNull => prop v "map"
  | _ => Err (TypeError "map is not a function")
  end.

(** [a.slice(0, end)] on a list: a negative [end] counts from the back. *)
Definition slice0 {A} (l : list A) (e : Z) : list A :=
  let len := Z.of_nat (List.length l) in
  let final := if (e <? 0)%Z then Z.max (len + e) 0 else Z.min e len in
  firstn (Z.to_nat final) l.

Definition slice0_string (s : string) (e : Z) : string :=
  let len := Z.of_nat (String.length s) in
  let final := if (e <? 0)%Z then Z.max (len + e) 0 else Z.min e len in
  substring 0 (Z.to_nat final) s.

(** [v.slice(0, end)]: arrays and strings both have the method. *)
Definition call_slice0 (v : JsValue) (e : Z) : Result JsValue :=
  match v with
  | JArr l => Ok (JArr (slice0 l e))
  | JStr s => Ok (JStr (slice0_string s e))
  | JUndefined | JNull => prop v "slice"
  | _ => Err (TypeError "slice is not a function")
  end.

(** The decimal numeral of an integer. *)
Definition Z_to_string (n : Z) : string := NilZero.string_of_int (Z.to_int n).

(** ToString, as template literals and [Array.prototype.join] apply it.
    Inside a join, [undefined] and [null] give the empty string. *)
Fixpoint to_string (v : JsValue) : string :=
  match v with
  | JUndefined => "undefined"
  | JNull => "null"
  | JBool true => "true"
  | JBool false => "false"
  | JNum n => Z_to_string n
  | JStr s => s
  | JArr l =>
      (fix join (l : list JsValue) : string :=
         match l with
         | [] => ""
         | x :: rest =>
             let sx := match x with JUndefined | JNull => "" | _ => to_string x end in
             match rest with [] => sx | _ => sx ++ "," ++ join rest end
         end) l
  | JObj _ => "[object Object]"
  end.

(** [v.join(',')]. *)
Definition call_join (v : JsValue) : Result JsValue :=
  match v with
  | JArr _ => Ok (JStr (to_string v))
  | JUndefined | JNull => prop v "join"
  | _ => Err (TypeError "join is not a function")
  end.

(** ToNumber on the values that need no parsing: [None] is NaN.  Strings,
    arrays and objects would have to be read as numerals: left out. *)
Definition to_number (v : JsValue) : Result (option Z) :=
  match v with
  | JUndefined => Ok None
  | JNull => Ok (Some 0%Z)
  | JBool b => Ok (Some (if b then 1%Z else 0%Z))
  | JNum n => Ok (Some n)
  | JStr _ | JArr _ | JObj _ => Err (OutsideModel "ToNumber of a string or object")
  end.

(** [v > 0]. *)
Definition gt_zero (v : JsValue) : Result bool :=
  rbind (to_number v) (fun n =>
    Ok (match n with Some z => (0 <? z)%Z | None => false end)).

(** The elements a [for (const x of v)] loop visits: arrays and strings
    are iterable, nothing else the node meets is. *)
Definition iterate (v : JsValue) : Result (list JsValue) :=
  match v with
  | JArr l => Ok l
  | JStr s => Ok (map (fun c => JStr (String c EmptyString)) (list_ascii_of_string s))
  | _ => Err (TypeError "is not iterable")
  end.

(** The arguments [push.apply(returnData, v)] passes on: none for
    [undefined] and [null], the elements of an array, and for a plain
    object the properties "0", "1", ... below its [length]. *)
Definition apply_arguments (v : JsValue) : Result (list JsValue) :=
  match v with
  | JUndefined | JNull => Ok []
  | JArr l => Ok l
  | JObj o =>
      rbind (to_number (obj_get o "length")) (fun n =>
        let len := match n with Some z => Z.to_nat z | None => 0%nat end in
        Ok (map (fun i => obj_get o (Z_to_string (Z.of_nat i))) (seq 0 len)))
  | JBool _ | JNum _ | JStr _ =>
      Err (TypeError "CreateListFromArrayLike called on non-object")
  end.

End JS.

(* ================================================================= *)
(** ** Requests, traces and the execution monad *)

Module Exec.
Import JS.

(** One call of [jiraSoftwareCloudApiRequest]: the arguments that reach the
    network.  An argument the call site leaves out is [JUndefined].
    [paginated] is the property name when the call goes through
    [jiraSoftwareCloudApiRequestAllItems]; [requestOptions] is the last
    argument of the helper, the options that it adds to those of the
    request. *)
Record Request : Type := mkRequest {
  endpoint : string;
  method : string;
  body : JsValue;
  query : JsValue;
  uri : JsValue;
  paginated : option string;
  requestOptions : JsValue;
}.

Definition Trace : Type := list Request.

(** [this: IExecuteFunctions]: what the platform hands to [execute].
    - [inputLength]: [this.getInputData().length];
    - [nodeParameter name i]: the resolved value of a parameter for input
      item [i], [None] when the node has no such parameter;
    - [server history r]: the answer of the Jira instance to request [r]
      after the requests of [history], [None] when the call fails;
    - [inputBinary i]: [this.getInputData()[i].binary], [undefined] when the
      item carries no binary data;
    - [getBinaryDataBuffer i name]: what the helper of that name gives for
      the binary property [name] of item [i], the bytes or the exception
      it throws. *)
Record IExecuteFunctions : Type := mkContext {
  inputLength : nat;
  nodeParameter : string -> nat -> option JsValue;
  server : Trace -> Request -> option JsValue;
  inputBinary : nat -> JsValue;
  getBinaryDataBuffer : nat -> string -> Result JsValue;
}.

(** A computation reads and extends the trace of requests issued so far;
    the trace survives an exception, so that what was sent before a
    failure can be told. *)
Definition M (A : Type) : Type := Trace -> Result A * Trace.

Definition ret {A} (a : A) : M A := fun t => (Ok a, t).

Definition throw {A} (e : Exception) : M A := fun t => (Err e, t).

Definition bind {A B} (m : M A) (k : A -> M B) : M B :=
  fun t => match m t with
           | (Ok a, t') => k a t'
           | (Err e, t') => (Err e, t')
           end.

Definition lift {A} (r : Result A) : M A := fun t => (r, t).

Declare Scope exec_scope.
Delimit Scope exec_scope with exec.
Notation "x <- m ;; k" := (bind m (fun x => k))
  (at level 61, m at next level, right associativity) : exec_scope.
Notation "' pat <- m ;; k" := (bind m (fun x => match x with pat => k end))
  (at level 61, pat pattern, m at next level, right associativity) : exec_scope.

Local Open Scope exec_scope.

(** Modelled from the spec: [getNodeParameter] belongs to the platform and
    is not among the sources.  The value collected for the parameter and
    the input item; a parameter that was not collected is an error raised
    before anything is sent. *)
Definition getNodeParameter (this : IExecuteFunctions) (name : string) (i : nat)
  : M JsValue :=
  match nodeParameter this name i with
  | Some v => ret v
  | None => throw (ParameterError name)
  end.

(** The casts [as string], [as boolean], [as number] and [as IDataObject]
    of a parameter: the value at the type the source declares for it.  A
    value of another type is outside the model. *)
Definition as_string (v : JsValue) : M string :=
  match v with JStr s => ret s | _ => throw (OutsideModel "not a string") end.

Definition as_boolean (v : JsValue) : M bool :=
  match v with JBool b => ret b | _ => throw (OutsideModel "not a boolean") end.

Definition as_number (v : JsValue) : M Z :=
  match v with JNum n => ret n | _ => throw (OutsideModel "not a number") end.

Definition as_object (v : JsValue) : M IDataObject :=
  match v with JObj o => ret o | _ => throw (OutsideModel "not an object") end.

Definition getString this name i := v <- getNodeParameter this name i ;; as_string v.
Definition getBoolean this name i := v <- getNodeParameter this name i ;; as_boolean v.
Definition getNumber this name i := v <- getNodeParameter this name i ;; as_number v.
Definition getObject this name i := v <- getNodeParameter this name i ;; as_object v.

(** Issue a request: it joins the trace whether or not it succeeds. *)
Definition send (this : IExecuteFunctions) (r : Request) : M JsValue :=
  fun t => match server this t r with
           | Some v => (Ok v, (t ++ [r])%list)
           | None => (Err NodeApiError, (t ++ [r])%list)
           end.

(** Modelled from the spec: [jiraSoftwareCloudApiRequest] (GenericFunctions)
    is not among the sources.  One HTTP request against the REST API with
    the given method, path, body and query string; a failure of the call
    propagates and nothing is retried. *)
Definition jiraSoftwareCloudApiRequest (this : IExecuteFunctions)
  (endpoint method : string) (body query : JsValue) : M JsValue :=
  send this (mkRequest endpoint method body query JUndefined None JUndefined).

(** The same helper called with all its arguments: a full address, which
    may be [undefined], and the options to add. *)
Definition jiraSoftwareCloudApiRequestWith (this : IExecuteFunctions)
  (endpoint method : string) (body query uri option : JsValue) : M JsValue :=
  send this (mkRequest endpoint method body query uri None option).

(** Modelled from the spec: [jiraSoftwareCloudApiRequestAllItems]
    (GenericFunctions) is not among the sources.  The pagination helper:
    it pages through the list endpoint and returns the records found
    under [propertyName]; the pages are one entry of the trace. *)
Definition jiraSoftwareCloudApiRequestAllItems (this : IExecuteFunctions)
  (propertyName endpoint method : string) (body query : JsValue) : M JsValue :=
  send this (mkRequest endpoint method body query JUndefined (Some propertyName)
               JUndefined).

(** [for (let i = 0; i < length; i++) body]: the locals the body changes
    are passed from one round to the next; an exception ends the loop. *)
Fixpoint for_loop {S} (body : nat -> S -> M S) (i count : nat) (s : S) : M S :=
  match count with
  | O => ret s
  | Datatypes.S n => s' <- body i s ;; for_loop body (Datatypes.S i) n s'
  end.

(** A request that changes the issue tracker. *)
Definition mutating (r : Request) : bool :=
  (method r =? "POST") || (method r =? "PUT") || (method r =? "DELETE").

End Exec.

(* ================================================================= *)
(** ** The Jira node *)

(** Line numbers are those of the source file that holds [class Jira]
    (unnamed/part_000); [execute] is its lines 777 to 1422. *)

Module Jira.
Import JS Exec.
Local Open Scope exec_scope.

(** The locals of [execute] that outlive one round of a loop: the query
    string [qs], declared once before the loops, and [returnData]. *)
Record Locals : Type := mkLocals {
  qs : IDataObject;
  returnData : list JsValue;
}.

(** [if (c) { o[k] = v; }]. *)
Definition assign_if (c : bool) (o : IDataObject) (k : string) (v : JsValue)
  : IDataObject :=
  if c then obj_set o k v else o.

(** [customFields.reduce((obj, value) =>
       Object.assign(obj, { [`${value.fieldId}`]: value.fieldValue }), {})]:
    the rounds of the reduction over an array. *)
Fixpoint reduce_custom_fields (values : list JsValue) (obj : IDataObject)
  : Result IDataObject :=
  match values with
  | [] => Ok obj
  | value :: rest =>
      rbind (prop value "fieldId") (fun fieldId =>
      rbind (prop value "fieldValue") (fun fieldValue =>
        reduce_custom_fields rest (obj_set obj (to_string fieldId) fieldValue)))
  end.

Definition call_reduce_custom_fields (customFields : JsValue) : Result IDataObject :=
  match customFields with
  | JArr values => reduce_custom_fields values []
  | JUndefined | JNull => rbind (prop customFields "reduce") (fun _ => Ok [])
  | _ => Err (TypeError "reduce is not a function")
  end.

(** The [customFieldsUi] block of issue create and update. *)
Definition assign_custom_fields (source fields : IDataObject) : Result IDataObject :=
  let customFieldsUi := obj_get source "customFieldsUi" in
  if truthy customFieldsUi then
    rbind (prop customFieldsUi "customFieldsValues") (fun customFields =>
      if truthy customFields then
        rbind (call_reduce_custom_fields customFields) (fun data =>
          Ok (obj_assign fields data))
      else Ok fields)
  else Ok fields.

(** [for (const issueType of issueTypes)
       if (issueType.subtask) subtaskIssues.push(issueType.id)]. *)
Fixpoint push_subtasks (issueTypes subtaskIssues : list JsValue)
  : Result (list JsValue) :=
  match issueTypes with
  | [] => Ok subtaskIssues
  | issueType :: rest =>
      rbind (prop issueType "subtask") (fun subtask =>
        if truthy subtask then
          rbind (prop issueType "id") (fun id =>
            push_subtasks rest (subtaskIssues ++ [id])%list)
        else push_subtasks rest subtaskIssues)
  end.

Definition subtask_ids (issueTypes : JsValue) : Result (list JsValue) :=
  rbind (iterate issueTypes) (fun l => push_subtasks l []).

Definition parent_missing : string :=
  "You must define a Parent Issue Key when Issue type is sub-task".

Section Runtime.

(** [String.prototype.toUpperCase] of the runtime. *)
Variable toUpperCase : string -> string.

(** The sub-task check of issue create and update: [source] is
    [additionalFields] or [updateFields], [issueType] the identifier the
    check looks up. *)
Definition check_parent (source : IDataObject) (issueType : JsValue)
  (subtaskIssues : list JsValue) (fields : IDataObject) : Result IDataObject :=
  let parentIssueKey := obj_get source "parentIssueKey" in
  if negb (truthy parentIssueKey) && includes subtaskIssues issueType then
    Err (NodeOperationError parent_missing)
  else if truthy parentIssueKey && includes subtaskIssues issueType then
    rbind (call_toUpperCase toUpperCase parentIssueKey) (fun key =>
      Ok (obj_set fields "parent" (JObj [("key", key)])))
  else Ok fields.

(** [fields.assignee]: by name on a server, by account id in the cloud. *)
Definition assignee_of (jiraVersion : string) (assignee : JsValue) : JsValue :=
  if jiraVersion =? "server" then JObj [("name", assignee)]
  else JObj [("id", assignee)].

(** *** resource issue, operation create (lines 790 to 870) *)

(** The [fields] object and the query string as they stand when the
    issue-type lookup is sent. *)
Definition create_fields (jiraVersion summary projectId issueTypeId : string)
  (additionalFields qs : IDataObject) : Result (IDataObject * IDataObject) :=
  let fields : IDataObject :=
    [ ("summary", JStr summary);
      ("project", JObj [("id", JStr projectId)]);
      ("issuetype", JObj [("id", JStr issueTypeId)]) ] in
  let get := obj_get additionalFields in
  let fields := assign_if (truthy (get "labels")) fields "labels" (get "labels") in
  let fields := assign_if (truthy (get "serverLabels")) fields "labels" (get "serverLabels") in
  let fields := assign_if (truthy (get "priority")) fields
                  "priority" (JObj [("id", get "priority")]) in
  let fields := assign_if (truthy (get "assignee")) fields
                  "assignee" (assignee_of jiraVersion (get "assignee")) in
  let fields := assign_if (truthy (get "reporter")) fields
                  "reporter" (JObj [("id", get "reporter")]) in
  let fields := assign_if (truthy (get "description")) fields
                  "description" (get "description") in
  let qs := assign_if (truthy (get "updateHistory")) qs
              "updateHistory" (get "updateHistory") in
  rbind (if truthy (get "componentIds") then
           rbind (call_map (get "componentIds") (fun id => JObj [("id", id)]))
             (fun components => Ok (obj_set fields "components" components))
         else Ok fields) (fun fields =>
  rbind (assign_custom_fields additionalFields fields) (fun fields =>
    Ok (fields, qs))).

Definition issue_create (this : IExecuteFunctions) (jiraVersion : string)
  (i : nat) (l : Locals) : M Locals :=
  summary <- getString this "summary" i ;;
  projectId <- getString this "project" i ;;
  issueTypeId <- getString this "issueType" i ;;
  additionalFields <- getObject this "additionalFields" i ;;
  let body : IDataObject := [] in
  '(fields, qs) <- lift (create_fields jiraVersion summary projectId issueTypeId
                           additionalFields (qs l)) ;;
  issueTypes <- jiraSoftwareCloudApiRequest this "/api/2/issuetype" "GET"
                  (JObj body) (JObj qs) ;;
  subtaskIssues <- lift (subtask_ids issueTypes) ;;
  fields <- lift (check_parent additionalFields (JStr issueTypeId) subtaskIssues fields) ;;
  let body := obj_set body "fields" (JObj fields) in
  responseData <- jiraSoftwareCloudApiRequest this "/api/2/issue" "POST"
                    (JObj body) JUndefined ;;
  ret (mkLocals qs (returnData l ++ [responseData])%list).

(** *** resource issue, operation update (lines 872 to 949) *)

Definition update_fields (jiraVersion : string) (updateFields : IDataObject)
  : Result IDataObject :=
  let fields : IDataObject := [] in
  let get := obj_get updateFields in
  let fields := assign_if (truthy (get "summary")) fields "summary" (get "summary") in
  let fields := assign_if (truthy (get "issueType")) fields
                  "issuetype" (JObj [("id", get "issueType")]) in
  let fields := assign_if (truthy (get "labels")) fields "labels" (get "labels") in
  let fields := assign_if (truthy (get "serverLabels")) fields "labels" (get "serverLabels") in
  let fields := assign_if (truthy (get "priority")) fields
                  "priority" (JObj [("id", get "priority")]) in
  let fields := assign_if (truthy (get "assignee")) fields
                  "assignee" (assignee_of jiraVersion (get "assignee")) in
  let fields := assign_if (truthy (get "reporter")) fields
                  "reporter" (JObj [("id", get "reporter")]) in
  let fields := assign_if (truthy (get "description")) fields
                  "description" (get "description") in
  assign_custom_fields updateFields fields.

Definition issue_path (issueKey : string) : string := "/api/2/issue/" ++ issueKey.

Definition issue_update (this : IExecuteFunctions) (jiraVersion : string)
  (i : nat) (l : Locals) : M Locals :=
  issueKey <- getString this "issueKey" i ;;
  updateFields <- getObject this "updateFields" i ;;
  let body : IDataObject := [] in
  fields <- lift (update_fields jiraVersion updateFields) ;;
  issueTypes <- jiraSoftwareCloudApiRequest this "/api/2/issuetype" "GET"
                  (JObj body) JUndefined ;;
  subtaskIssues <- lift (subtask_ids issueTypes) ;;
  fields <- lift (check_parent updateFields (obj_get updateFields "issueType")
                    subtaskIssues fields) ;;
  let body := obj_set body "fields" (JObj fields) in
  _ <- (if truthy (obj_get updateFields "statusId") then
          jiraSoftwareCloudApiRequest this (issue_path issueKey ++ "/transitions") "POST"
            (JObj [("transition", JObj [("id", obj_get updateFields "statusId")])])
            JUndefined
        else ret JUndefined) ;;
  _ <- jiraSoftwareCloudApiRequest this (issue_path issueKey) "PUT" (JObj body) JUndefined ;;
  ret (mkLocals (qs l) (returnData l ++ [JObj [("success", JBool true)]])%list).

(** *** resource issue, operation get (lines 951 to 973) *)

Definition issue_get (this : IExecuteFunctions) (i : nat) (l : Locals) : M Locals :=
  issueKey <- getString this "issueKey" i ;;
  additionalFields <- getObject this "additionalFields" i ;;
  let get := obj_get additionalFields in
  let qs := qs l in
  let qs := assign_if (truthy (get "fields")) qs "fields" (get "fields") in
  let qs := assign_if (truthy (get "fieldsByKey")) qs "fieldsByKey" (get "fieldsByKey") in
  let qs := assign_if (truthy (get "expand")) qs "expand" (get "expand") in
  let qs := assign_if (truthy (get "properties")) qs "properties" (get "properties") in
  let qs := assign_if (truthy (get "updateHistory")) qs "updateHistory" (get "updateHistory") in
  responseData <- jiraSoftwareCloudApiRequest this (issue_path issueKey) "GET"
                    (JObj []) (JObj qs) ;;
  ret (mkLocals qs (returnData l ++ [responseData])%list).

(** [returnData.push.apply(returnData, responseData)]. *)
Definition push_apply (l : list JsValue) (responseData : JsValue) : M (list JsValue) :=
  args <- lift (apply_arguments responseData) ;;
  ret (l ++ args)%list.

(** *** resource issue, operation getAll (lines 975 to 1003) *)

Definition getAll_body (options : IDataObject) : Result IDataObject :=
  let body : IDataObject := [] in
  let get := obj_get options in
  rbind (if truthy (get "fields") then
           rbind (call_split (get "fields")) (fun fields =>
             Ok (obj_set body "fields" fields))
         else Ok body) (fun body =>
  let body := assign_if (truthy (get "jql")) body "jql" (get "jql") in
  if truthy (get "expand") then
    if is_string (get "expand") then
      rbind (call_split (get "expand")) (fun expand =>
        Ok (obj_set body "expand" expand))
    else Ok (obj_set body "expand" (get "expand"))
  else Ok body).

Definition issue_getAll (this : IExecuteFunctions) (i : nat) (l : Locals) : M Locals :=
  returnAll <- getBoolean this "returnAll" i ;;
  options <- getObject this "options" i ;;
  body <- lift (getAll_body options) ;;
  responseData <-
    (if returnAll then
       jiraSoftwareCloudApiRequestAllItems this "issues" "/api/2/search" "POST"
         (JObj body) JUndefined
     else
       limit <- getNumber this "limit" i ;;
       let body := obj_set body "maxResults" (JNum limit) in
       responseData <- jiraSoftwareCloudApiRequest this "/api/2/search" "POST"
                         (JObj body) JUndefined ;;
       lift (prop responseData "issues")) ;;
  returnData <- push_apply (returnData l) responseData ;;
  ret (mkLocals (qs l) returnData).

(** *** resource issue, operation changelog (lines 1005 to 1018) *)

Definition issue_changelog (this : IExecuteFunctions) (i : nat) (l : Locals) : M Locals :=
  issueKey <- getString this "issueKey" i ;;
  returnAll <- getBoolean this "returnAll" i ;;
  '(qs, responseData) <-
    (if returnAll then
       responseData <- jiraSoftwareCloudApiRequestAllItems this "values"
                         (issue_path issueKey ++ "/changelog") "GET" JUndefined JUndefined ;;
       ret (qs l, responseData)
     else
       limit <- getNumber this "limit" i ;;
       let qs := obj_set (qs l) "maxResults" (JNum limit) in
       responseData <- jiraSoftwareCloudApiRequest this
                         (issue_path issueKey ++ "/changelog") "GET" (JObj []) (JObj qs) ;;
       values <- lift (prop responseData "values") ;;
       ret (qs, values)) ;;
  returnData <- push_apply (returnData l) responseData ;;
  ret (mkLocals qs returnData).

(** *** resource issue, operation notify (lines 1020 to 1103) *)

(** [x.map(e => ({ key: e }))] when [x.length > 0]: the [users] and
    [groups] blocks of the recipients. *)
Definition assign_mapped (values : JsValue) (name key : string) (o : IDataObject)
  : Result IDataObject :=
  rbind (prop values name) (fun list =>
  rbind (prop list "length") (fun length =>
  rbind (gt_zero length) (fun nonempty =>
    if nonempty then
      rbind (call_map list (fun e => JObj [(key, e)])) (fun mapped =>
        Ok (obj_set o name mapped))
    else Ok o))).

(** The object sent as [to], from [notificationRecipientsValues]. *)
Definition notificationRecipients (values : JsValue) : Result IDataObject :=
  let recipients : IDataObject := [] in
  if truthy values then
    rbind (prop values "reporter") (fun reporter =>
    let recipients := assign_if (truthy reporter) recipients "reporter" reporter in
    rbind (prop values "assignee") (fun assignee =>
    let recipients := assign_if (truthy assignee) recipients "assignee" assignee in
    rbind (prop values "watchers") (fun watchers =>
    let recipients := assign_if (truthy assignee) recipients "watchers" watchers in
    rbind (prop values "voters") (fun voters =>
    let recipients := assign_if (truthy voters) recipients "watchers" voters in
    rbind (assign_mapped values "users" "accountId" recipients) (fun recipients =>
    assign_mapped values "groups" "name" recipients)))))
  else Ok recipients.

(** The object sent as [restrict], from
    [notificationRecipientsRestrictionsValues]. *)
Definition notificationRecipientsRestrictions (values : JsValue) : Result IDataObject :=
  let restrictions : IDataObject := [] in
  if truthy values then assign_mapped values "groups" "name" restrictions
  else Ok restrictions.

Section RawJson.

(** [JSON.parse] of the runtime: the value a text denotes, [None] when the
    text is not JSON and the call throws. *)
Variable JSON_parse : string -> option JsValue.

(** Modelled from the spec: [validateJSON] (GenericFunctions) is not among
    the sources.  Caller-supplied JSON is passed through as parsed; a text
    that is syntactically invalid gives the empty string, the value the
    call sites compare the result with. *)
Definition validateJSON (json : string) : JsValue :=
  match JSON_parse json with
  | Some v => v
  | None => JStr ""
  end.

Definition issue_notify (this : IExecuteFunctions) (i : nat) (l : Locals) : M Locals :=
  issueKey <- getString this "issueKey" i ;;
  additionalFields <- getObject this "additionalFields" i ;;
  jsonActive <- getBoolean this "jsonParameters" 0 ;;
  let body : IDataObject := [] in
  let get := obj_get additionalFields in
  let body := assign_if (truthy (get "textBody")) body "textBody" (get "textBody") in
  let body := assign_if (truthy (get "htmlBody")) body "htmlBody" (get "htmlBody") in
  body <-
    (if negb jsonActive then
       recipientsUi <- getObject this "notificationRecipientsUi" i ;;
       recipients <- lift (notificationRecipients
                             (obj_get recipientsUi "notificationRecipientsValues")) ;;
       let body := obj_set body "to" (JObj recipients) in
       restrictionsUi <- getObject this "notificationRecipientsRestrictionsUi" i ;;
       restrictions <- lift (notificationRecipientsRestrictions
                               (obj_get restrictionsUi
                                  "notificationRecipientsRestrictionsValues")) ;;
       ret (obj_set body "restrict" (JObj restrictions))
     else
       recipientsText <- getString this "notificationRecipientsJson" i ;;
       let notificationRecipientsJson := validateJSON recipientsText in
       let body := assign_if (truthy notificationRecipientsJson) body
                     "to" notificationRecipientsJson in
       restrictionsText <- getString this "notificationRecipientsRestrictionsJson" i ;;
       let notificationRecipientsRestrictionsJson := validateJSON restrictionsText in
       ret (assign_if (truthy notificationRecipientsRestrictionsJson) body
              "restrict" notificationRecipientsRestrictionsJson)) ;;
  responseData <- jiraSoftwareCloudApiRequest this (issue_path issueKey ++ "/notify") "POST"
                    (JObj body) (JObj (qs l)) ;;
  ret (mkLocals (qs l) (returnData l ++ [responseData])%list).

(** *** resource issue, operations transitions and delete (lines 1105 to 1132) *)

Definition issue_transitions (this : IExecuteFunctions) (i : nat) (l : Locals) : M Locals :=
  issueKey <- getString this "issueKey" i ;;
  additionalFields <- getObject this "additionalFields" i ;;
  let get := obj_get additionalFields in
  let qs := qs l in
  let qs := assign_if (truthy (get "transitionId")) qs "transitionId" (get "transitionId") in
  let qs := assign_if (truthy (get "expand")) qs "expand" (get "expand") in
  let qs := assign_if (truthy (get "skipRemoteOnlyCondition")) qs
              "skipRemoteOnlyCondition" (get "skipRemoteOnlyCondition") in
  responseData <- jiraSoftwareCloudApiRequest this (issue_path issueKey ++ "/transitions") "GET"
                    (JObj []) (JObj qs) ;;
  transitions <- lift (prop responseData "transitions") ;;
  returnData <- push_apply (returnData l) transitions ;;
  ret (mkLocals qs returnData).

Definition success : JsValue := JObj [("success", JBool true)].

Definition issue_delete (this : IExecuteFunctions) (i : nat) (l : Locals) : M Locals :=
  issueKey <- getString this "issueKey" i ;;
  deleteSubtasks <- getBoolean this "deleteSubtasks" i ;;
  let qs := obj_set (qs l) "deleteSubtasks" (JBool deleteSubtasks) in
  _ <- jiraSoftwareCloudApiRequest this (issue_path issueKey) "DELETE" (JObj []) (JObj qs) ;;
  ret (mkLocals qs (returnData l ++ [success])%list).

(** *** resource issueAttachment (lines 1134 to 1229) *)

(** [jiraVersion === 'server' ? '2' : '3']. *)
Definition apiVersion (jiraVersion : string) : string :=
  if jiraVersion =? "server" then "2" else "3".

Definition api (jiraVersion path : string) : string :=
  "/api/" ++ apiVersion jiraVersion ++ path.

Definition no_binary_data : string := "No binary data exists on item!".

(** [`No binary data property "${binaryPropertyName}" does not exists on
    item!`]. *)
Definition no_binary_property (binaryPropertyName : string) : string :=
  "No binary data property " ++ String (ascii_of_nat 34) binaryPropertyName
  ++ String (ascii_of_nat 34) " does not exists on item!".

(** The options that carry the file of issueAttachment add. *)
Definition form_data (binaryDataBuffer fileName : JsValue) : JsValue :=
  JObj [("formData",
         JObj [("file",
                JObj [ ("value", binaryDataBuffer);
                       ("options", JObj [("filename", fileName)]) ])])].

Definition attachment_add (this : IExecuteFunctions) (jiraVersion : string)
  (i : nat) (l : Locals) : M Locals :=
  binaryPropertyName <- getString this "binaryPropertyName" i ;;
  issueKey <- getString this "issueKey" i ;;
  let binary := inputBinary this i in
  if is_undefined binary then throw (NodeOperationError no_binary_data)
  else
    let item := binary in
    binaryData <- lift (prop item binaryPropertyName) ;;
    binaryDataBuffer <- lift (getBinaryDataBuffer this i binaryPropertyName) ;;
    if is_undefined binaryData then
      throw (NodeOperationError (no_binary_property binaryPropertyName))
    else
      fileName <- lift (prop binaryData "fileName") ;;
      responseData <- jiraSoftwareCloudApiRequestWith this
                        (api jiraVersion ("/issue/" ++ issueKey ++ "/attachments"))
                        "POST" (JObj []) (JObj []) JUndefined
                        (form_data binaryDataBuffer fileName) ;;
      returnData <- push_apply (returnData l) responseData ;;
      ret (mkLocals (qs l) returnData).

Definition attachment_remove (this : IExecuteFunctions) (jiraVersion : string)
  (i : nat) (l : Locals) : M Locals :=
  attachmentId <- getString this "attachmentId" i ;;
  _ <- jiraSoftwareCloudApiRequest this (api jiraVersion ("/attachment/" ++ attachmentId))
         "DELETE" (JObj []) (JObj (qs l)) ;;
  ret (mkLocals (qs l) (returnData l ++ [success])%list).

Definition attachment_get (this : IExecuteFunctions) (jiraVersion : string)
  (i : nat) (l : Locals) : M Locals :=
  attachmentId <- getString this "attachmentId" i ;;
  responseData <- jiraSoftwareCloudApiRequest this
                    (api jiraVersion ("/attachment/" ++ attachmentId))
                    "GET" (JObj []) (JObj (qs l)) ;;
  ret (mkLocals (qs l) (returnData l ++ [JObj [("json", responseData)]])%list).

(** The round of the getAll loop: the attachments of one issue, cut to the
    limit unless all are wanted. *)
Definition attachment_getAll (this : IExecuteFunctions) (i : nat) (l : Locals) : M Locals :=
  issueKey <- getString this "issueKey" i ;;
  returnAll <- getBoolean this "returnAll" i ;;
  response <- jiraSoftwareCloudApiRequest this (issue_path issueKey) "GET"
                (JObj []) (JObj (qs l)) ;;
  fields <- lift (prop response "fields") ;;
  attachment <- lift (prop fields "attachment") ;;
  let responseData := attachment in
  responseData <-
    (if Bool.eqb returnAll false then
       limit <- getNumber this "limit" i ;;
       lift (call_slice0 responseData limit)
     else ret responseData) ;;
  responseData <- lift (call_map responseData (fun data => JObj [("json", data)])) ;;
  returnData <- push_apply (returnData l) responseData ;;
  ret (mkLocals (qs l) returnData).

(** Modelled from the spec: [prepareBinaryData] belongs to the platform and
    is not among the sources.  The bytes fetched by the secondary request,
    with the file name and MIME type of the metadata. *)
Definition prepareBinaryData (buffer filename mimeType : JsValue) : JsValue :=
  JObj [("data", buffer); ("fileName", filename); ("mimeType", mimeType)].

(** The options of the request that fetches a file:
    [{ json: false, encoding: null }]. *)
Definition raw_bytes : JsValue :=
  JObj [("json", JBool false); ("encoding", JNull)].

(** One round of the download loop over [returnData.entries()]. *)
Definition download (this : IExecuteFunctions) (binaryPropertyName : string)
  (attachment : JsValue) : M JsValue :=
  match attachment with
  | JObj entry =>
      json <- lift (prop attachment "json") ;;
      content <- lift (prop json "content") ;;
      buffer <- jiraSoftwareCloudApiRequestWith this "" "GET" (JObj []) (JObj [])
                  content raw_bytes ;;
      filename <- lift (prop json "filename") ;;
      mimeType <- lift (prop json "mimeType") ;;
      ret (JObj (obj_set entry "binary"
                   (JObj [(binaryPropertyName, prepareBinaryData buffer filename mimeType)])))
  | _ => throw (TypeError "Cannot create property 'binary'")
  end.

Fixpoint download_all (this : IExecuteFunctions) (binaryPropertyName : string)
  (entries : list JsValue) : M (list JsValue) :=
  match entries with
  | [] => ret []
  | attachment :: rest =>
      first <- download this binaryPropertyName attachment ;;
      others <- download_all this binaryPropertyName rest ;;
      ret (first :: others)
  end.

(** A loop of the attachment resource followed by the download pass. *)
Definition with_download (this : IExecuteFunctions) (loop : Locals -> M Locals)
  (l : Locals) : M Locals :=
  wanted <- getBoolean this "download" 0 ;;
  l <- loop l ;;
  if wanted : bool then
    binaryPropertyName <- getString this "binaryProperty" 0 ;;
    returnData <- download_all this binaryPropertyName (returnData l) ;;
    ret (mkLocals (qs l) returnData)
  else ret l.

(** *** resource issueComment (lines 1231 to 1372) *)

(** The structured-document envelope of API version 3 around a plain
    text. *)
Definition document (comment : string) : JsValue :=
  JObj [ ("type", JStr "doc");
         ("version", JNum 1);
         ("content", JArr [
            JObj [ ("type", JStr "paragraph");
                   ("content", JArr [
                      JObj [ ("type", JStr "text");
                             ("text", JStr comment) ] ]) ] ]) ].

Definition invalid_document : string := "Document Format must be a valid JSON".

(** The [body] property of comment add and update: the comment wrapped as
    the version demands, or the raw JSON the caller wrote. *)
Definition comment_body (this : IExecuteFunctions) (jiraVersion : string)
  (jsonParameters : bool) (i : nat) (body : IDataObject) : M IDataObject :=
  if Bool.eqb jsonParameters false then
    comment <- getString this "comment" i ;;
    if jiraVersion =? "server" then
      ret (obj_assign body [("body", JStr comment)])
    else
      ret (obj_assign body [("body", document comment)])
  else
    commentJson <- getString this "commentJson" i ;;
    let json := validateJSON commentJson in
    if is_empty_string json then
      throw (NodeOperationError invalid_document)
    else
      ret (obj_assign body [("body", json)]).

Definition comment_path (jiraVersion issueKey : string) : string :=
  api jiraVersion ("/issue/" ++ issueKey ++ "/comment").

Definition comment_add (this : IExecuteFunctions) (jiraVersion : string)
  (i : nat) (l : Locals) : M Locals :=
  jsonParameters <- getBoolean this "jsonParameters" 0 ;;
  issueKey <- getString this "issueKey" i ;;
  options <- getObject this "options" i ;;
  let body : IDataObject := [] in
  let expand := obj_get options "expand" in
  let qs := assign_if (truthy expand) (qs l) "expand" expand in
  let options := if truthy expand then obj_delete options "expand" else options in
  let body := obj_assign body options in
  body <- comment_body this jiraVersion jsonParameters i body ;;
  responseData <- jiraSoftwareCloudApiRequest this (comment_path jiraVersion issueKey)
                    "POST" (JObj body) (JObj qs) ;;
  ret (mkLocals qs (returnData l ++ [responseData])%list).

Definition comment_get (this : IExecuteFunctions) (jiraVersion : string)
  (i : nat) (l : Locals) : M Locals :=
  issueKey <- getString this "issueKey" i ;;
  commentId <- getString this "commentId" i ;;
  options <- getObject this "options" i ;;
  let qs := obj_assign (qs l) options in
  responseData <- jiraSoftwareCloudApiRequest this
                    (comment_path jiraVersion issueKey ++ "/" ++ commentId)
                    "GET" (JObj []) (JObj qs) ;;
  ret (mkLocals qs (returnData l ++ [responseData])%list).

Definition comment_getAll (this : IExecuteFunctions) (jiraVersion : string)
  (i : nat) (l : Locals) : M Locals :=
  issueKey <- getString this "issueKey" i ;;
  returnAll <- getBoolean this "returnAll" i ;;
  options <- getObject this "options" i ;;
  let body : IDataObject := [] in
  let qs := obj_assign (qs l) options in
  responseData <-
    (if returnAll then
       jiraSoftwareCloudApiRequestAllItems this "comments"
         (comment_path jiraVersion issueKey) "GET" (JObj body) (JObj qs)
     else
       limit <- getNumber this "limit" i ;;
       let body := obj_set body "maxResults" (JNum limit) in
       responseData <- jiraSoftwareCloudApiRequest this
                         (comment_path jiraVersion issueKey) "GET" (JObj body) (JObj qs) ;;
       lift (prop responseData "comments")) ;;
  returnData <- push_apply (returnData l) responseData ;;
  ret (mkLocals qs returnData).

Definition comment_remove (this : IExecuteFunctions) (jiraVersion : string)
  (i : nat) (l : Locals) : M Locals :=
  issueKey <- getString this "issueKey" i ;;
  commentId <- getString this "commentId" i ;;
  _ <- jiraSoftwareCloudApiRequest this
         (comment_path jiraVersion issueKey ++ "/" ++ commentId)
         "DELETE" (JObj []) (JObj (qs l)) ;;
  ret (mkLocals (qs l) (returnData l ++ [success])%list).

Definition comment_update (this : IExecuteFunctions) (jiraVersion : string)
  (i : nat) (l : Locals) : M Locals :=
  issueKey <- getString this "issueKey" i ;;
  commentId <- getString this "commentId" i ;;
  options <- getObject this "options" i ;;
  jsonParameters <- getBoolean this "jsonParameters" 0 ;;
  let body : IDataObject := [] in
  let expand := obj_get options "expand" in
  let qs := assign_if (truthy expand) (qs l) "expand" expand in
  let options := if truthy expand then obj_delete options "expand" else options in
  let qs := obj_assign qs options in
  body <- comment_body this jiraVersion jsonParameters i body ;;
  responseData <- jiraSoftwareCloudApiRequest this
                    (comment_path jiraVersion issueKey ++ "/" ++ commentId)
                    "PUT" (JObj body) (JObj qs) ;;
  ret (mkLocals qs (returnData l ++ [responseData])%list).

(** *** resource user (lines 1374 to 1415) *)

Definition user_create (this : IExecuteFunctions) (jiraVersion : string)
  (i : nat) (l : Locals) : M Locals :=
  username <- getNodeParameter this "username" i ;;
  emailAddress <- getNodeParameter this "emailAddress" i ;;
  displayName <- getNodeParameter this "displayName" i ;;
  let body : IDataObject :=
    [("name", username); ("emailAddress", emailAddress); ("displayName", displayName)] in
  additionalFields <- getObject this "additionalFields" i ;;
  let body := obj_assign body additionalFields in
  responseData <- jiraSoftwareCloudApiRequest this (api jiraVersion "/user") "POST"
                    (JObj body) (JObj []) ;;
  ret (mkLocals (qs l) (returnData l ++ [responseData])%list).

Definition user_delete (this : IExecuteFunctions) (jiraVersion : string)
  (i : nat) (l : Locals) : M Locals :=
  accountId <- getNodeParameter this "accountId" i ;;
  let qs := obj_set (qs l) "accountId" accountId in
  _ <- jiraSoftwareCloudApiRequest this (api jiraVersion "/user") "DELETE"
         (JObj []) (JObj qs) ;;
  ret (mkLocals qs (returnData l ++ [success])%list).

Definition user_get (this : IExecuteFunctions) (jiraVersion : string)
  (i : nat) (l : Locals) : M Locals :=
  accountId <- getNodeParameter this "accountId" i ;;
  let qs := obj_set (qs l) "accountId" accountId in
  additionalFields <- getObject this "additionalFields" i ;;
  let expand := obj_get additionalFields "expand" in
  qs <- (if truthy expand then
           joined <- lift (call_join expand) ;;
           ret (obj_set qs "expand" joined)
         else ret qs) ;;
  responseData <- jiraSoftwareCloudApiRequest this (api jiraVersion "/user") "GET"
                    (JObj []) (JObj qs) ;;
  ret (mkLocals qs (returnData l ++ [responseData])%list).

(** *** execute *)

(** The loop over the input items that a resource and an operation select;
    [None] when the pair selects none. *)
Definition operation_loop (this : IExecuteFunctions)
  (resource operation jiraVersion : string) : option (Locals -> M Locals) :=
  let length := inputLength this in
  let each (round : nat -> Locals -> M Locals) := Some (for_loop round 0 length) in
  if resource =? "issue" then
    if operation =? "create" then each (issue_create this jiraVersion)
    else if operation =? "update" then each (issue_update this jiraVersion)
    else if operation =? "get" then each (issue_get this)
    else if operation =? "getAll" then each (issue_getAll this)
    else if operation =? "changelog" then each (issue_changelog this)
    else if operation =? "notify" then each (issue_notify this)
    else if operation =? "transitions" then each (issue_transitions this)
    else if operation =? "delete" then each (issue_delete this)
    else None
  else if resource =? "issueAttachment" then
    if operation =? "add" then each (attachment_add this jiraVersion)
    else if operation =? "remove" then each (attachment_remove this jiraVersion)
    else if operation =? "get" then
      Some (with_download this (for_loop (attachment_get this jiraVersion) 0 length))
    else if operation =? "getAll" then
      Some (with_download this (for_loop (attachment_getAll this) 0 length))
    else None
  else if resource =? "issueComment" then
    if operation =? "add" then each (comment_add this jiraVersion)
    else if operation =? "get" then each (comment_get this jiraVersion)
    else if operation =? "getAll" then each (comment_getAll this jiraVersion)
    else if operation =? "remove" then each (comment_remove this jiraVersion)
    else if operation =? "update" then each (comment_update this jiraVersion)
    else None
  else if resource =? "user" then
    if operation =? "create" then each (user_create this jiraVersion)
    else if operation =? "delete" then each (user_delete this jiraVersion)
    else if operation =? "get" then each (user_get this jiraVersion)
    else None
  else None.

(** [execute]: the records returned, in order.  [qs] and [returnData]
    start empty, once, before any loop. *)
Definition execute (this : IExecuteFunctions) : M (list JsValue) :=
  let start := mkLocals [] [] in
  resource <- getString this "resource" 0 ;;
  operation <- getString this "operation" 0 ;;
  jiraVersion <- getString this "jiraVersion" 0 ;;
  match operation_loop this resource operation jiraVersion with
  | Some loop => l <- loop start ;; ret (returnData l)
  | None => ret (returnData start)
  end.

(** Run from an empty trace. *)
Definition run (this : IExecuteFunctions) : Result (list JsValue) * Trace :=
  execute this [].

End RawJson.

End Runtime.

End Jira.

(* ================================================================= *)
(** ** A reader for JSON texts *)

Module Json.
Import JS.

(** [JSON.parse] on the texts made of [null], [true], [false], integers,
    strings with the one-letter escapes, arrays and objects.  Fractions,
    exponents and [\u] escapes are not read.  The properties of [execute]
    are stated for any reader; this one runs the model on concrete
    texts. *)

Definition quote : ascii := ascii_of_nat 34.
Definition backslash : ascii := ascii_of_nat 92.

Definition is_space (c : ascii) : bool :=
  let n := nat_of_ascii c in
  (n =? 32)%nat || (n =? 9)%nat || (n =? 10)%nat || (n =? 13)%nat.

Definition digit_of (c : ascii) : option Z :=
  let n := nat_of_ascii c in
  if (48 <=? n)%nat && (n <=? 57)%nat then Some (Z.of_nat (n - 48)) else None.

Fixpoint skip_space (s : string) : string :=
  match s with
  | String c rest => if is_space c then skip_space rest else s
  | EmptyString => s
  end.

(** [s] without the prefix [word], when it starts with it. *)
Fixpoint strip (word s : string) : option string :=
  match word, s with
  | EmptyString, _ => Some s
  | String a word', String b s' => if Ascii.eqb a b then strip word' s' else None
  | String _ _, EmptyString => None
  end.

Fixpoint read_digits (s : string) (acc : Z) : Z * string :=
  match s with
  | String c rest =>
      match digit_of c with
      | Some d => read_digits rest (10 * acc + d)%Z
      | None => (acc, s)
      end
  | EmptyString => (acc, s)
  end.

(** An integer without its sign: no leading zero, no fraction, no
    exponent. *)
Definition read_natural (s : string) : option (Z * string) :=
  match s with
  | String c rest =>
      match digit_of c with
      | Some d =>
          let '(n, rest') := if (d =? 0)%Z then (0%Z, rest) else read_digits rest d in
          match rest' with
          | String c' _ =>
              if Ascii.eqb c' "." || Ascii.eqb c' "e" || Ascii.eqb c' "E"
                 || match digit_of c' with Some _ => true | None => false end
              then None else Some (n, rest')
          | EmptyString => Some (n, rest')
          end
      | None => None
      end
  | EmptyString => None
  end.

Definition unescape (c : ascii) : option ascii :=
  if Ascii.eqb c quote then Some quote
  else if Ascii.eqb c backslash then Some backslash
  else if Ascii.eqb c "/" then Some "/"%char
  else if Ascii.eqb c "b" then Some (ascii_of_nat 8)
  else if Ascii.eqb c "f" then Some (ascii_of_nat 12)
  else if Ascii.eqb c "n" then Some (ascii_of_nat 10)
  else if Ascii.eqb c "r" then Some (ascii_of_nat 13)
  else if Ascii.eqb c "t" then Some (ascii_of_nat 9)
  else None.

(** The characters of a string literal after its opening quote. *)
Fixpoint read_string (s : string) : option (string * string) :=
  match s with
  | EmptyString => None
  | String c rest =>
      if Ascii.eqb c quote then Some (EmptyString, rest)
      else if Ascii.eqb c backslash then
        match rest with
        | String e rest' =>
            match unescape e, read_string rest' with
            | Some ch, Some (str, after) => Some (String ch str, after)
            | _, _ => None
            end
        | EmptyString => None
        end
      else if (nat_of_ascii c <? 32)%nat then None
      else match read_string rest with
           | Some (str, after) => Some (String c str, after)
           | None => None
           end
  end.

Fixpoint read_value (fuel : nat) (s : string) : option (JsValue * string) :=
  match fuel with
  | O => None
  | S fuel =>
      match skip_space s with
      | EmptyString => None
      | String c rest as text =>
          if Ascii.eqb c quote then
            match read_string rest with
            | Some (str, after) => Some (JStr str, after)
            | None => None
            end
          else if Ascii.eqb c "[" then
            match skip_space rest with
            | String "]" after => Some (JArr [], after)
            | _ => match read_elements fuel rest with
                   | Some (l, after) => Some (JArr l, after)
                   | None => None
                   end
            end
          else if Ascii.eqb c "{" then
            match skip_space rest with
            | String "}" after => Some (JObj [], after)
            | _ => match read_members fuel rest [] with
                   | Some (o, after) => Some (JObj o, after)
                   | None => None
                   end
            end
          else if Ascii.eqb c "-" then
            match read_natural rest with
            | Some (n, after) => Some (JNum (- n), after)
            | None => None
            end
          else match strip "null" text, strip "true" text, strip "false" text with
               | Some after, _, _ => Some (JNull, after)
               | _, Some after, _ => Some (JBool true, after)
               | _, _, Some after => Some (JBool false, after)
               | None, None, None =>
                   match read_natural text with
                   | Some (n, after) => Some (JNum n, after)
                   | None => None
                   end
               end
      end
  end

with read_elements (fuel : nat) (s : string) : option (list JsValue * string) :=
  match fuel with
  | O => None
  | S fuel =>
      match read_value fuel s with
      | Some (v, after) =>
          match skip_space after with
          | String "]" after' => Some ([v], after')
          | String "," after' =>
              match read_elements fuel after' with
              | Some (l, after'') => Some (v :: l, after'')
              | None => None
              end
          | _ => None
          end
      | None => None
      end
  end

with read_members (fuel : nat) (s : string) (o : IDataObject)
  : option (IDataObject * string) :=
  match fuel with
  | O => None
  | S fuel =>
      match skip_space s with
      | String c rest =>
          if Ascii.eqb c quote then
            match read_string rest with
            | Some (key, after) =>
                match skip_space after with
                | String ":" after' =>
                    match read_value fuel after' with
                    | Some (v, after'') =>
                        let o := obj_set o key v in
                        match skip_space after'' with
                        | String "}" final => Some (o, final)
                        | String "," more => read_members fuel more o
                        | _ => None
                        end
                    | None => None
                    end
                | _ => None
                end
            | None => None
            end
          else None
      | EmptyString => None
      end
  end.

Definition parse (text : string) : option JsValue :=
  match read_value (2 * String.length text + 2) text with
  | Some (v, after) =>
      match skip_space after with
      | EmptyString => Some v
      | String _ _ => None
      end
  | None => None
  end.

End Json.

(* ================================================================= *)
(** ** The Elasticsearch document descriptors *)

Module Elasticsearch.
Import JS.

Inductive PropertyType : Type :=
| TString | TBoolean | TNumber | TOptions | TCollection | TFixedCollection.

(** An entry of a descriptor table ([INodeProperties]): [show] is
    [displayOptions.show]; [options] lists the values an [options] field
    offers, and for a collection the names of the fields nested in it. *)
Record INodeProperties : Type := mkProperty {
  displayName : string;
  name : string;
  type : PropertyType;
  required : option bool;
  default : JsValue;
  show : list (string * list JsValue);
  options : list string;
}.

Definition on (operation : string) : list (string * list JsValue) :=
  [("resource", [JStr "document"]); ("operation", [JStr operation])].

Definition getAll_options : list string :=
  [ "allow_no_indices"; "allow_partial_search_results"; "batched_reduce_size";
    "ccs_minimize_roundtrips"; "docvalue_fields"; "expand_wildcards"; "explain";
    "ignore_throttled"; "ignore_unavailable"; "max_concurrent_shard_requests";
    "pre_filter_shard_size"; "query"; "request_cache"; "routing"; "search_type";
    "seq_no_primary_term"; "sort"; "stats"; "stored_fields"; "terminate_after";
    "timeout"; "track_scores"; "track_total_hits"; "version" ].

(** [documentFields] (DocumentDescription.ts, lines 51 to 788), entry by
    entry. *)
Definition documentFields : list INodeProperties :=
  [ (* document: delete *)
    mkProperty "Index ID" "indexId" TString (Some true) (JStr "") (on "delete") [];
    mkProperty "Document ID" "documentId" TString (Some true) (JStr "") (on "delete") [];
    (* document: get *)
    mkProperty "Index ID" "indexId" TString (Some true) (JStr "") (on "get") [];
    mkProperty "Document ID" "documentId" TString (Some true) (JStr "") (on "get") [];
    mkProperty "Simple" "simple" TBoolean None (JBool true) (on "get") [];
    mkProperty "Options" "options" TCollection None (JObj []) (on "get")
      ["_source_excludes"; "_source_includes"; "stored_fields"];
    (* document: getAll *)
    mkProperty "Index ID" "indexId" TString (Some true) (JStr "") (on "getAll") [];
    mkProperty "Return All" "returnAll" TBoolean None (JBool false) (on "getAll") [];
    mkProperty "Limit" "limit" TNumber None (JNum 50)
      (on "getAll" ++ [("returnAll", [JBool false])])%list [];
    mkProperty "Simple" "simple" TBoolean None (JBool true) (on "getAll") [];
    mkProperty "Options" "options" TCollection None (JObj []) (on "getAll") getAll_options;
    (* document: create *)
    mkProperty "Index ID" "indexId" TString (Some true) (JStr "") (on "create") [];
    mkProperty "Data to Send" "dataToSend" TOptions None (JStr "defineBelow") (on "create")
      ["defineBelow"; "autoMapInputData"];
    mkProperty "Inputs to Ignore" "inputsToIgnore" TString (Some false) (JStr "")
      (on "create" ++ [("dataToSend", [JStr "autoMapInputData"])])%list [];
    mkProperty "Fields to Send" "fieldsUi" TFixedCollection None (JObj [])
      (on "create" ++ [("dataToSend", [JStr "defineBelow"])])%list ["fieldValues"];
    mkProperty "Additional Fields" "additionalFields" TCollection None (JObj [])
      (on "create") ["documentId"; "routing"; "timeout"];
    (* document: update *)
    mkProperty "Index ID" "indexId" TString (Some true) (JStr "") (on "update") [];
    mkProperty "Document ID" "documentId" TString (Some true) (JStr "") (on "update") [];
    mkProperty "Data to Send" "dataToSend" TOptions None (JStr "defineBelow") (on "update")
      ["defineBelow"; "autoMapInputData"];
    mkProperty "Inputs to Ignore" "inputsToIgnore" TString (Some false) (JStr "")
      (on "update" ++ [("dataToSend", [JStr "autoMapInputData"])])%list [];
    mkProperty "Fields to Send" "fieldsUi" TFixedCollection None (JObj [])
      (on "update" ++ [("dataToSend", [JStr "defineBelow"])])%list ["fieldValues"] ].

(** Modelled from the spec: the function that evaluates [displayOptions]
    belongs to the platform and is not among the sources.  Visibility is a
    pure function of the values selected so far: a field is shown when, for
    every parameter its [show] names, the current value of that parameter
    is one of the listed values. *)
Definition displayParameter (nodeValues : IDataObject) (p : INodeProperties) : bool :=
  forallb (fun cond => includes (snd cond) (obj_get nodeValues (fst cond))) (show p).

(** The entries of the table that are shown. *)
Definition displayed (nodeValues : IDataObject) : list INodeProperties :=
  filter (displayParameter nodeValues) documentFields.

(** Whether a field of that name is shown. *)
Definition visible (nodeValues : IDataObject) (field : string) : bool :=
  existsb (fun p => name p =? field) (displayed nodeValues).

(** The values the table offers for a field of type [options]. *)
Definition offered (nodeValues : IDataObject) (field : string) : list string :=
  flat_map options
    (filter (fun p => name p =? field) (displayed nodeValues)).

(** The two field groups that [dataToSend] chooses between. *)
Definition data_groups : list string := ["fieldsUi"; "inputsToIgnore"].

(** Modelled from the spec: the request builder of the Elasticsearch node
    is not among the sources.  "Field Schema Tables determine which fields
    are collected", and the builder constructs the body from the collected
    values: the groups that reach the body are the groups that are
    shown. *)
Definition body_groups (nodeValues : IDataObject) : list string :=
  filter (visible nodeValues) data_groups.

End Elasticsearch.

(* ================================================================= *)
(** ** The option lists and the credential test of the Jira node *)

(** [methods.loadOptions] and [methods.credentialTest] of [class Jira]
    (unnamed/part_000, lines 476 to 775). *)

From Stdlib Require Sorted Permutation OrderedTypeEx.

Module Methods.
Import JS Exec Jira.
Local Open Scope exec_scope.

(** [this: ILoadOptionsFunctions]: what the platform hands to a method that
    fills a dropdown.
    - [currentNodeParameter name]: the value the parameter has in the node
      that is being edited, [undefined] when it has none;
    - [answers history r]: the answer of the Jira instance to request [r]
      after the requests of [history], [None] when the call fails. *)
Record ILoadOptionsFunctions : Type := mkLoadContext {
  currentNodeParameter : string -> JsValue;
  answers : Trace -> Request -> option JsValue;
}.

(** Modelled from the spec: [getCurrentNodeParameter] belongs to the
    platform and is not among the sources.  The value collected for the
    parameter so far. *)
Definition getCurrentNodeParameter (this : ILoadOptionsFunctions) (name : string)
  : JsValue :=
  currentNodeParameter this name.

(** [jiraSoftwareCloudApiRequest.call(this, ...)]: the helper takes the
    context of a dropdown as it takes that of [execute], and uses its
    connection to Jira only.  A dropdown has no input items. *)
Definition connection (this : ILoadOptionsFunctions) : IExecuteFunctions :=
  mkContext 0 (fun _ _ => None) (answers this)
    (fun _ => JUndefined) (fun _ _ => Ok JUndefined).

(** [a === b] on the values compared here: [===] and SameValueZero differ
    on NaN only, which the integers do not have. *)
Definition strict_equal (a b : JsValue) : bool := same_value_zero a b.

(** [Array.isArray(v)]. *)
Definition is_array (v : JsValue) : bool :=
  match v with JArr _ => true | _ => false end.

Section Order.

(** [x < y] on two strings, as the runtime compares them: by their code
    units.  The model takes the comparison as it is. *)
Variable string_less_than : string -> string -> bool.

(** [a < b]: two strings compare as strings, any other pair as numbers,
    and a comparison with NaN is false. *)
Definition less_than (a b : JsValue) : Result bool :=
  match a, b with
  | JStr x, JStr y => Ok (string_less_than x y)
  | _, _ =>
      rbind (to_number a) (fun x =>
      rbind (to_number b) (fun y =>
        Ok (match x, y with
            | Some x, Some y => (x <? y)%Z
            | _, _ => false
            end)))
  end.

(** The comparison every sorted list uses:
    [(a, b) => { if (a.name < b.name) { return -1; }
                 if (a.name > b.name) { return 1; }
                 return 0; }]. *)
Definition by_name (a b : JsValue) : Result Z :=
  rbind (prop a "name") (fun a_name =>
  rbind (prop b "name") (fun b_name =>
  rbind (less_than a_name b_name) (fun before =>
    if before : bool then Ok (-1)%Z
    else
      rbind (less_than b_name a_name) (fun after =>
        if after : bool then Ok 1%Z else Ok 0%Z)))).

(** [Array.prototype.sort(compare)] is a stable sort: each element in turn
    goes into the part already sorted, behind the elements that do not
    come after it.  For a comparison that orders the elements any stable
    method gives this list. *)
Fixpoint insert (compare : JsValue -> JsValue -> Result Z) (x : JsValue)
  (sorted : list JsValue) : Result (list JsValue) :=
  match sorted with
  | [] => Ok [x]
  | y :: rest =>
      rbind (compare x y) (fun c =>
        if (c <? 0)%Z then Ok (x :: y :: rest)
        else rbind (insert compare x rest) (fun behind => Ok (y :: behind)))
  end.

Fixpoint sort_into (compare : JsValue -> JsValue -> Result Z)
  (sorted rest : list JsValue) : Result (list JsValue) :=
  match rest with
  | [] => Ok sorted
  | x :: rest =>
      rbind (insert compare x sorted) (fun sorted => sort_into compare sorted rest)
  end.

Definition sort (compare : JsValue -> JsValue -> Result Z) (l : list JsValue)
  : Result (list JsValue) :=
  sort_into compare [] l.

(** [for (const entry of entries) returnData.push({ name, value })], with
    the name and the value that [make] reads off the entry. *)
Fixpoint push_options (make : JsValue -> Result JsValue) (entries returnData : list JsValue)
  : Result (list JsValue) :=
  match entries with
  | [] => Ok returnData
  | entry :: rest =>
      rbind (make entry) (fun option =>
        push_options make rest (returnData ++ [option])%list)
  end.

(** [{ name: entry[nameKey], value: entry[valueKey] }]. *)
Definition option_from (nameKey valueKey : string) (entry : JsValue) : Result JsValue :=
  rbind (prop entry nameKey) (fun name =>
  rbind (prop entry valueKey) (fun value =>
    Ok (JObj [("name", name); ("value", value)]))).

(** The loop over the entries and the sort that ends all the lists but
    that of the custom fields. *)
Definition sorted_options (make : JsValue -> Result JsValue) (entries : JsValue)
  : M (list JsValue) :=
  entries <- lift (iterate entries) ;;
  returnData <- lift (push_options make entries []) ;;
  lift (sort by_name returnData).

(** *** getProjects (lines 514 to 547) *)

Definition getProjects (this : ILoadOptionsFunctions) : M (list JsValue) :=
  let jiraVersion := getCurrentNodeParameter this "jiraVersion" in
  projects <-
    (if strict_equal jiraVersion (JStr "server") then
       jiraSoftwareCloudApiRequest (connection this) "/api/2/project" "GET"
         JUndefined JUndefined
     else
       jiraSoftwareCloudApiRequestAllItems (connection this) "values"
         "/api/2/project/search" "GET" JUndefined JUndefined) ;;
  values <- lift (prop projects "values") ;;
  let projects := if truthy values && is_array values then values else projects in
  sorted_options (option_from "name" "id") projects.

(** *** getIssueTypes (lines 551 to 570) *)

Definition getIssueTypes (this : ILoadOptionsFunctions) : M (list JsValue) :=
  let projectId := getCurrentNodeParameter this "project" in
  response <- jiraSoftwareCloudApiRequest (connection this)
                ("/api/2/project/" ++ to_string projectId) "GET" JUndefined JUndefined ;;
  issueTypes <- lift (prop response "issueTypes") ;;
  sorted_options (option_from "name" "id") issueTypes.

(** *** getLabels (lines 574 to 596) *)

Definition getLabels (this : ILoadOptionsFunctions) : M (list JsValue) :=
  labels <- jiraSoftwareCloudApiRequest (connection this) "/api/2/label" "GET"
              JUndefined JUndefined ;;
  values <- lift (prop labels "values") ;;
  sorted_options (fun label => Ok (JObj [("name", label); ("value", label)])) values.

(** *** getPriorities (lines 600 to 622) *)

Definition getPriorities (this : ILoadOptionsFunctions) : M (list JsValue) :=
  priorities <- jiraSoftwareCloudApiRequest (connection this) "/api/2/priority" "GET"
                  JUndefined JUndefined ;;
  sorted_options (option_from "name" "id") priorities.

(** *** getUsers (lines 626 to 666) *)

Definition getUsers (this : ILoadOptionsFunctions) : M (list JsValue) :=
  let jiraVersion := getCurrentNodeParameter this "jiraVersion" in
  if strict_equal jiraVersion (JStr "server") then
    users <- jiraSoftwareCloudApiRequest (connection this) "/api/2/user/search" "GET"
               (JObj []) (JObj [("username", JStr "'")]) ;;
    sorted_options (option_from "displayName" "name") users
  else
    users <- jiraSoftwareCloudApiRequest (connection this) "/api/2/users/search" "GET"
               JUndefined JUndefined ;;
    sorted_options (option_from "displayName" "accountId") users.

(** *** getGroups (lines 670 to 692) *)

Definition getGroups (this : ILoadOptionsFunctions) : M (list JsValue) :=
  groups <- jiraSoftwareCloudApiRequest (connection this) "/api/2/groups/picker" "GET"
              JUndefined JUndefined ;;
  groups <- lift (prop groups "groups") ;;
  sorted_options (option_from "name" "name") groups.

(** *** getTransitions (lines 696 to 716) *)

Definition getTransitions (this : ILoadOptionsFunctions) : M (list JsValue) :=
  let issueKey := getCurrentNodeParameter this "issueKey" in
  transitions <- jiraSoftwareCloudApiRequest (connection this)
                   ("/api/2/issue/" ++ to_string issueKey ++ "/transitions") "GET"
                   JUndefined JUndefined ;;
  transitions <- lift (prop transitions "transitions") ;;
  sorted_options (option_from "name" "id") transitions.

(** *** getProjectComponents (lines 753 to 773) *)

Definition getProjectComponents (this : ILoadOptionsFunctions) : M (list JsValue) :=
  let project := getCurrentNodeParameter this "project" in
  response <- jiraSoftwareCloudApiRequest (connection this)
                ("/api/2/project/" ++ to_string project ++ "/component") "GET"
                JUndefined JUndefined ;;
  components <- lift (prop response "values") ;;
  sorted_options (option_from "name" "id") components.

End Order.

(** *** getCustomFields (lines 720 to 749) *)

(** [v.find(o => o.id === id)]. *)
Fixpoint find_by_id (l : list JsValue) (id : JsValue) : Result JsValue :=
  match l with
  | [] => Ok JUndefined
  | o :: rest =>
      rbind (prop o "id") (fun o_id =>
        if strict_equal o_id id then Ok o else find_by_id rest id)
  end.

Definition call_find_by_id (v id : JsValue) : Result JsValue :=
  match v with
  | JArr l => find_by_id l id
  | JUndefined | JNull => prop v "find"
  | _ => Err (TypeError "find is not a function")
  end.

(** [Object.keys(v)] for a plain object, and for the primitives that have
    no keys.  The indices of an array or of a string are left out. *)
Definition object_keys (v : JsValue) : Result (list string) :=
  match v with
  | JObj o => Ok (map fst o)
  | JBool _ | JNum _ => Ok []
  | JUndefined | JNull => Err (TypeError "Cannot convert undefined or null to object")
  | JArr _ | JStr _ => Err (OutsideModel "the keys of an array or of a string")
  end.

(** [Object.keys(schema).includes('customId')] for a [schema] that is
    set: the keys of an array or of a string are indices, and a number or
    a boolean has none. *)
Definition has_custom_id (schema : JsValue) : bool :=
  match schema with
  | JObj o => obj_has o "customId"
  | _ => false
  end.

(** The loop over [Object.keys(fields)]. *)
Fixpoint push_custom_fields (fields : JsValue) (keys : list string)
  (returnData : list JsValue) : Result (list JsValue) :=
  match keys with
  | [] => Ok returnData
  | key :: rest =>
      rbind (prop fields key) (fun field =>
      rbind (prop field "schema") (fun schema =>
        if truthy schema && has_custom_id schema then
          rbind (prop field "name") (fun name =>
          rbind (prop field "key") (fun field_key =>
          rbind (if truthy field_key then Ok field_key else prop field "fieldId")
            (fun value =>
               push_custom_fields fields rest
                 (returnData ++ [JObj [("name", name); ("value", value)]])%list)))
        else push_custom_fields fields rest returnData))
  end.

Definition createmeta (projectId issueTypeId : JsValue) : string :=
  "/api/2/issue/createmeta?projectIds=" ++ to_string projectId
  ++ "&issueTypeIds=" ++ to_string issueTypeId
  ++ "&expand=projects.issuetypes.fields".

Definition getCustomFields (this : ILoadOptionsFunctions) : M (list JsValue) :=
  let operation := getCurrentNodeParameter this "operation" in
  '(projectId, issueTypeId) <-
    (if strict_equal operation (JStr "create") then
       ret (getCurrentNodeParameter this "project",
            getCurrentNodeParameter this "issueType")
     else
       let issueKey := getCurrentNodeParameter this "issueKey" in
       res <- jiraSoftwareCloudApiRequest (connection this)
                ("/api/2/issue/" ++ to_string issueKey) "GET" (JObj []) (JObj []) ;;
       fields <- lift (prop res "fields") ;;
       project <- lift (prop fields "project") ;;
       projectId <- lift (prop project "id") ;;
       issuetype <- lift (prop fields "issuetype") ;;
       issueTypeId <- lift (prop issuetype "id") ;;
       ret (projectId, issueTypeId)) ;;
  res <- jiraSoftwareCloudApiRequest (connection this)
           (createmeta projectId issueTypeId) "GET" JUndefined JUndefined ;;
  projects <- lift (prop res "projects") ;;
  project <- lift (call_find_by_id projects projectId) ;;
  issuetypes <- lift (prop project "issuetypes") ;;
  issuetype <- lift (call_find_by_id issuetypes issueTypeId) ;;
  fields <- lift (prop issuetype "fields") ;;
  keys <- lift (object_keys fields) ;;
  lift (push_custom_fields fields keys []).

(** *** credentialTest: jiraSoftwareApiTest (lines 478 to 509) *)

(** [this: ICredentialTestFunctions]: [helpers.request], which gives the
    answer to the request with these options, or the value the call threw. *)
Record ICredentialTestFunctions : Type := mkTestContext {
  helpers_request : JsValue -> JsValue + JsValue;
}.

Section Base64.

(** [Buffer.from(text).toString('base64')] of the runtime. *)
Variable base64 : string -> string.

Definition jiraSoftwareApiTest (this : ICredentialTestFunctions) (credential : JsValue)
  : Result JsValue :=
  rbind (prop credential "data") (fun credentials =>
  rbind (prop credentials "email") (fun email =>
  rbind (prop credentials "password") (fun password =>
  rbind (if truthy password then Ok password else prop credentials "apiToken")
    (fun secret =>
  let data := base64 (to_string email ++ ":" ++ to_string secret) in
  rbind (prop credentials "domain") (fun domain =>
  let options :=
    JObj [ ("headers",
            JObj [ ("Authorization", JStr ("Basic " ++ data));
                   ("Accept", JStr "application/json");
                   ("Content-Type", JStr "application/json");
                   ("X-Atlassian-Token", JStr "no-check") ]);
           ("method", JStr "GET");
           ("uri", JStr (to_string domain ++ "/rest/api/2/project"));
           ("qs", JObj [("recent", JNum 0)]);
           ("json", JBool true);
           ("timeout", JNum 5000) ] in
  match helpers_request this options with
  | inl _ =>
      Ok (JObj [ ("status", JStr "OK");
                 ("message", JStr "Authentication successful!") ])
  | inr err =>
      rbind (prop err "message") (fun message =>
        Ok (JObj [ ("status", JStr "Error");
                   ("message",
                    JStr ("Connection details not valid: " ++ to_string message)) ]))
  end))))).

End Base64.

End Methods.

(* ================================================================= *)
(** ** Vocabulary of the properties *)

Import JS Exec Jira.
Local Open Scope exec_scope.

(** What the recipients object holds under [watchers] and [voters], in
    terms of the values it is built from. *)
Definition watchers_as_built (values : JsValue) (recipients : IDataObject) : Prop :=
  obj_has recipients "voters" = false /\
  (truthy values = false -> recipients = []) /\
  (forall assignee watchers voters,
      truthy values = true ->
      prop values "assignee" = Ok assignee ->
      prop values "watchers" = Ok watchers ->
      prop values "voters" = Ok voters ->
      (truthy voters = true -> obj_get recipients "watchers" = voters) /\
      (truthy voters = false -> truthy assignee = true ->
       obj_get recipients "watchers" = watchers) /\
      (truthy voters = false -> truthy assignee = false ->
       obj_has recipients "watchers" = false)).

Definition reading_length_of_undefined : Exception :=
  TypeError "Cannot read properties of undefined (reading 'length')".


(** The [body] property that comment add and update send for a plain
    comment. *)
Definition comment_as_sent (jiraVersion comment : string) : JsValue :=
  if jiraVersion =? "server" then JStr comment else document comment.

(** The property [key] of the body a request carries: [None] when the
    body has no such property. *)
Definition sends (r : Request) (key : string) : option JsValue :=
  match body r with
  | JObj o => if obj_has o key then Some (obj_get o key) else None
  | _ => None
  end.

(** The issue-type lookup of issue create, sent with the query string as it
    stands, and of issue update, sent without one. *)
Definition create_lookup (qs : IDataObject) : Request :=
  mkRequest "/api/2/issuetype" "GET" (JObj []) (JObj qs) JUndefined None JUndefined.

Definition update_lookup : Request :=
  mkRequest "/api/2/issuetype" "GET" (JObj []) JUndefined JUndefined None JUndefined.

(** [v.k1.k2...] on nested plain objects, [undefined] where the path
    leaves them. *)
Definition path (v : JsValue) (keys : list string) : JsValue :=
  fold_left (fun v k => match v with JObj o => obj_get o k | _ => JUndefined end) keys v.

(** [body.fields.parent.key] of a request. *)
Definition parent_key (r : Request) : JsValue :=
  path (body r) ["fields"; "parent"; "key"].

(** The exceptions of the runtime, as opposed to those of the node, of the
    platform and of the network. *)
Definition runtime (e : Exception) : Prop :=
  match e with
  | TypeError _ | OutsideModel _ => True
  | NodeOperationError _ | NodeApiError | ParameterError _ => False
  end.

(** What a failed read of a parameter raises. *)
Definition read_failure (e : Exception) : Prop :=
  match e with
  | ParameterError _ | OutsideModel _ => True
  | NodeOperationError _ | NodeApiError | TypeError _ => False
  end.


(** The one request of a limited search, of a limited changelog and of a
    limited list of comments. *)
Definition search_request (body : IDataObject) (limit : Z) : Request :=
  mkRequest "/api/2/search" "POST" (JObj (obj_set body "maxResults" (JNum limit)))
    JUndefined JUndefined None JUndefined.



Definition attachments_request (issueKey : string) (qs : IDataObject) : Request :=
  mkRequest (issue_path issueKey) "GET" (JObj []) (JObj qs) JUndefined None JUndefined.

(** The properties of [updateFields] that a key of the outbound [fields]
    object is copied from. *)
Definition sources (key : string) : list string :=
  if key =? "summary" then ["summary"]
  else if key =? "issuetype" then ["issueType"]
  else if key =? "labels" then ["labels"; "serverLabels"]
  else if key =? "priority" then ["priority"]
  else if key =? "assignee" then ["assignee"]
  else if key =? "reporter" then ["reporter"]
  else if key =? "description" then ["description"]
  else if key =? "parent" then ["parentIssueKey"]
  else [].

(** An entry of [customFieldsUi.customFieldsValues] that names the field
    [key] and gives it the value [v]. *)
Definition custom_entry (updateFields : IDataObject) (key : string) (v : JsValue) : Prop :=
  exists values value fieldId,
    prop (obj_get updateFields "customFieldsUi") "customFieldsValues" = Ok (JArr values) /\
    In value values /\
    prop value "fieldId" = Ok fieldId /\
    to_string fieldId = key /\
    prop value "fieldValue" = Ok v.

(** A key of the outbound [fields] is present in the input: one of its
    sources holds a value there, or a custom field entry names it. *)
Definition present_in (updateFields : IDataObject) (key : string) : Prop :=
  (exists name, In name (sources key) /\ obj_has updateFields name = true /\
                truthy (obj_get updateFields name) = true) \/
  (exists v, custom_entry updateFields key v).

(** Sparse update: every key of [fields] is present in the input, and a
    key holds [null] only where a custom field entry of the input says
    so. *)
Definition sparse (updateFields fields : IDataObject) : Prop :=
  forall key,
    obj_has fields key = true ->
    present_in updateFields key /\
    (obj_get fields key = JNull -> custom_entry updateFields key JNull).

(** The operations whose round adds one record to [returnData]. *)
Definition one_record_operations : list (string * string) :=
  [ ("issue", "create"); ("issue", "update"); ("issue", "get"); ("issue", "notify");
    ("issue", "delete");
    ("issueAttachment", "remove"); ("issueAttachment", "get");
    ("issueComment", "add"); ("issueComment", "get"); ("issueComment", "remove");
    ("issueComment", "update");
    ("user", "create"); ("user", "delete"); ("user", "get") ].

(** A computation only extends the trace, and every request it adds
    satisfies [P]. *)
Definition sends_only {A} (P : Request -> Prop) (m : M A) : Prop :=
  forall t o t', m t = (o, t') ->
    exists sent, t' = (t ++ sent)%list /\ Forall P sent.

(** The operations that read from Jira. *)
Definition reading_operations : list (string * string) :=
  [ ("issue", "get"); ("issue", "getAll"); ("issue", "changelog");
    ("issue", "transitions");
    ("issueAttachment", "get"); ("issueAttachment", "getAll");
    ("issueComment", "get"); ("issueComment", "getAll");
    ("user", "get") ].

(** A request that reads: a GET, or the POST that carries a search. *)
Definition reads (r : Request) : Prop :=
  method r = "GET" \/ (method r = "POST" /\ endpoint r = "/api/2/search").

(** A request of version 2 of the REST API, or the download of a file from
    the address Jira gave for it. *)
Definition version_2 (r : Request) : Prop :=
  prefix "/api/2/" (endpoint r) = true \/ (endpoint r = "" /\ method r = "GET").

(** Every request of [sent], issued in turn after [t], was answered. *)
Fixpoint answered (this : IExecuteFunctions) (t : Trace) (sent : list Request) : bool :=
  match sent with
  | [] => true
  | r :: rest =>
      match server this t r with
      | Some _ => answered this (t ++ [r])%list rest
      | None => false
      end
  end.

(** The requests [sent] after [t] end at the first one that failed, if one
    did, and the outcome is then the failure of that request. *)
Definition ends_at_failure {A} (this : IExecuteFunctions) (t : Trace)
  (sent : list Request) (outcome : Result A) : Prop :=
  answered this t sent = true \/
  exists init r,
    sent = (init ++ [r])%list /\ answered this t init = true /\
    server this (t ++ init)%list r = None /\ outcome = Err NodeApiError.

Definition stops_at_failure {A} (this : IExecuteFunctions) (m : M A) : Prop :=
  forall t o t', m t = (o, t') ->
    exists sent, t' = (t ++ sent)%list /\ ends_at_failure this t sent o.

(** The request that moves an issue to another status, and the one that
    edits its fields. *)
Definition transition_request (issueKey : string) (statusId : JsValue) : Request :=
  mkRequest (issue_path issueKey ++ "/transitions") "POST"
    (JObj [("transition", JObj [("id", statusId)])]) JUndefined JUndefined None
    JUndefined.

Definition edit_request (issueKey : string) (fields : IDataObject) : Request :=
  mkRequest (issue_path issueKey) "PUT" (JObj [("fields", JObj fields)])
    JUndefined JUndefined None JUndefined.

(** The request that creates an issue. *)
Definition create_request (fields : IDataObject) : Request :=
  mkRequest "/api/2/issue" "POST" (JObj [("fields", JObj fields)])
    JUndefined JUndefined None JUndefined.

(** The value that the entries of [customFieldsValues] give to the field
    [key]: that of the last entry that names it. *)
Fixpoint custom_value (values : list JsValue) (key : string) : option JsValue :=
  match values with
  | [] => None
  | value :: rest =>
      match custom_value rest key with
      | Some v => Some v
      | None =>
          match prop value "fieldId", prop value "fieldValue" with
          | Ok fieldId, Ok fieldValue =>
              if to_string fieldId =? key then Some fieldValue else None
          | _, _ => None
          end
      end
  end.





(** The name of an option of a dropdown, when it is a string; and the
    order of the options by their names. *)
Definition name_of (option : JsValue) : string :=
  match path option ["name"] with
  | JStr s => s
  | _ => ""
  end.

Definition string_named (option : JsValue) : Prop :=
  exists s, path option ["name"] = JStr s.

(** What the comparison of two strings by the runtime is: a strict total
    order. *)
Definition strict_total_order (less_than : string -> string -> bool) : Prop :=
  (forall x, less_than x x = false) /\
  (forall x y z, less_than x y = true -> less_than y z = true -> less_than x z = true) /\
  (forall x y, less_than x y = false -> less_than y x = false -> x = y).

(** [a] does not come after [b]: the name of [b] is not less than that of
    [a]. *)
Definition in_name_order (less_than : string -> string -> bool) (a b : JsValue) : Prop :=
  less_than (name_of b) (name_of a) = false.

Definition named (s : string) (option : JsValue) : bool := name_of option =? s.

(** The lists that end with a sort. *)
Definition sorted_lists (less_than : string -> string -> bool)
  : list (Methods.ILoadOptionsFunctions -> M (list JsValue)) :=
  [ Methods.getProjects less_than; Methods.getIssueTypes less_than;
    Methods.getLabels less_than; Methods.getPriorities less_than;
    Methods.getUsers less_than; Methods.getGroups less_than;
    Methods.getTransitions less_than; Methods.getProjectComponents less_than ].

(** The one request of the list of projects, for a server and for the
    cloud. *)
Definition projects_request (jiraVersion : JsValue) : Request :=
  if Methods.strict_equal jiraVersion (JStr "server") then
    mkRequest "/api/2/project" "GET" JUndefined JUndefined JUndefined None JUndefined
  else
    mkRequest "/api/2/project/search" "GET" JUndefined JUndefined JUndefined
      (Some "values") JUndefined.

(** A field of the create metadata that is a custom field, the option made
    of it, and the options of the custom fields among [fields], in the
    order of its keys. *)
Definition is_custom (field : JsValue) : bool :=
  let schema := path field ["schema"] in
  truthy schema && Methods.has_custom_id schema.

Definition custom_option (field : JsValue) : JsValue :=
  JObj [ ("name", path field ["name"]);
         ("value", if truthy (path field ["key"]) then path field ["key"]
                   else path field ["fieldId"]) ].

Definition custom_options (fields : JsValue) : list JsValue :=
  match fields with
  | JObj o => map custom_option (filter is_custom (map (obj_get o) (map fst o)))
  | _ => []
  end.

(** The requests of the list of custom fields: for the issue, when the
    node does not create one, and for the create metadata. *)
Definition issue_request (issueKey : JsValue) : Request :=
  mkRequest ("/api/2/issue/" ++ to_string issueKey) "GET" (JObj []) (JObj [])
    JUndefined None JUndefined.

Definition createmeta_request (projectId issueTypeId : JsValue) : Request :=
  mkRequest (Methods.createmeta projectId issueTypeId) "GET" JUndefined JUndefined
    JUndefined None JUndefined.

(** The comment of record [i] as the parameters give it: the text of
    [comment], as it is sent for the version, when [jsonParameters] is
    off; what [commentJson] parses to, when [jsonParameters] is on and the
    text is JSON for anything but the empty string. *)
Definition comment_given (JSON_parse : string -> option JsValue)
  (this : IExecuteFunctions) (jiraVersion : string) (i : nat) (v : JsValue) : Prop :=
  (nodeParameter this "jsonParameters" 0 = Some (JBool false) /\
   exists comment,
     nodeParameter this "comment" i = Some (JStr comment) /\
     v = comment_as_sent jiraVersion comment) \/
  (nodeParameter this "jsonParameters" 0 = Some (JBool true) /\
   exists commentJson,
     nodeParameter this "commentJson" i = Some (JStr commentJson) /\
     JSON_parse commentJson = Some v /\ v <> JStr "").

(** The request of issueAttachment add: the file travels as form data. *)
Definition upload_request (jiraVersion issueKey : string) (buffer fileName : JsValue)
  : Request :=
  mkRequest (api jiraVersion ("/issue/" ++ issueKey ++ "/attachments")) "POST"
    (JObj []) (JObj []) JUndefined None (form_data buffer fileName).

(* ================================================================= *)
(** ** Example runs *)

Module Examples.

(** The parameters of a node whose values for input item [i] are the
    properties of the [i]-th object. *)
Definition parameters_of (items : list IDataObject) (name : string) (i : nat)
  : option JsValue :=
  match nth_error items i with
  | Some o => if obj_has o name then Some (obj_get o name) else None
  | None => None
  end.

(** A Jira instance with two issue types, of which one is for sub-tasks,
    two issues, of which a search returns as many as its [maxResults]
    allows, and three attachments on the issue A-1. *)
Definition issueTypes : JsValue :=
  JArr [ JObj [("id", JStr "10001"); ("name", JStr "Task"); ("subtask", JBool false)];
         JObj [("id", JStr "10003"); ("name", JStr "Sub-task"); ("subtask", JBool true)] ].

Definition attachments : list JsValue :=
  [ JObj [("id", JStr "1"); ("filename", JStr "a.txt")];
    JObj [("id", JStr "2"); ("filename", JStr "b.txt")];
    JObj [("id", JStr "3"); ("filename", JStr "c.txt")] ].

Definition found : list JsValue :=
  [ JObj [("key", JStr "A-1")]; JObj [("key", JStr "A-2")] ].

(** The page of [records] that a request asks for. *)
Definition page (r : Request) (records : list JsValue) : list JsValue :=
  match body r with
  | JObj o =>
      match obj_get o "maxResults" with
      | JNum n => firstn (Z.to_nat n) records
      | _ => records
      end
  | _ => records
  end.

Definition answers (history : Trace) (r : Request) : option JsValue :=
  if endpoint r =? "/api/2/issuetype" then Some issueTypes
  else if endpoint r =? "/api/2/search" then
    Some (JObj [("issues", JArr (page r found)); ("total", JNum 2)])
  else if (method r =? "GET") && (endpoint r =? "/api/2/issue/A-1") then
    Some (JObj [("key", JStr "A-1"); ("fields", JObj [("attachment", JArr attachments)])])
  else if method r =? "POST" then Some (JObj [("key", JStr "A-9")])
  else Some (JObj []).

(** The input items of the examples carry no binary data, but where an
    example says so. *)
Definition no_binary (i : nat) : JsValue := JUndefined.

Definition no_buffer (i : nat) (name : string) : Result JsValue :=
  Err (TypeError "Cannot read properties of undefined").

Definition context (items : list IDataObject) : IExecuteFunctions :=
  mkContext (List.length items) (parameters_of items) answers no_binary no_buffer.

(** [x < y] on two strings of ASCII, whose code units are their bytes. *)
Definition less_than : string -> string -> bool := String.ltb.

(** [toUpperCase] on the letters of ASCII, which is what the runtime
    gives for the issue keys of the examples. *)
Definition upper_ascii (c : ascii) : ascii :=
  let n := nat_of_ascii c in
  if (97 <=? n)%nat && (n <=? 122)%nat then ascii_of_nat (n - 32) else c.

Fixpoint upper (s : string) : string :=
  match s with
  | EmptyString => EmptyString
  | String c rest => String (upper_ascii c) (upper rest)
  end.

Definition start : Locals := mkLocals [] [].

Definition node (resource operation : string) (parameters : IDataObject) : IDataObject :=
  (("resource", JStr resource) :: ("operation", JStr operation)
   :: ("jiraVersion", JStr "cloud") :: parameters)%list.

(** Notify, with the recipients chosen in the form. *)
Definition notify_form (recipientsUi restrictionsUi : IDataObject) : IDataObject :=
  node "issue" "notify"
    [ ("issueKey", JStr "A-1");
      ("additionalFields", JObj [("textBody", JStr "look")]);
      ("jsonParameters", JBool false);
      ("notificationRecipientsUi", JObj recipientsUi);
      ("notificationRecipientsRestrictionsUi", JObj restrictionsUi) ].

Definition no_users : IDataObject :=
  [("notificationRecipientsValues", JObj [("reporter", JBool true)])].

Definition no_groups : IDataObject :=
  [("notificationRecipientsRestrictionsValues", JObj [])].

Definition voters_only : IDataObject :=
  [("notificationRecipientsValues",
    JObj [ ("voters", JBool true); ("watchers", JBool false);
           ("users", JArr []); ("groups", JArr []) ])].

(** A comment written as plain text. *)
Definition plain_comment (operation jiraVersion : string) : IDataObject :=
  [ ("resource", JStr "issueComment"); ("operation", JStr operation);
    ("jiraVersion", JStr jiraVersion);
    ("jsonParameters", JBool false);
    ("issueKey", JStr "A-1");
    ("commentId", JStr "7");
    ("options", JObj [("expand", JStr "renderedBody")]);
    ("comment", JStr "done") ].

(** A comment written as raw JSON. *)
Definition json_comment (operation commentJson : string) : IDataObject :=
  [ ("resource", JStr "issueComment"); ("operation", JStr operation);
    ("jiraVersion", JStr "cloud");
    ("jsonParameters", JBool true);
    ("issueKey", JStr "A-1");
    ("commentId", JStr "7");
    ("options", JObj []);
    ("commentJson", JStr commentJson) ].

(** Notify, with the recipients written as raw JSON. *)
Definition notify_json (recipients restrictions : string) : IDataObject :=
  node "issue" "notify"
    [ ("issueKey", JStr "A-1");
      ("additionalFields", JObj [("textBody", JStr "look")]);
      ("jsonParameters", JBool true);
      ("notificationRecipientsJson", JStr recipients);
      ("notificationRecipientsRestrictionsJson", JStr restrictions) ].

(** [{"reporter":true}], with its quotes. *)
Definition reporter_json : string :=
  "{" ++ String Json.quote "reporter" ++ String Json.quote ":true}".

(** Issue create and update for the sub-task type, with and without a
    parent issue key; and a plain task. *)
Definition create_item (issueType : string) (additionalFields : IDataObject) : IDataObject :=
  node "issue" "create"
    [ ("summary", JStr "Fix the login page");
      ("project", JStr "10000");
      ("issueType", JStr issueType);
      ("additionalFields", JObj additionalFields) ].

Definition update_item (updateFields : IDataObject) : IDataObject :=
  node "issue" "update"
    [ ("issueKey", JStr "A-1");
      ("updateFields", JObj updateFields) ].

Definition with_parent : IDataObject := [("parentIssueKey", JStr "proj-12")].

(** A batch of two issues to create: a sub-task without a parent, then a
    plain task. *)
Definition orphan_then_task : list IDataObject :=
  [ create_item "10003" []; create_item "10001" [] ].

(** Two issues to get: the first asks for one field, the second for the
    whole issue. *)
Definition get_item (issueKey : string) (additionalFields : IDataObject) : IDataObject :=
  node "issue" "get"
    [ ("issueKey", JStr issueKey);
      ("additionalFields", JObj additionalFields) ].

Definition summary_then_whole : list IDataObject :=
  [ get_item "A-1" [("fields", JStr "summary")]; get_item "A-2" [] ].

(** A search, and the attachments of an issue, limited to one result. *)
Definition search_item (limit : Z) : IDataObject :=
  node "issue" "getAll"
    [ ("returnAll", JBool false);
      ("options", JObj [("jql", JStr "project = A")]);
      ("limit", JNum limit) ].

Definition attachments_item (limit : Z) : IDataObject :=
  node "issueAttachment" "getAll"
    [ ("download", JBool false);
      ("issueKey", JStr "A-1");
      ("returnAll", JBool false);
      ("limit", JNum limit) ].

(** An update of the summary and of one custom field, set to null. *)
Definition sparse_update : IDataObject :=
  [ ("summary", JStr "New title");
    ("description", JStr "");
    ("customFieldsUi",
     JObj [("customFieldsValues",
            JArr [JObj [("fieldId", JStr "customfield_10010"); ("fieldValue", JNull)]])]) ].

(** The values of an Elasticsearch node that creates a document from the
    input data. *)
Definition auto_mapped : IDataObject :=
  [ ("resource", JStr "document"); ("operation", JStr "create");
    ("indexId", JStr "books"); ("dataToSend", JStr "autoMapInputData");
    ("inputsToIgnore", JStr "") ].

(** A node without input items, and a Jira instance that cannot be
    reached. *)
Definition idle : IExecuteFunctions :=
  mkContext 0 (parameters_of [node "issue" "get" []]) answers no_binary no_buffer.

Definition unreachable (items : list IDataObject) : IExecuteFunctions :=
  mkContext (List.length items) (parameters_of items) (fun _ _ => None)
    no_binary no_buffer.

(** A Jira instance whose paginated listings give the two issues. *)
Definition paging (history : Trace) (r : Request) : option JsValue :=
  match paginated r with
  | Some _ => Some (JArr found)
  | None => answers history r
  end.

Definition paged (items : list IDataObject) : IExecuteFunctions :=
  mkContext (List.length items) (parameters_of items) paging no_binary no_buffer.

(** An update that moves the issue to another status; and one whose
    custom fields name the summary twice. *)
Definition moved : IDataObject :=
  [ ("summary", JStr "New title"); ("statusId", JStr "31") ].

Definition twice : list JsValue :=
  [ JObj [("fieldId", JStr "summary"); ("fieldValue", JStr "first")];
    JObj [("fieldId", JStr "summary"); ("fieldValue", JStr "second")] ].

Definition overridden : IDataObject :=
  [ ("summary", JStr "Title");
    ("customFieldsUi", JObj [("customFieldsValues", JArr twice)]) ].


(** A search for all the issues, and the whole changelog of an issue. *)
Definition search_all : IDataObject :=
  node "issue" "getAll"
    [ ("returnAll", JBool true);
      ("options", JObj [("jql", JStr "project = A")]) ].


(** An input item that carries a file under [data], the record Jira
    answers an upload with, and a node that attaches the file. *)
Definition carried (i : nat) : JsValue :=
  JObj [("data", JObj [ ("fileName", JStr "a.txt");
                        ("mimeType", JStr "text/plain") ])].

Definition bytes (i : nat) (name : string) : Result JsValue := Ok (JStr "contents").

Definition stored : JsValue :=
  JObj [("id", JStr "4"); ("filename", JStr "a.txt")].

Definition storing (history : Trace) (r : Request) : option JsValue :=
  if method r =? "POST" then Some (JArr [stored]) else answers history r.

Definition upload (binaryPropertyName : string) : IDataObject :=
  node "issueAttachment" "add"
    [ ("binaryPropertyName", JStr binaryPropertyName); ("issueKey", JStr "A-1") ].

Definition uploading (items : list IDataObject) : IExecuteFunctions :=
  mkContext (List.length items) (parameters_of items) storing carried bytes.

(** The node as it is being edited, and a Jira instance that lists three
    projects under [values] and describes the fields of one issue type. *)
Definition editing (parameters : IDataObject) (server : Trace -> Request -> option JsValue)
  : Methods.ILoadOptionsFunctions :=
  Methods.mkLoadContext (obj_get parameters) server.

Definition projects : list JsValue :=
  [ JObj [("id", JStr "10001"); ("name", JStr "Beta")];
    JObj [("id", JStr "10000"); ("name", JStr "Alpha")];
    JObj [("id", JStr "10002"); ("name", JStr "Beta")] ].

Definition metadata : JsValue :=
  JObj [("projects", JArr [
     JObj [ ("id", JStr "10000");
            ("issuetypes", JArr [
               JObj [ ("id", JStr "10001");
                      ("fields", JObj [
                         ("summary",
                          JObj [ ("name", JStr "Summary"); ("key", JStr "summary");
                                 ("schema", JObj [("type", JStr "string")]) ]);
                         ("customfield_10010",
                          JObj [ ("name", JStr "Team");
                                 ("key", JStr "customfield_10010");
                                 ("schema", JObj [ ("type", JStr "string");
                                                   ("customId", JNum 10010) ]) ]) ]) ] ]) ] ])].

Definition describing (history : Trace) (r : Request) : option JsValue :=
  if endpoint r =? "/api/2/project" then Some (JObj [("values", JArr projects)])
  else if endpoint r =? "/api/2/project/search" then Some (JArr projects)
  else Some metadata.

Definition creating : IDataObject :=
  [ ("jiraVersion", JStr "server"); ("operation", JStr "create");
    ("project", JStr "10000"); ("issueType", JStr "10001") ].

(** A credential, a Jira instance that refuses it, and an encoding that
    leaves the text as it is. *)
Definition credential : JsValue :=
  JObj [("data", JObj [ ("email", JStr "me@example.com");
                        ("apiToken", JStr "secret");
                        ("domain", JStr "https://jira.example") ])].

Definition refusing : Methods.ICredentialTestFunctions :=
  Methods.mkTestContext (fun _ => inr (JObj [("message", JStr "401")])).

Definition unencoded (text : string) : string := text.

End Examples.
(* ================================================================= *)
(** ** Properties *)

(** *** Objects *)

Lemma obj_get_set_same (o : IDataObject) (k : string) (v : JsValue) :
  obj_get (obj_set o k v) k = v.
Proof.
  induction o as [|[k' v'] o IH]; simpl.
  - now rewrite String.eqb_refl.
  - destruct (k' =? k) eqn:E; simpl.
    + now rewrite String.eqb_refl.
    + now rewrite E.
Qed.

Lemma obj_get_set_other (o : IDataObject) (k k' : string) (v : JsValue) :
  k <> k' -> obj_get (obj_set o k v) k' = obj_get o k'.
Proof.
  intros Hne. induction o as [|[k0 v0] o IH]; simpl.
  - destruct (String.eqb_spec k k'); [contradiction | reflexivity].
  - destruct (String.eqb_spec k0 k) as [->|Hk]; simpl.
    + destruct (String.eqb_spec k k'); [contradiction | reflexivity].
    + destruct (k0 =? k'); [reflexivity | exact IH].
Qed.

Lemma obj_has_set (o : IDataObject) (k k' : string) (v : JsValue) :
  obj_has (obj_set o k v) k' = (k =? k') || obj_has o k'.
Proof.
  induction o as [|[k0 v0] o IH]; simpl.
  - reflexivity.
  - destruct (String.eqb_spec k0 k) as [->|Hk]; simpl.
    + now rewrite orb_assoc, orb_diag.
    + rewrite IH. now rewrite !orb_assoc, (orb_comm (k0 =? k')).
Qed.

Lemma obj_get_absent (o : IDataObject) (k : string) :
  obj_has o k = false -> obj_get o k = JUndefined.
Proof.
  induction o as [|[k0 v0] o IH]; simpl; [reflexivity|].
  destruct (k0 =? k); simpl; [discriminate | exact IH].
Qed.

Lemma truthy_present (o : IDataObject) (k : string) :
  truthy (obj_get o k) = true -> obj_has o k = true.
Proof.
  intros H. destruct (obj_has o k) eqn:E; [reflexivity|].
  now rewrite (obj_get_absent _ _ E) in H.
Qed.

Lemma obj_has_assign_if (c : bool) (o : IDataObject) (k k' : string) (v : JsValue) :
  obj_has (assign_if c o k v) k' = (c && (k =? k')) || obj_has o k'.
Proof.
  destruct c; simpl; [apply obj_has_set | reflexivity].
Qed.

(** *** The recipients of a notification *)

Lemma obj_has_assign_mapped (values : JsValue) (name key : string)
  (o o' : IDataObject) (k : string) :
  assign_mapped values name key o = Ok o' ->
  name <> k -> obj_has o' k = obj_has o k.
Proof.
  unfold assign_mapped, rbind. intros H Hk.
  destruct (prop values name) as [list|]; [|discriminate].
  destruct (prop list "length") as [len|]; [|discriminate].
  destruct (gt_zero len) as [[|]|]; try discriminate.
  - destruct (call_map list _) as [mapped|]; [|discriminate].
    injection H as <-. rewrite obj_has_set.
    destruct (String.eqb_spec name k); [contradiction | reflexivity].
  - now injection H as <-.
Qed.

Lemma obj_get_assign_mapped (values : JsValue) (name key : string)
  (o o' : IDataObject) (k : string) :
  assign_mapped values name key o = Ok o' ->
  name <> k -> obj_get o' k = obj_get o k.
Proof.
  unfold assign_mapped, rbind. intros H Hk.
  destruct (prop values name) as [list|]; [|discriminate].
  destruct (prop list "length") as [len|]; [|discriminate].
  destruct (gt_zero len) as [[|]|]; try discriminate.
  - destruct (call_map list _) as [mapped|]; [|discriminate].
    injection H as <-. now apply obj_get_set_other.
  - now injection H as <-.
Qed.

Lemma notificationRecipients_watchers (values : JsValue) (recipients : IDataObject) :
  notificationRecipients values = Ok recipients ->
  watchers_as_built values recipients.
Proof.
  unfold notificationRecipients. intros H.
  destruct (truthy values) eqn:Hv.
  2:{ injection H as <-. repeat split; intros; try reflexivity; congruence. }
  unfold rbind in H.
  destruct (prop values "reporter") as [reporter|]; [|discriminate].
  destruct (prop values "assignee") as [assignee|] eqn:Ea; [|discriminate].
  destruct (prop values "watchers") as [watchers|] eqn:Ew; [|discriminate].
  destruct (prop values "voters") as [voters|] eqn:Eo; [|discriminate].
  destruct (assign_mapped values "users" "accountId" _) as [withUsers|] eqn:Hu;
    [|discriminate].
  assert (Hhas : forall k, "users" <> k -> "groups" <> k ->
            obj_has recipients k =
            obj_has (assign_if (truthy voters)
                       (assign_if (truthy assignee)
                          (assign_if (truthy assignee)
                             (assign_if (truthy reporter) [] "reporter" reporter)
                             "assignee" assignee) "watchers" watchers)
                       "watchers" voters) k).
  { intros k Hk1 Hk2.
    rewrite (obj_has_assign_mapped _ _ _ _ _ k H Hk2).
    apply (obj_has_assign_mapped _ _ _ _ _ k Hu Hk1). }
  assert (Hget : forall k, "users" <> k -> "groups" <> k ->
            obj_get recipients k =
            obj_get (assign_if (truthy voters)
                       (assign_if (truthy assignee)
                          (assign_if (truthy assignee)
                             (assign_if (truthy reporter) [] "reporter" reporter)
                             "assignee" assignee) "watchers" watchers)
                       "watchers" voters) k).
  { intros k Hk1 Hk2.
    rewrite (obj_get_assign_mapped _ _ _ _ _ k H Hk2).
    apply (obj_get_assign_mapped _ _ _ _ _ k Hu Hk1). }
  split; [|split].
  - rewrite Hhas by discriminate.
    rewrite !obj_has_assign_if. simpl. now rewrite !andb_false_r.
  - congruence.
  - intros a w v _ Ha Hw Hvo.
    assert (a = assignee) as -> by congruence.
    assert (w = watchers) as -> by congruence.
    assert (v = voters) as -> by congruence.
    repeat split.
    + intros Ht. rewrite Hget by discriminate. rewrite Ht. simpl.
      apply obj_get_set_same.
    + intros Hf Ht. rewrite Hget by discriminate. rewrite Hf, Ht. simpl.
      apply obj_get_set_same.
    + intros Hf Ht. rewrite Hhas by discriminate. rewrite Hf, Ht. simpl.
      destruct (truthy reporter); reflexivity.
Qed.

(** *** Running a computation step by step *)

Lemma bind_ok {A B} (m : M A) (k : A -> M B) (t t' : Trace) (a : A) :
  m t = (Ok a, t') -> bind m k t = k a t'.
Proof. unfold bind. now intros ->. Qed.

Lemma bind_err {A B} (m : M A) (k : A -> M B) (t t' : Trace) (e : Exception) :
  m t = (Err e, t') -> bind m k t = (Err e, t').
Proof. unfold bind. now intros ->. Qed.

Lemma lift_ok {A} (r : Result A) (a : A) (t : Trace) :
  r = Ok a -> lift r t = (Ok a, t).
Proof. now intros ->. Qed.

Lemma lift_err {A} (r : Result A) (e : Exception) (t : Trace) :
  r = Err e -> lift r t = (Err e, t).
Proof. now intros ->. Qed.

Lemma getNodeParameter_ok this name i v t :
  nodeParameter this name i = Some v -> getNodeParameter this name i t = (Ok v, t).
Proof. unfold getNodeParameter. now intros ->. Qed.

Lemma getString_ok this name i s t :
  nodeParameter this name i = Some (JStr s) -> getString this name i t = (Ok s, t).
Proof. unfold getString, getNodeParameter, bind. now intros ->. Qed.

Lemma getBoolean_ok this name i b t :
  nodeParameter this name i = Some (JBool b) -> getBoolean this name i t = (Ok b, t).
Proof. unfold getBoolean, getNodeParameter, bind. now intros ->. Qed.

Lemma getNumber_ok this name i n t :
  nodeParameter this name i = Some (JNum n) -> getNumber this name i t = (Ok n, t).
Proof. unfold getNumber, getNodeParameter, bind. now intros ->. Qed.

Lemma getObject_ok this name i o t :
  nodeParameter this name i = Some (JObj o) -> getObject this name i t = (Ok o, t).
Proof. unfold getObject, getNodeParameter, bind. now intros ->. Qed.

Lemma send_ok this r t v :
  server this t r = Some v -> send this r t = (Ok v, (t ++ [r])%list).
Proof. unfold send. now intros ->. Qed.

Lemma send_err this r t :
  server this t r = None -> send this r t = (Err NodeApiError, (t ++ [r])%list).
Proof. unfold send. now intros ->. Qed.

Create HintDb exec discriminated.
#[export] Hint Resolve getNodeParameter_ok getString_ok getBoolean_ok getNumber_ok
  getObject_ok lift_ok lift_err send_ok send_err : exec.

(** One step of a run whose first action is known to succeed, or to
    fail. *)
Ltac step :=
  first [ erewrite bind_ok by eauto with exec
        | erewrite bind_err by eauto with exec ].

Ltac steps := repeat step.

(** *** Reading a run backwards *)

Lemma bind_inv {A B} (m : M A) (k : A -> M B) (t t' : Trace) (o : Result B) :
  bind m k t = (o, t') ->
  (exists a t1, m t = (Ok a, t1) /\ k a t1 = (o, t')) \/
  (exists e, m t = (Err e, t') /\ o = Err e).
Proof.
  unfold bind. destruct (m t) as [[a|e] t1]; intros H.
  - left. now exists a, t1.
  - right. injection H as <- <-. now exists e.
Qed.

Lemma lift_inv {A} (r o : Result A) (t t' : Trace) :
  lift r t = (o, t') -> o = r /\ t' = t.
Proof. unfold lift. now intros [= <- <-]. Qed.

Lemma ret_inv {A} (a : A) (o : Result A) (t t' : Trace) :
  ret a t = (o, t') -> o = Ok a /\ t' = t.
Proof. unfold ret. now intros [= <- <-]. Qed.

Lemma send_inv this r t o t' :
  send this r t = (o, t') -> t' = (t ++ [r])%list.
Proof. unfold send. destruct (server this t r); now intros [= <- <-]. Qed.

(** A read of a parameter leaves the trace as it is, and gives the value
    of the parameter when it succeeds. *)
Lemma getString_inv this name i t o t' :
  getString this name i t = (o, t') ->
  t' = t /\ forall s, o = Ok s -> nodeParameter this name i = Some (JStr s).
Proof.
  unfold getString, getNodeParameter, bind.
  destruct (nodeParameter this name i) as [[]|]; simpl; intros [= <- <-];
    (split; [reflexivity | intros ? [=]; congruence]).
Qed.

Lemma getBoolean_inv this name i t o t' :
  getBoolean this name i t = (o, t') ->
  t' = t /\ forall b, o = Ok b -> nodeParameter this name i = Some (JBool b).
Proof.
  unfold getBoolean, getNodeParameter, bind.
  destruct (nodeParameter this name i) as [[]|]; simpl; intros [= <- <-];
    (split; [reflexivity | intros ? [=]; congruence]).
Qed.

Lemma getObject_inv this name i t o t' :
  getObject this name i t = (o, t') ->
  t' = t /\ forall x, o = Ok x -> nodeParameter this name i = Some (JObj x).
Proof.
  unfold getObject, getNodeParameter, bind.
  destruct (nodeParameter this name i) as [[]|]; simpl; intros [= <- <-];
    (split; [reflexivity | intros ? [=]; congruence]).
Qed.

(** Split a run at its first action: either the action succeeded and the
    run goes on, or it failed and the run ends with its exception. *)
Tactic Notation "split_bind" hyp(H) ident(a) ident(t1) ident(Hfirst) :=
  apply bind_inv in H;
  destruct H as [(a & t1 & Hfirst & H) | (? & Hfirst & H)];
  [ | first [ injection H as <-
            | match type of H with ?o = _ => subst o end
            | idtac ] ].

(** *** C10 *)

Lemma send_then_ret {A} this r t (f : JsValue -> A) :
  exists outcome,
    bind (send this r) (fun x => ret (f x)) t = (outcome, (t ++ [r])%list).
Proof.
  unfold bind, send, ret. destruct (server this t r); eauto.
Qed.

(** The last request of a round: whatever the answer, the round does not
    end in an error of the node's own. *)
Lemma send_last {A} this r t (f : JsValue -> A) :
  exists outcome,
    bind (send this r) (fun x => ret (f x)) t = (outcome, (t ++ [r])%list) /\
    (forall message, outcome <> Err (NodeOperationError message)) /\
    (outcome = Err NodeApiError \/ exists a, outcome = Ok a).
Proof.
  unfold bind, send, ret. destruct (server this t r).
  - eexists. split; [reflexivity|]. split; [discriminate | eauto].
  - eexists. split; [reflexivity|]. split; [discriminate | eauto].
Qed.

(** C10.  Issue notify with [jsonParameters = false]: when the recipients
    object is present but has no [users] property, or the restrictions
    object is present but has no [groups] property, the round stops with
    the runtime's TypeError for reading [length] of [undefined], which is
    not a [NodeOperationError], and the trace is unchanged: the notify POST
    was not issued. *)
Theorem notify_missing_list_is_a_type_error :
  forall JSON_parse this i l t issueKey additionalFields recipientsUi,
    nodeParameter this "issueKey" i = Some (JStr issueKey) ->
    nodeParameter this "additionalFields" i = Some (JObj additionalFields) ->
    nodeParameter this "jsonParameters" 0 = Some (JBool false) ->
    nodeParameter this "notificationRecipientsUi" i = Some (JObj recipientsUi) ->
    (forall values,
        obj_get recipientsUi "notificationRecipientsValues" = JObj values ->
        obj_has values "users" = false ->
        issue_notify JSON_parse this i l t = (Err reading_length_of_undefined, t)) /\
    (forall recipients restrictionsUi values,
        notificationRecipients (obj_get recipientsUi "notificationRecipientsValues")
          = Ok recipients ->
        nodeParameter this "notificationRecipientsRestrictionsUi" i
          = Some (JObj restrictionsUi) ->
        obj_get restrictionsUi "notificationRecipientsRestrictionsValues" = JObj values ->
        obj_has values "groups" = false ->
        issue_notify JSON_parse this i l t = (Err reading_length_of_undefined, t)) /\
    (forall message, reading_length_of_undefined <> NodeOperationError message).
Proof.
  intros parse this i l t issueKey af ui Hk Haf Hj Hui.
  split; [|split].
  - intros values Hvalues Husers.
    unfold issue_notify. steps. simpl negb. cbv iota.
    apply bind_err. step. apply bind_err, lift_err.
    rewrite Hvalues. unfold notificationRecipients, assign_mapped. simpl.
    now rewrite (obj_get_absent _ _ Husers).
  - intros recipients rui values Hrec Hrui Hvalues Hgroups.
    unfold issue_notify. steps. simpl negb. cbv iota.
    apply bind_err. steps. apply bind_err, lift_err.
    rewrite Hvalues. unfold notificationRecipientsRestrictions, assign_mapped. simpl.
    now rewrite (obj_get_absent _ _ Hgroups).
  - discriminate.
Qed.

Lemma notify_missing_list_witness :
  issue_notify Json.parse (Examples.context [Examples.notify_form Examples.no_users []])
    0 Examples.start [] = (Err reading_length_of_undefined, []) /\
  issue_notify Json.parse (Examples.context [Examples.notify_form [] Examples.no_groups])
    0 Examples.start [] = (Err reading_length_of_undefined, []).
Proof.
  split.
  - apply (proj1 (notify_missing_list_is_a_type_error Json.parse
                    (Examples.context [Examples.notify_form Examples.no_users []])
                    0 Examples.start [] "A-1" [("textBody", JStr "look")]
                    Examples.no_users eq_refl eq_refl eq_refl eq_refl)
             [("reporter", JBool true)]); reflexivity.
  - apply (proj1 (proj2 (notify_missing_list_is_a_type_error Json.parse
                    (Examples.context [Examples.notify_form [] Examples.no_groups])
                    0 Examples.start [] "A-1" [("textBody", JStr "look")]
                    [] eq_refl eq_refl eq_refl eq_refl))
             [] Examples.no_groups []); reflexivity.
Defined.

(** *** C9 *)

(** C9.  Issue notify with [jsonParameters = false], when the recipients
    and the restrictions are built from the form: the round sends one
    POST, to the notify address of the issue, whose [to] is the recipients
    object.  That object never has a [voters] key; its [watchers] key is
    the input's [voters] value when that is truthy, else the input's
    [watchers] value when the input's [assignee] is truthy, and is absent
    otherwise. *)
Theorem notify_recipients_have_no_voters :
  forall JSON_parse this i l t issueKey additionalFields recipientsUi restrictionsUi
         recipients restrictions,
    nodeParameter this "issueKey" i = Some (JStr issueKey) ->
    nodeParameter this "additionalFields" i = Some (JObj additionalFields) ->
    nodeParameter this "jsonParameters" 0 = Some (JBool false) ->
    nodeParameter this "notificationRecipientsUi" i = Some (JObj recipientsUi) ->
    nodeParameter this "notificationRecipientsRestrictionsUi" i
      = Some (JObj restrictionsUi) ->
    notificationRecipients (obj_get recipientsUi "notificationRecipientsValues")
      = Ok recipients ->
    notificationRecipientsRestrictions
      (obj_get restrictionsUi "notificationRecipientsRestrictionsValues")
      = Ok restrictions ->
    watchers_as_built (obj_get recipientsUi "notificationRecipientsValues") recipients /\
    exists outcome r,
      issue_notify JSON_parse this i l t = (outcome, (t ++ [r])%list) /\
      method r = "POST" /\ endpoint r = issue_path issueKey ++ "/notify" /\
      sends r "to" = Some (JObj recipients) /\
      (outcome = Err NodeApiError \/ exists a, outcome = Ok a).
Proof.
  intros parse this i l t issueKey af ui rui recipients restrictions
    Hk Haf Hj Hui Hrui Hto Hrestrict.
  split; [now apply notificationRecipients_watchers|].
  unfold issue_notify. steps. simpl negb. cbv iota.
  erewrite bind_ok by (steps; reflexivity).
  unfold jiraSoftwareCloudApiRequest.
  match goal with
  | |- context [bind (send this ?r) (fun x => ret (@?f x)) t] =>
      destruct (send_last this r t f) as (outcome & Hrun & _ & Hend);
        exists outcome, r
  end.
  split; [exact Hrun|]. split; [reflexivity|]. split; [reflexivity|].
  split; [|exact Hend].
  unfold sends. simpl body. cbv beta iota.
  rewrite obj_has_set, obj_has_set, String.eqb_refl, orb_true_r.
  rewrite obj_get_set_other by discriminate. now rewrite obj_get_set_same.
Qed.

Lemma notify_recipients_witness :
  let this := Examples.context [Examples.notify_form Examples.voters_only []] in
  exists outcome r,
    issue_notify Json.parse this 0 Examples.start [] = (outcome, [r]) /\
    method r = "POST" /\ endpoint r = "/api/2/issue/A-1/notify" /\
    sends r "to" = Some (JObj [("watchers", JBool true)]) /\
    (outcome = Err NodeApiError \/ exists a, outcome = Ok a).
Proof.
  intros this.
  exact (proj2 (notify_recipients_have_no_voters Json.parse this 0 Examples.start []
                  "A-1" [("textBody", JStr "look")] Examples.voters_only []
                  [("watchers", JBool true)] []
                  eq_refl eq_refl eq_refl eq_refl eq_refl eq_refl eq_refl)).
Defined.

(** The run of the example: the [voters] flag leaves under [watchers]. *)
Example notify_voters_run :
  snd (issue_notify Json.parse
         (Examples.context [Examples.notify_form Examples.voters_only []])
         0 Examples.start [])
  = [ mkRequest "/api/2/issue/A-1/notify" "POST"
        (JObj [ ("textBody", JStr "look");
                ("to", JObj [("watchers", JBool true)]);
                ("restrict", JObj []) ])
        (JObj []) JUndefined None JUndefined ].
Proof. reflexivity. Qed.

(** *** C7 *)

Lemma comment_body_plain JSON_parse this jiraVersion i body0 t comment :
  nodeParameter this "comment" i = Some (JStr comment) ->
  comment_body JSON_parse this jiraVersion false i body0 t
  = (Ok (obj_set body0 "body" (comment_as_sent jiraVersion comment)), t).
Proof.
  intros Hc. unfold comment_body, comment_as_sent.
  change (Bool.eqb false false) with true. cbv iota.
  step. now destruct (jiraVersion =? "server").
Qed.

(** C7.  Comment add and update with [jsonParameters = false] send one
    request whose [body] property is, for jiraVersion 'cloud', the envelope
    [{type: 'doc', version: 1, content: [{type: 'paragraph', content:
    [{type: 'text', text: comment}]}]}], and for jiraVersion 'server' the
    comment string itself. *)
Theorem comment_plain_text_is_wrapped_for_cloud :
  forall JSON_parse this jiraVersion i l t issueKey options comment,
    nodeParameter this "jsonParameters" 0 = Some (JBool false) ->
    nodeParameter this "issueKey" i = Some (JStr issueKey) ->
    nodeParameter this "options" i = Some (JObj options) ->
    nodeParameter this "comment" i = Some (JStr comment) ->
    (exists outcome r,
        comment_add JSON_parse this jiraVersion i l t = (outcome, (t ++ [r])%list) /\
        method r = "POST" /\
        prop (body r) "body" = Ok (comment_as_sent jiraVersion comment)) /\
    (forall commentId,
        nodeParameter this "commentId" i = Some (JStr commentId) ->
        exists outcome r,
          comment_update JSON_parse this jiraVersion i l t = (outcome, (t ++ [r])%list) /\
          method r = "PUT" /\
          prop (body r) "body" = Ok (comment_as_sent jiraVersion comment)) /\
    comment_as_sent "server" comment = JStr comment /\
    comment_as_sent "cloud" comment =
      JObj [ ("type", JStr "doc");
             ("version", JNum 1);
             ("content", JArr [
                JObj [ ("type", JStr "paragraph");
                       ("content", JArr [
                          JObj [ ("type", JStr "text");
                                 ("text", JStr comment) ] ]) ] ]) ].
Proof.
  intros parse this jv i l t issueKey options comment Hj Hk Ho Hc.
  split; [|split; [|split; reflexivity]].
  - unfold comment_add. steps.
    erewrite bind_ok by (apply comment_body_plain; exact Hc).
    unfold jiraSoftwareCloudApiRequest.
    match goal with
    | |- context [bind (send this ?r) (fun x => ret (@?f x)) t] =>
        destruct (send_then_ret this r t f) as [outcome Hrun]; exists outcome, r
    end.
    split; [exact Hrun|]. split; [reflexivity|].
    simpl. now rewrite obj_get_set_same.
  - intros commentId Hid. unfold comment_update. steps.
    erewrite bind_ok by (apply comment_body_plain; exact Hc).
    unfold jiraSoftwareCloudApiRequest.
    match goal with
    | |- context [bind (send this ?r) (fun x => ret (@?f x)) t] =>
        destruct (send_then_ret this r t f) as [outcome Hrun]; exists outcome, r
    end.
    split; [exact Hrun|]. split; [reflexivity|].
    simpl. now rewrite ?obj_get_set_same.
Qed.

Lemma comment_plain_text_witness :
  exists outcome r,
    comment_add Json.parse (Examples.context [Examples.plain_comment "add" "cloud"])
      "cloud" 0 Examples.start [] = (outcome, [r]) /\
    method r = "POST" /\
    prop (body r) "body" = Ok (document "done").
Proof.
  exact (proj1 (comment_plain_text_is_wrapped_for_cloud Json.parse
                  (Examples.context [Examples.plain_comment "add" "cloud"])
                  "cloud" 0 Examples.start [] "A-1" [("expand", JStr "renderedBody")]
                  "done" eq_refl eq_refl eq_refl eq_refl)).
Defined.

(** *** C3 *)

Lemma comment_body_invalid JSON_parse this jiraVersion i body0 t commentJson :
  nodeParameter this "commentJson" i = Some (JStr commentJson) ->
  JSON_parse commentJson = None ->
  comment_body JSON_parse this jiraVersion true i body0 t
  = (Err (NodeOperationError invalid_document), t).
Proof.
  intros Hc Hp. unfold comment_body.
  change (Bool.eqb true false) with false. cbv iota.
  step. unfold validateJSON. now rewrite Hp.
Qed.

Lemma comment_body_valid JSON_parse this jiraVersion i body0 t commentJson json :
  nodeParameter this "commentJson" i = Some (JStr commentJson) ->
  JSON_parse commentJson = Some json ->
  json <> JStr "" ->
  comment_body JSON_parse this jiraVersion true i body0 t
  = (Ok (obj_set body0 "body" json), t).
Proof.
  intros Hc Hp Hne. unfold comment_body.
  change (Bool.eqb true false) with false. cbv iota.
  step. unfold validateJSON. rewrite Hp.
  destruct (is_empty_string json) eqn:E; [|reflexivity].
  destruct json; try discriminate. simpl in E.
  apply String.eqb_eq in E. now subst.
Qed.

Lemma obj_get_assign_if (c : bool) (o : IDataObject) (k k' : string) (v : JsValue) :
  obj_get (assign_if c o k v) k' = if c && (k =? k') then v else obj_get o k'.
Proof.
  destruct c; simpl; [|reflexivity].
  destruct (String.eqb_spec k k') as [->|Hne].
  - apply obj_get_set_same.
  - now apply obj_get_set_other.
Qed.

Lemma sends_set e m o k v q u p ro :
  sends (mkRequest e m (JObj (obj_set o k v)) q u p ro) k = Some v.
Proof.
  unfold sends. simpl. rewrite obj_has_set, String.eqb_refl. simpl.
  now rewrite obj_get_set_same.
Qed.

(** C3 fails on the code for issue notify.  For a text that is not JSON,
    comment add in raw-JSON mode stops with the validation error and sends
    nothing, as the claim says; issue notify in raw-JSON mode, given the
    same text as its recipients, raises no validation error: its POST goes
    out, without a [to]. *)
Theorem notify_sends_what_comments_reject :
  forall JSON_parse text,
    JSON_parse text = None ->
    (forall this jiraVersion i l t issueKey options,
        nodeParameter this "jsonParameters" 0 = Some (JBool true) ->
        nodeParameter this "issueKey" i = Some (JStr issueKey) ->
        nodeParameter this "options" i = Some (JObj options) ->
        nodeParameter this "commentJson" i = Some (JStr text) ->
        comment_add JSON_parse this jiraVersion i l t
        = (Err (NodeOperationError invalid_document), t)) /\
    (forall this i l t issueKey additionalFields restrictionsText,
        nodeParameter this "issueKey" i = Some (JStr issueKey) ->
        nodeParameter this "additionalFields" i = Some (JObj additionalFields) ->
        nodeParameter this "jsonParameters" 0 = Some (JBool true) ->
        nodeParameter this "notificationRecipientsJson" i = Some (JStr text) ->
        nodeParameter this "notificationRecipientsRestrictionsJson" i
          = Some (JStr restrictionsText) ->
        exists outcome r,
          issue_notify JSON_parse this i l t = (outcome, (t ++ [r])%list) /\
          method r = "POST" /\ endpoint r = issue_path issueKey ++ "/notify" /\
          sends r "to" = None /\
          (outcome = Err NodeApiError \/ exists a, outcome = Ok a)).
Proof.
  intros parse text Hp. split.
  - intros this jv i l t issueKey options Hj Hk Ho Hc.
    unfold comment_add. steps.
    apply bind_err. now apply comment_body_invalid with (commentJson := text).
  - intros this i l t issueKey af s2 Hk Haf Hj H1 H2.
    unfold issue_notify. steps. simpl negb. cbv iota.
    erewrite bind_ok by (steps; reflexivity).
    unfold jiraSoftwareCloudApiRequest.
    match goal with
    | |- context [bind (send this ?r) (fun x => ret (@?f x)) t] =>
        destruct (send_last this r t f) as (outcome & Hrun & _ & Hend);
          exists outcome, r
    end.
    split; [exact Hrun|]. split; [reflexivity|]. split; [reflexivity|].
    split; [|exact Hend].
    unfold sends. simpl body. cbv beta iota.
    rewrite !obj_has_assign_if, !obj_get_assign_if. simpl.
    rewrite !andb_false_r, !andb_true_r, !orb_false_r.
    unfold validateJSON. rewrite Hp. simpl. reflexivity.
Qed.

Lemma notify_sends_what_comments_reject_witness :
  comment_add Json.parse (Examples.context [Examples.json_comment "add" "{oops"])
    "cloud" 0 Examples.start []
  = (Err (NodeOperationError invalid_document), []) /\
  exists outcome r,
    issue_notify Json.parse (Examples.context [Examples.notify_json "{oops" ""])
      0 Examples.start [] = (outcome, [r]) /\
    method r = "POST" /\ endpoint r = "/api/2/issue/A-1/notify" /\
    sends r "to" = None /\
    (outcome = Err NodeApiError \/ exists a, outcome = Ok a).
Proof.
  split.
  - exact (proj1 (notify_sends_what_comments_reject Json.parse "{oops" eq_refl)
             (Examples.context [Examples.json_comment "add" "{oops"])
             "cloud" 0 Examples.start [] "A-1" [] eq_refl eq_refl eq_refl eq_refl).
  - exact (proj2 (notify_sends_what_comments_reject Json.parse "{oops" eq_refl)
             (Examples.context [Examples.notify_json "{oops" ""])
             0 Examples.start [] "A-1" [("textBody", JStr "look")] ""
             eq_refl eq_refl eq_refl eq_refl eq_refl).
Defined.

(** The runs of the example: the comment ends [execute] with the error and
    an empty trace; the notification is sent and [execute] returns. *)
Example malformed_json_runs :
  Json.parse "{oops" = None /\
  run Examples.upper Json.parse (Examples.context [Examples.json_comment "add" "{oops"])
  = (Err (NodeOperationError invalid_document), []) /\
  run Examples.upper Json.parse (Examples.context [Examples.notify_json "{oops" ""])
  = (Ok [JObj [("key", JStr "A-9")]],
     [mkRequest "/api/2/issue/A-1/notify" "POST"
        (JObj [("textBody", JStr "look")]) (JObj []) JUndefined None JUndefined]).
Proof. repeat split; reflexivity. Qed.

(** *** C1 *)

Lemma ret_ok {A} (a : A) (t : Trace) : ret a t = (Ok a, t).
Proof. reflexivity. Qed.

#[export] Hint Resolve ret_ok : exec.

Lemma check_parent_missing toUpperCase source issueType subtaskIssues fields :
  truthy (obj_get source "parentIssueKey") = false ->
  includes subtaskIssues issueType = true ->
  check_parent toUpperCase source issueType subtaskIssues fields
  = Err (NodeOperationError parent_missing).
Proof. unfold check_parent. now intros -> ->. Qed.

Lemma check_parent_upper toUpperCase source issueType subtaskIssues fields key :
  obj_get source "parentIssueKey" = JStr key -> key <> "" ->
  includes subtaskIssues issueType = true ->
  check_parent toUpperCase source issueType subtaskIssues fields
  = Ok (obj_set fields "parent" (JObj [("key", JStr (toUpperCase key))])).
Proof.
  unfold check_parent. intros -> Hne ->. simpl.
  destruct (String.eqb_spec key ""); [contradiction | reflexivity].
Qed.

Lemma parent_key_set e m fields v q u p ro :
  parent_key (mkRequest e m
                (JObj [("fields", JObj (obj_set fields "parent" (JObj [("key", v)])))])
                q u p ro) = v.
Proof.
  unfold parent_key, path. simpl. now rewrite obj_get_set_same.
Qed.

Lemma issue_create_parent_missing toUpperCase this jiraVersion i l t summary projectId
  issueTypeId   additionalFields fields qs' issueTypes subtaskIssues :
  nodeParameter this "summary" i = Some (JStr summary) ->
  nodeParameter this "project" i = Some (JStr projectId) ->
  nodeParameter this "issueType" i = Some (JStr issueTypeId) ->
  nodeParameter this "additionalFields" i = Some (JObj additionalFields) ->
  create_fields jiraVersion summary projectId issueTypeId additionalFields (qs l)
    = Ok (fields, qs') ->
  server this t (create_lookup qs') = Some issueTypes ->
  subtask_ids issueTypes = Ok subtaskIssues ->
  includes subtaskIssues (JStr issueTypeId) = true ->
  truthy (obj_get additionalFields "parentIssueKey") = false ->
  issue_create toUpperCase this jiraVersion i l t
  = (Err (NodeOperationError parent_missing), (t ++ [create_lookup qs'])%list).
Proof.
  intros Hs Hp Ht Ha Hf Hl Hids Hin Hno.
  unfold issue_create. steps. unfold jiraSoftwareCloudApiRequest. steps.
  apply bind_err. apply lift_err. apply check_parent_missing; assumption.
Qed.

Lemma issue_create_parent_upper toUpperCase this jiraVersion i l t summary projectId
  issueTypeId   additionalFields fields qs' issueTypes subtaskIssues key :
  nodeParameter this "summary" i = Some (JStr summary) ->
  nodeParameter this "project" i = Some (JStr projectId) ->
  nodeParameter this "issueType" i = Some (JStr issueTypeId) ->
  nodeParameter this "additionalFields" i = Some (JObj additionalFields) ->
  create_fields jiraVersion summary projectId issueTypeId additionalFields (qs l)
    = Ok (fields, qs') ->
  server this t (create_lookup qs') = Some issueTypes ->
  subtask_ids issueTypes = Ok subtaskIssues ->
  includes subtaskIssues (JStr issueTypeId) = true ->
  obj_get additionalFields "parentIssueKey" = JStr key -> key <> "" ->
  exists outcome r,
    issue_create toUpperCase this jiraVersion i l t
    = (outcome, (t ++ [create_lookup qs'; r])%list) /\
    method r = "POST" /\ endpoint r = "/api/2/issue" /\
    parent_key r = JStr (toUpperCase key) /\
    forall message, outcome <> Err (NodeOperationError message).
Proof.
  intros Hs Hp Ht Ha Hf Hl Hids Hin Hkey Hne.
  unfold issue_create. steps. unfold jiraSoftwareCloudApiRequest. steps.
  erewrite bind_ok by (apply lift_ok; eapply check_parent_upper; eassumption).
  match goal with
  | |- context [bind (send this ?r) (fun x => ret (@?f x)) ?t1] =>
      destruct (send_last this r t1 f) as (outcome & Hrun & Hvalid & _);
      exists outcome, r
  end.
  split; [|split; [reflexivity|split; [reflexivity|split]]].
  - rewrite Hrun. now rewrite <- app_assoc.
  - simpl obj_set. apply parent_key_set.
  - exact Hvalid.
Qed.

Lemma issue_update_parent_missing toUpperCase this jiraVersion i l t issueKey updateFields fields
  issueTypes subtaskIssues :
  nodeParameter this "issueKey" i = Some (JStr issueKey) ->
  nodeParameter this "updateFields" i = Some (JObj updateFields) ->
  update_fields jiraVersion updateFields = Ok fields ->
  server this t update_lookup = Some issueTypes ->
  subtask_ids issueTypes = Ok subtaskIssues ->
  includes subtaskIssues (obj_get updateFields "issueType") = true ->
  truthy (obj_get updateFields "parentIssueKey") = false ->
  issue_update toUpperCase this jiraVersion i l t
  = (Err (NodeOperationError parent_missing), (t ++ [update_lookup])%list).
Proof.
  intros Hk Hu Hf Hl Hids Hin Hno.
  unfold issue_update. steps. unfold jiraSoftwareCloudApiRequest. steps.
  apply bind_err. apply lift_err. apply check_parent_missing; assumption.
Qed.

Lemma issue_update_parent_upper toUpperCase this jiraVersion i l t issueKey updateFields fields
  issueTypes subtaskIssues key :
  nodeParameter this "issueKey" i = Some (JStr issueKey) ->
  nodeParameter this "updateFields" i = Some (JObj updateFields) ->
  update_fields jiraVersion updateFields = Ok fields ->
  server this t update_lookup = Some issueTypes ->
  subtask_ids issueTypes = Ok subtaskIssues ->
  includes subtaskIssues (obj_get updateFields "issueType") = true ->
  obj_get updateFields "parentIssueKey" = JStr key -> key <> "" ->
  exists outcome rest,
    issue_update toUpperCase this jiraVersion i l t
    = (outcome, (t ++ update_lookup :: rest)%list) /\
    (forall r, In r rest -> method r = "PUT" -> parent_key r = JStr (toUpperCase key)) /\
    (forall locals, outcome = Ok locals -> exists r, In r rest /\ method r = "PUT") /\
    (forall message, outcome <> Err (NodeOperationError message)).
Proof.
  intros Hk Hu Hf Hl Hids Hin Hkey Hne.
  unfold issue_update. steps. unfold jiraSoftwareCloudApiRequest.
  change (mkRequest "/api/2/issuetype" "GET" (JObj []) JUndefined JUndefined None JUndefined)
    with update_lookup.
  steps.
  erewrite bind_ok by (apply lift_ok; eapply check_parent_upper; eassumption).
  set (put := mkRequest (issue_path issueKey) "PUT" _ JUndefined JUndefined None JUndefined).
  assert (Hput : parent_key put = JStr (toUpperCase key)).
  { subst put. simpl obj_set. apply parent_key_set. }
  destruct (truthy (obj_get updateFields "statusId")).
  - set (transition := mkRequest _ "POST" _ JUndefined JUndefined None JUndefined).
    destruct (server this (t ++ [update_lookup])%list transition) as [moved|] eqn:Hmove.
    + step.
      destruct (send_last this put ((t ++ [update_lookup]) ++ [transition])%list
                  (fun _ => mkLocals (qs l) (returnData l ++ [JObj [("success", JBool true)]])%list))
        as (outcome & Hrun & Hvalid & Hshape).
      exists outcome, [transition; put]. rewrite Hrun.
      split; [now rewrite <- !app_assoc|]. split; [|split].
      * intros r [<-|[<-|[]]] Hm; [discriminate | exact Hput].
      * intros _ _. exists put. split; [right; now left | reflexivity].
      * exact Hvalid.
    + exists (Err NodeApiError), [transition].
      split; [|split; [|split]].
      * erewrite bind_err by (apply send_err; exact Hmove). now rewrite <- app_assoc.
      * intros r [<-|[]] Hm. discriminate.
      * discriminate.
      * discriminate.
  - step.
    destruct (send_last this put (t ++ [update_lookup])%list
                (fun _ => mkLocals (qs l) (returnData l ++ [JObj [("success", JBool true)]])%list))
      as (outcome & Hrun & Hvalid & Hshape).
    exists outcome, [put]. rewrite Hrun.
    split; [now rewrite <- !app_assoc|]. split; [|split].
    + intros r [<-|[]] _. exact Hput.
    + intros _ _. exists put. split; [now left | reflexivity].
    + exact Hvalid.
Qed.

(** C1.  Issue create and issue update, for a record whose issue type is
    among the sub-task types the lookup returned: without a parent issue
    key the round fails with the validation error right after the lookup,
    a GET, so that no POST or PUT of the record is issued; with a parent
    issue key the validation passes and the body of the POST (create) or
    of the PUT (update) carries, as [fields.parent.key], the supplied key
    in upper case, as the [toUpperCase] of the runtime gives it. *)
Theorem sub_task_needs_parent_key :
  forall toUpperCase : string -> string,
  (forall this jiraVersion i l t summary projectId issueTypeId additionalFields
          fields qs' issueTypes subtaskIssues,
      nodeParameter this "summary" i = Some (JStr summary) ->
      nodeParameter this "project" i = Some (JStr projectId) ->
      nodeParameter this "issueType" i = Some (JStr issueTypeId) ->
      nodeParameter this "additionalFields" i = Some (JObj additionalFields) ->
      create_fields jiraVersion summary projectId issueTypeId additionalFields (qs l)
        = Ok (fields, qs') ->
      server this t (create_lookup qs') = Some issueTypes ->
      subtask_ids issueTypes = Ok subtaskIssues ->
      includes subtaskIssues (JStr issueTypeId) = true ->
      (truthy (obj_get additionalFields "parentIssueKey") = false ->
       issue_create toUpperCase this jiraVersion i l t
       = (Err (NodeOperationError parent_missing), (t ++ [create_lookup qs'])%list) /\
       mutating (create_lookup qs') = false) /\
      (forall key,
          obj_get additionalFields "parentIssueKey" = JStr key -> key <> "" ->
          exists outcome r,
            issue_create toUpperCase this jiraVersion i l t
            = (outcome, (t ++ [create_lookup qs'; r])%list) /\
            method r = "POST" /\ endpoint r = "/api/2/issue" /\
            parent_key r = JStr (toUpperCase key) /\
            forall message, outcome <> Err (NodeOperationError message))) /\
  (forall this jiraVersion i l t issueKey updateFields fields issueTypes subtaskIssues,
      nodeParameter this "issueKey" i = Some (JStr issueKey) ->
      nodeParameter this "updateFields" i = Some (JObj updateFields) ->
      update_fields jiraVersion updateFields = Ok fields ->
      server this t update_lookup = Some issueTypes ->
      subtask_ids issueTypes = Ok subtaskIssues ->
      includes subtaskIssues (obj_get updateFields "issueType") = true ->
      (truthy (obj_get updateFields "parentIssueKey") = false ->
       issue_update toUpperCase this jiraVersion i l t
       = (Err (NodeOperationError parent_missing), (t ++ [update_lookup])%list) /\
       mutating update_lookup = false) /\
      (forall key,
          obj_get updateFields "parentIssueKey" = JStr key -> key <> "" ->
          exists outcome rest,
            issue_update toUpperCase this jiraVersion i l t
            = (outcome, (t ++ update_lookup :: rest)%list) /\
            (forall r, In r rest -> method r = "PUT" ->
                       parent_key r = JStr (toUpperCase key)) /\
            (forall locals, outcome = Ok locals ->
                            exists r, In r rest /\ method r = "PUT") /\
            (forall message, outcome <> Err (NodeOperationError message)))).
Proof.
  intros toUpperCase. split.
  - intros this jv i l t summary projectId issueTypeId af fields qs' issueTypes ids
           Hs Hp Ht Ha Hf Hl Hids Hin.
    split.
    + intros Hno. split; [|reflexivity].
      eapply issue_create_parent_missing; eassumption.
    + intros key Hkey Hne.
      eapply issue_create_parent_upper; eassumption.
  - intros this jv i l t issueKey uf fields issueTypes ids Hk Hu Hf Hl Hids Hin.
    split.
    + intros Hno. split; [|reflexivity].
      eapply issue_update_parent_missing; eassumption.
    + intros key Hkey Hne.
      eapply issue_update_parent_upper; eassumption.
Qed.

Lemma sub_task_witness :
  issue_create Examples.upper (Examples.context [Examples.create_item "10003" []])
    "cloud" 0 Examples.start []
  = (Err (NodeOperationError parent_missing), [create_lookup []]) /\
  (exists outcome r,
      issue_create Examples.upper
        (Examples.context [Examples.create_item "10003" Examples.with_parent])
        "cloud" 0 Examples.start [] = (outcome, [create_lookup []; r]) /\
      method r = "POST" /\ endpoint r = "/api/2/issue" /\
      parent_key r = JStr "PROJ-12" /\
      forall message, outcome <> Err (NodeOperationError message)) /\
  issue_update Examples.upper
    (Examples.context [Examples.update_item [("issueType", JStr "10003")]])
    "cloud" 0 Examples.start []
  = (Err (NodeOperationError parent_missing), [update_lookup]) /\
  (exists outcome rest,
      issue_update Examples.upper
        (Examples.context
           [Examples.update_item
              [("issueType", JStr "10003"); ("parentIssueKey", JStr "proj-12")]])
        "cloud" 0 Examples.start [] = (outcome, update_lookup :: rest) /\
      (forall r, In r rest -> method r = "PUT" -> parent_key r = JStr "PROJ-12") /\
      (forall locals, outcome = Ok locals -> exists r, In r rest /\ method r = "PUT") /\
      (forall message, outcome <> Err (NodeOperationError message))).
Proof.
  destruct (sub_task_needs_parent_key Examples.upper) as [Hcreate Hupdate].
  split; [|split; [|split]].
  - exact (proj1 (proj1 (Hcreate
             (Examples.context [Examples.create_item "10003" []])
             "cloud" 0 Examples.start [] "Fix the login page" "10000" "10003" []
             _ [] Examples.issueTypes [JStr "10003"]
             eq_refl eq_refl eq_refl eq_refl eq_refl eq_refl eq_refl eq_refl) eq_refl)).
  - exact (proj2 (Hcreate
             (Examples.context [Examples.create_item "10003" Examples.with_parent])
             "cloud" 0 Examples.start [] "Fix the login page" "10000" "10003"
             Examples.with_parent
             _ [] Examples.issueTypes [JStr "10003"]
             eq_refl eq_refl eq_refl eq_refl eq_refl eq_refl eq_refl eq_refl)
             "proj-12" eq_refl ltac:(discriminate)).
  - exact (proj1 (proj1 (Hupdate
             (Examples.context [Examples.update_item [("issueType", JStr "10003")]])
             "cloud" 0 Examples.start [] "A-1" [("issueType", JStr "10003")]
             _ Examples.issueTypes [JStr "10003"]
             eq_refl eq_refl eq_refl eq_refl eq_refl eq_refl) eq_refl)).
  - exact (proj2 (Hupdate
             (Examples.context
                [Examples.update_item
                   [("issueType", JStr "10003"); ("parentIssueKey", JStr "proj-12")]])
             "cloud" 0 Examples.start [] "A-1"
             [("issueType", JStr "10003"); ("parentIssueKey", JStr "proj-12")]
             _ Examples.issueTypes [JStr "10003"]
             eq_refl eq_refl eq_refl eq_refl eq_refl eq_refl)
             "proj-12" eq_refl ltac:(discriminate)).
Defined.

(** *** C2 *)

Lemma prop_runtime v k e : prop v k = Err e -> runtime e.
Proof.
  destruct v; simpl; try discriminate; try (intros [= <-]; exact I);
    destruct (k =? "length"); discriminate.
Qed.

Lemma call_map_runtime v f e : call_map v f = Err e -> runtime e.
Proof.
  destruct v; simpl; try discriminate; intros [= <-]; exact I.
Qed.

Lemma call_toUpperCase_runtime toUpperCase v e :
  call_toUpperCase toUpperCase v = Err e -> runtime e.
Proof.
  destruct v; simpl; try discriminate; intros [= <-]; exact I.
Qed.

Lemma iterate_runtime v e : iterate v = Err e -> runtime e.
Proof.
  destruct v; simpl; try discriminate; intros [= <-]; exact I.
Qed.

Lemma reduce_custom_fields_runtime values obj e :
  reduce_custom_fields values obj = Err e -> runtime e.
Proof.
  revert obj. induction values as [|value rest IH]; intros obj; simpl; [discriminate|].
  unfold rbind.
  destruct (prop value "fieldId") eqn:E1; [|intros [= <-]; eapply prop_runtime; eauto].
  destruct (prop value "fieldValue") eqn:E2; [|intros [= <-]; eapply prop_runtime; eauto].
  apply IH.
Qed.

Lemma assign_custom_fields_runtime source fields e :
  assign_custom_fields source fields = Err e -> runtime e.
Proof.
  unfold assign_custom_fields, rbind.
  destruct (truthy (obj_get source "customFieldsUi")); [|discriminate].
  destruct (prop _ "customFieldsValues") as [customFields|] eqn:E1;
    [|intros [= <-]; eapply prop_runtime; eauto].
  destruct (truthy customFields); [|discriminate].
  destruct (call_reduce_custom_fields customFields) eqn:E2; [discriminate|].
  intros [= <-]. unfold call_reduce_custom_fields in E2.
  destruct customFields; simpl in E2; try discriminate;
    try (injection E2 as <-; exact I).
  eapply reduce_custom_fields_runtime; eauto.
Qed.

Lemma create_fields_runtime jiraVersion summary projectId issueTypeId additionalFields q e :
  create_fields jiraVersion summary projectId issueTypeId additionalFields q = Err e ->
  runtime e.
Proof.
  unfold create_fields, rbind.
  destruct (truthy (obj_get additionalFields "componentIds")).
  - destruct (call_map _ _) eqn:E1; [|intros [= <-]; eapply call_map_runtime; eauto].
    destruct (assign_custom_fields _ _) eqn:E2; [discriminate|].
    intros [= <-]. eapply assign_custom_fields_runtime; eauto.
  - destruct (assign_custom_fields _ _) eqn:E2; [discriminate|].
    intros [= <-]. eapply assign_custom_fields_runtime; eauto.
Qed.

Lemma update_fields_runtime jiraVersion updateFields e :
  update_fields jiraVersion updateFields = Err e -> runtime e.
Proof. unfold update_fields. apply assign_custom_fields_runtime. Qed.

Lemma push_subtasks_runtime issueTypes subtaskIssues e :
  push_subtasks issueTypes subtaskIssues = Err e -> runtime e.
Proof.
  revert subtaskIssues.
  induction issueTypes as [|issueType rest IH]; intros ids; simpl; [discriminate|].
  unfold rbind.
  destruct (prop issueType "subtask") as [subtask|] eqn:E1;
    [|intros [= <-]; eapply prop_runtime; eauto].
  destruct (truthy subtask); [|apply IH].
  destruct (prop issueType "id") eqn:E2; [apply IH|].
  intros [= <-]. eapply prop_runtime; eauto.
Qed.

Lemma subtask_ids_runtime issueTypes e : subtask_ids issueTypes = Err e -> runtime e.
Proof.
  unfold subtask_ids, rbind.
  destruct (iterate issueTypes) eqn:E; [apply push_subtasks_runtime|].
  intros [= <-]. eapply iterate_runtime; eauto.
Qed.

(** The sub-task check fails for a missing parent, or in the runtime. *)
Lemma check_parent_failure toUpperCase source issueType subtaskIssues fields e :
  check_parent toUpperCase source issueType subtaskIssues fields = Err e ->
  e = NodeOperationError parent_missing \/ runtime e.
Proof.
  unfold check_parent, rbind.
  destruct (negb _ && _); [intros [= <-]; now left|].
  destruct (_ && _); [|discriminate].
  destruct (call_toUpperCase _ _) eqn:E; [discriminate|].
  intros [= <-]. right. eapply call_toUpperCase_runtime; eauto.
Qed.

Lemma getString_failure this name i t e t' :
  getString this name i t = (Err e, t') -> t' = t /\ read_failure e.
Proof.
  unfold getString, getNodeParameter, bind.
  destruct (nodeParameter this name i) as [[]|]; simpl; intros [= <- <-];
    split; try reflexivity; exact I.
Qed.

Lemma getBoolean_failure this name i t e t' :
  getBoolean this name i t = (Err e, t') -> t' = t /\ read_failure e.
Proof.
  unfold getBoolean, getNodeParameter, bind.
  destruct (nodeParameter this name i) as [[]|]; simpl; intros [= <- <-];
    split; try reflexivity; exact I.
Qed.

Lemma getObject_failure this name i t e t' :
  getObject this name i t = (Err e, t') -> t' = t /\ read_failure e.
Proof.
  unfold getObject, getNodeParameter, bind.
  destruct (nodeParameter this name i) as [[]|]; simpl; intros [= <- <-];
    split; try reflexivity; exact I.
Qed.

Lemma send_failure this r t e t' :
  send this r t = (Err e, t') -> e = NodeApiError /\ t' = (t ++ [r])%list.
Proof. unfold send. destruct (server this t r); now intros [= <- <-]. Qed.

(** An exception of the runtime or of the network is none of the
    validation errors. *)
Ltac not_a_validation_error :=
  split; intros ? ?; subst; simpl in *;
  try contradiction; try discriminate; try reflexivity.

Lemma issue_create_failure toUpperCase this jiraVersion i l t e t' :
  issue_create toUpperCase this jiraVersion i l t = (Err e, t') ->
  (forall name, e = ParameterError name -> t' = t) /\
  (forall message, e = NodeOperationError message ->
     message = parent_missing /\ exists q, t' = (t ++ [create_lookup q])%list).
Proof.
  intros H. unfold issue_create in H.
  split_bind H summary t1 H1;
    [apply getString_inv in H1 as [-> _]
    |apply getString_failure in H1 as [-> ?]; not_a_validation_error].
  split_bind H projectId t1 H1;
    [apply getString_inv in H1 as [-> _]
    |apply getString_failure in H1 as [-> ?]; not_a_validation_error].
  split_bind H issueTypeId t1 H1;
    [apply getString_inv in H1 as [-> _]
    |apply getString_failure in H1 as [-> ?]; not_a_validation_error].
  split_bind H additionalFields t1 H1;
    [apply getObject_inv in H1 as [-> _]
    |apply getObject_failure in H1 as [-> ?]; not_a_validation_error].
  split_bind H built t1 H1; apply lift_inv in H1 as [H1 ->];
    [|symmetry in H1; apply create_fields_runtime in H1; not_a_validation_error].
  destruct built as [fields q].
  unfold jiraSoftwareCloudApiRequest in H.
  split_bind H issueTypes t1 H2;
    [apply send_inv in H2 as ->
    |apply send_failure in H2 as [-> ->]; not_a_validation_error].
  split_bind H subtaskIssues t1 H2; apply lift_inv in H2 as [H2 ->];
    [|symmetry in H2; apply subtask_ids_runtime in H2; not_a_validation_error].
  split_bind H checked t1 H3; apply lift_inv in H3 as [H3 ->].
  - split_bind H responseData t1 H4.
    + now apply ret_inv in H as [? _].
    + apply send_failure in H4 as [-> ->]. not_a_validation_error.
  - symmetry in H3. apply check_parent_failure in H3 as [->|H3].
    + split; [discriminate|]. intros message [= <-].
      split; [reflexivity|]. now exists q.
    + not_a_validation_error.
Qed.

Lemma issue_update_failure toUpperCase this jiraVersion i l t e t' :
  issue_update toUpperCase this jiraVersion i l t = (Err e, t') ->
  (forall name, e = ParameterError name -> t' = t) /\
  (forall message, e = NodeOperationError message ->
     message = parent_missing /\ t' = (t ++ [update_lookup])%list).
Proof.
  intros H. unfold issue_update in H.
  split_bind H issueKey t1 H1;
    [apply getString_inv in H1 as [-> _]
    |apply getString_failure in H1 as [-> ?]; not_a_validation_error].
  split_bind H updateFields t1 H1;
    [apply getObject_inv in H1 as [-> _]
    |apply getObject_failure in H1 as [-> ?]; not_a_validation_error].
  split_bind H fields t1 H1; apply lift_inv in H1 as [H1 ->];
    [|symmetry in H1; apply update_fields_runtime in H1; not_a_validation_error].
  unfold jiraSoftwareCloudApiRequest in H.
  split_bind H issueTypes t1 H2;
    [apply send_inv in H2 as ->
    |apply send_failure in H2 as [-> ->]; not_a_validation_error].
  split_bind H subtaskIssues t1 H2; apply lift_inv in H2 as [H2 ->];
    [|symmetry in H2; apply subtask_ids_runtime in H2; not_a_validation_error].
  split_bind H checked t1 H3; apply lift_inv in H3 as [H3 ->].
  - split_bind H moved t1 H4.
    + split_bind H put t2 H5.
      * now apply ret_inv in H as [? _].
      * apply send_failure in H5 as [-> ->]. not_a_validation_error.
    + destruct (truthy (obj_get updateFields "statusId")).
      * apply send_failure in H4 as [-> ->]. not_a_validation_error.
      * discriminate.
  - symmetry in H3. apply check_parent_failure in H3 as [->|H3].
    + split; [discriminate|]. intros message [= <-]. now split.
    + not_a_validation_error.
Qed.

Lemma comment_body_failure JSON_parse this jiraVersion jsonParameters i body0 t e t' :
  comment_body JSON_parse this jiraVersion jsonParameters i body0 t = (Err e, t') ->
  t' = t /\ (read_failure e \/ e = NodeOperationError invalid_document).
Proof.
  unfold comment_body. intros H.
  destruct (Bool.eqb jsonParameters false).
  - split_bind H comment t1 H1.
    + apply getString_inv in H1 as [-> _].
      destruct (jiraVersion =? "server"); discriminate.
    + apply getString_failure in H1 as [-> ?]. split; [reflexivity | now left].
  - split_bind H commentJson t1 H1.
    + apply getString_inv in H1 as [-> _].
      destruct (is_empty_string _).
      * injection H as <- <-. split; [reflexivity | now right].
      * discriminate.
    + apply getString_failure in H1 as [-> ?]. split; [reflexivity | now left].
Qed.

Lemma comment_add_failure JSON_parse this jiraVersion i l t e t' :
  comment_add JSON_parse this jiraVersion i l t = (Err e, t') ->
  (forall name, e = ParameterError name -> t' = t) /\
  (forall message, e = NodeOperationError message ->
     message = invalid_document /\ t' = t).
Proof.
  intros H. unfold comment_add in H.
  split_bind H jsonParameters t1 H1;
    [apply getBoolean_inv in H1 as [-> _]
    |apply getBoolean_failure in H1 as [-> ?]; not_a_validation_error].
  split_bind H issueKey t1 H1;
    [apply getString_inv in H1 as [-> _]
    |apply getString_failure in H1 as [-> ?]; not_a_validation_error].
  split_bind H options t1 H1;
    [apply getObject_inv in H1 as [-> _]
    |apply getObject_failure in H1 as [-> ?]; not_a_validation_error].
  split_bind H body1 t1 H1.
  - unfold jiraSoftwareCloudApiRequest in H. split_bind H responseData t2 H2.
    + now apply ret_inv in H as [? _].
    + apply send_failure in H2 as [-> ->]. not_a_validation_error.
  - apply comment_body_failure in H1 as [-> [?| ->]].
    + not_a_validation_error.
    + split; [discriminate|]. intros message [= <-]. now split.
Qed.

Lemma comment_update_failure JSON_parse this jiraVersion i l t e t' :
  comment_update JSON_parse this jiraVersion i l t = (Err e, t') ->
  (forall name, e = ParameterError name -> t' = t) /\
  (forall message, e = NodeOperationError message ->
     message = invalid_document /\ t' = t).
Proof.
  intros H. unfold comment_update in H.
  split_bind H issueKey t1 H1;
    [apply getString_inv in H1 as [-> _]
    |apply getString_failure in H1 as [-> ?]; not_a_validation_error].
  split_bind H commentId t1 H1;
    [apply getString_inv in H1 as [-> _]
    |apply getString_failure in H1 as [-> ?]; not_a_validation_error].
  split_bind H options t1 H1;
    [apply getObject_inv in H1 as [-> _]
    |apply getObject_failure in H1 as [-> ?]; not_a_validation_error].
  split_bind H jsonParameters t1 H1;
    [apply getBoolean_inv in H1 as [-> _]
    |apply getBoolean_failure in H1 as [-> ?]; not_a_validation_error].
  split_bind H body1 t1 H1.
  - unfold jiraSoftwareCloudApiRequest in H. split_bind H responseData t2 H2.
    + now apply ret_inv in H as [? _].
    + apply send_failure in H2 as [-> ->]. not_a_validation_error.
  - apply comment_body_failure in H1 as [-> [?| ->]].
    + not_a_validation_error.
    + split; [discriminate|]. intros message [= <-]. now split.
Qed.

(** A round that fails ends the loop: the rounds after it do not run. *)
Lemma for_loop_abort {S} (round : nat -> S -> M S) (k : nat) :
  forall i n s s' t t1 t2 e,
    for_loop round i k s t = (Ok s', t1) ->
    round (i + k) s' t1 = (Err e, t2) ->
    for_loop round i (k + Datatypes.S n) s t = (Err e, t2).
Proof.
  induction k as [|k IH]; intros i n s s' t t1 t2 e Hdone Hfail.
  - simpl in Hdone. injection Hdone as <- <-.
    rewrite Nat.add_0_r in Hfail. simpl. now apply bind_err.
  - simpl in Hdone. split_bind Hdone s1 t0 Hfirst; [|discriminate].
    simpl. erewrite bind_ok by exact Hfirst.
    apply IH with (s' := s') (t1 := t1); [exact Hdone|].
    now rewrite Nat.add_succ_comm.
Qed.

(** [execute] fails as its loop fails. *)
Lemma execute_abort toUpperCase JSON_parse this resource operation jiraVersion loop e t' :
  nodeParameter this "resource" 0 = Some (JStr resource) ->
  nodeParameter this "operation" 0 = Some (JStr operation) ->
  nodeParameter this "jiraVersion" 0 = Some (JStr jiraVersion) ->
  operation_loop toUpperCase JSON_parse this resource operation jiraVersion = Some loop ->
  loop (mkLocals [] []) [] = (Err e, t') ->
  run toUpperCase JSON_parse this = (Err e, t').
Proof.
  intros Hr Ho Hv Hloop Hfail. unfold run, execute. steps. rewrite Hloop.
  now apply bind_err.
Qed.

(** C2, as amended.  For a record of issue create or update, a missing
    parameter is raised with the trace unchanged, and the missing parent of
    a sub-task is raised right after the issue-type lookup of that record,
    a GET, before anything else is sent.  For a record of comment add or
    update, a missing parameter and a malformed JSON payload are raised
    with the trace unchanged.  An exception in one round ends the loop and
    [execute] with it: the later records are not processed. *)
Theorem validation_errors_end_execute :
  (forall toUpperCase this jiraVersion i l t e t',
      issue_create toUpperCase this jiraVersion i l t = (Err e, t') ->
      (forall name, e = ParameterError name -> t' = t) /\
      (forall message, e = NodeOperationError message ->
         message = parent_missing /\
         exists q, t' = (t ++ [create_lookup q])%list /\
                   mutating (create_lookup q) = false)) /\
  (forall toUpperCase this jiraVersion i l t e t',
      issue_update toUpperCase this jiraVersion i l t = (Err e, t') ->
      (forall name, e = ParameterError name -> t' = t) /\
      (forall message, e = NodeOperationError message ->
         message = parent_missing /\ t' = (t ++ [update_lookup])%list /\
         mutating update_lookup = false)) /\
  (forall JSON_parse this jiraVersion i l t e t',
      comment_add JSON_parse this jiraVersion i l t = (Err e, t') \/
      comment_update JSON_parse this jiraVersion i l t = (Err e, t') ->
      (forall name, e = ParameterError name -> t' = t) /\
      (forall message, e = NodeOperationError message ->
         message = invalid_document /\ t' = t)) /\
  (forall (round : nat -> Locals -> M Locals) i k n l l' t t1 t2 e,
      for_loop round i k l t = (Ok l', t1) ->
      round (i + k) l' t1 = (Err e, t2) ->
      for_loop round i (k + S n) l t = (Err e, t2)) /\
  (forall toUpperCase JSON_parse this resource operation jiraVersion loop e t',
      nodeParameter this "resource" 0 = Some (JStr resource) ->
      nodeParameter this "operation" 0 = Some (JStr operation) ->
      nodeParameter this "jiraVersion" 0 = Some (JStr jiraVersion) ->
      operation_loop toUpperCase JSON_parse this resource operation jiraVersion = Some loop ->
      loop (mkLocals [] []) [] = (Err e, t') ->
      run toUpperCase JSON_parse this = (Err e, t')).
Proof.
  split; [|split; [|split; [|split]]].
  - intros toUpperCase this jv i l t e t' H.
    destruct (issue_create_failure _ _ _ _ _ _ _ _ H) as [Hp Hv].
    split; [exact Hp|]. intros message He.
    destruct (Hv message He) as [-> [q ->]]. split; [reflexivity|]. now exists q.
  - intros toUpperCase this jv i l t e t' H.
    destruct (issue_update_failure _ _ _ _ _ _ _ _ H) as [Hp Hv].
    split; [exact Hp|]. intros message He.
    destruct (Hv message He) as [-> ->]. now repeat split.
  - intros parse this jv i l t e t' [H|H].
    + eapply comment_add_failure; eassumption.
    + eapply comment_update_failure; eassumption.
  - intros round i k n l l' t t1 t2 e. apply for_loop_abort.
  - intros toUpperCase parse this resource operation jv loop e t'. apply execute_abort.
Qed.

Lemma validation_errors_witness :
  (forall message,
      NodeOperationError parent_missing = NodeOperationError message ->
      message = parent_missing /\
      exists q, [create_lookup []] = ([] ++ [create_lookup q])%list /\
                mutating (create_lookup q) = false) /\
  run Examples.upper Json.parse (Examples.context Examples.orphan_then_task)
  = (Err (NodeOperationError parent_missing), [create_lookup []]).
Proof.
  destruct validation_errors_end_execute as (Hcreate & _ & _ & Hloop & Hrun).
  split.
  - exact (proj2 (Hcreate Examples.upper (Examples.context Examples.orphan_then_task)
                    "cloud" 0 Examples.start [] _ _ eq_refl)).
  - exact (Hrun Examples.upper Json.parse (Examples.context Examples.orphan_then_task)
             "issue" "create" "cloud" _ _ _ eq_refl eq_refl eq_refl eq_refl
             (Hloop (issue_create Examples.upper
                       (Examples.context Examples.orphan_then_task) "cloud")
                0 0 1 Examples.start Examples.start [] [] _ _ eq_refl eq_refl)).
Defined.

(** C2, as stated, fails.  In a batch of two issues to create, the first a
    sub-task without a parent: the validation error of the first record
    comes after a request of that record, the issue-type lookup; and it
    ends [execute] as a whole, so that the second record, which alone
    would be created, is never sent. *)
Lemma parent_error_follows_lookup_and_ends_batch :
  issue_create Examples.upper (Examples.context Examples.orphan_then_task) "cloud" 0
    Examples.start []
  = (Err (NodeOperationError parent_missing), [create_lookup []]) /\
  [create_lookup []] <> [] /\
  run Examples.upper Json.parse (Examples.context Examples.orphan_then_task)
  = (Err (NodeOperationError parent_missing), [create_lookup []]) /\
  run Examples.upper Json.parse (Examples.context [Examples.create_item "10001" []])
  = (Ok [JObj [("key", JStr "A-9")]],
     [ create_lookup [];
       mkRequest "/api/2/issue" "POST"
         (JObj [("fields",
                 JObj [ ("summary", JStr "Fix the login page");
                        ("project", JObj [("id", JStr "10000")]);
                        ("issuetype", JObj [("id", JStr "10001")]) ])])
         JUndefined JUndefined None JUndefined ]).
Proof. repeat split; try reflexivity. discriminate. Qed.

(** *** C6 *)

(** A record of issue get that sets none of the five parameters sends the
    query string it inherits from the records before it, as it is. *)
Lemma issue_get_inherits_query this i l t issueKey additionalFields :
  nodeParameter this "issueKey" i = Some (JStr issueKey) ->
  nodeParameter this "additionalFields" i = Some (JObj additionalFields) ->
  (forall name,
      In name ["fields"; "fieldsByKey"; "expand"; "properties"; "updateHistory"] ->
      truthy (obj_get additionalFields name) = false) ->
  exists outcome,
    issue_get this i l t
    = (outcome,
       (t ++ [mkRequest (issue_path issueKey) "GET" (JObj []) (JObj (qs l))
                JUndefined None JUndefined])%list).
Proof.
  intros Hk Ha Hnone. unfold issue_get. steps.
  rewrite !Hnone by (simpl; tauto). simpl assign_if.
  unfold jiraSoftwareCloudApiRequest. apply send_then_ret.
Qed.

(** C6 fails on the code: [qs] is one object for all the rounds of a loop.
    In a batch of two issues to get, the [fields] parameter that the first
    record sets is sent again with the request of the second record, which
    set none. *)
Theorem query_string_leaks_into_later_records :
  obj_has [] "fields" = false /\
  nodeParameter (Examples.context Examples.summary_then_whole) "additionalFields" 1
  = Some (JObj []) /\
  snd (run Examples.upper Json.parse (Examples.context Examples.summary_then_whole))
  = [ mkRequest "/api/2/issue/A-1" "GET" (JObj [])
        (JObj [("fields", JStr "summary")]) JUndefined None JUndefined;
      mkRequest "/api/2/issue/A-2" "GET" (JObj [])
        (JObj [("fields", JStr "summary")]) JUndefined None JUndefined ] /\
  snd (run Examples.upper Json.parse (Examples.context [Examples.get_item "A-2" []]))
  = [ mkRequest "/api/2/issue/A-2" "GET" (JObj []) (JObj []) JUndefined None JUndefined ].
Proof. repeat split; reflexivity. Qed.

(** *** C5 *)



Lemma attachment_getAll_limited this i l t issueKey limit response fields attachments :
  nodeParameter this "issueKey" i = Some (JStr issueKey) ->
  nodeParameter this "returnAll" i = Some (JBool false) ->
  nodeParameter this "limit" i = Some (JNum limit) ->
  server this t (attachments_request issueKey (qs l)) = Some response ->
  prop response "fields" = Ok fields ->
  prop fields "attachment" = Ok (JArr attachments) ->
  attachment_getAll this i l t
  = (Ok (mkLocals (qs l)
           (returnData l ++
            map (fun data => JObj [("json", data)]) (slice0 attachments limit))%list),
     (t ++ [attachments_request issueKey (qs l)])%list).
Proof.
  intros Hk Hr Hl Hs Hf Ha.
  unfold attachment_getAll. steps. unfold jiraSoftwareCloudApiRequest. steps.
  change (Bool.eqb false false) with true. cbv iota.
  erewrite bind_ok by (steps; reflexivity).
  simpl call_map. steps. unfold push_apply. simpl apply_arguments. steps.
  reflexivity.
Qed.







(** The run of the example: of the two issues the search finds, a limit
    of 1 returns the first. *)
Example search_limited_run :
  run Examples.upper Json.parse (Examples.context [Examples.search_item 1])
  = (Ok [JObj [("key", JStr "A-1")]],
     [search_request [("jql", JStr "project = A")] 1]).
Proof. reflexivity. Qed.

(** *** C4 *)

Lemma In_obj_set (o : IDataObject) (k k0 : string) (v v0 : JsValue) :
  In (k, v) (obj_set o k0 v0) -> (k = k0 /\ v = v0) \/ In (k, v) o.
Proof.
  induction o as [|[k1 v1] o IH]; simpl.
  - intros [[= <- <-]|[]]. now left.
  - destruct (k1 =? k0).
    + intros [[= <- <-]|H]; [now left | right; now right].
    + intros [H|H]; [right; now left|].
      destruct (IH H) as [?|?]; [now left | right; now right].
Qed.

Lemma obj_has_get_In (o : IDataObject) (k : string) :
  obj_has o k = true -> In (k, obj_get o k) o.
Proof.
  induction o as [|[k1 v1] o IH]; simpl; [discriminate|].
  destruct (String.eqb_spec k1 k) as [->|Hne]; simpl.
  - intros _. now left.
  - intros H. right. now apply IH.
Qed.

Lemma In_obj_assign (target source : IDataObject) (k : string) (v : JsValue) :
  In (k, v) (obj_assign target source) -> In (k, v) target \/ In (k, v) source.
Proof.
  unfold obj_assign. revert target.
  induction source as [|[k0 v0] source IH]; intros target; simpl.
  - now left.
  - intros H. destruct (IH _ H) as [H1|H1].
    + destruct (In_obj_set _ _ _ _ _ H1) as [[-> ->]|H2].
      * right. now left.
      * now left.
    + right. now right.
Qed.

(** The entries of the reduction come from the accumulator or from the
    custom field values. *)
Lemma In_reduce_custom_fields values :
  forall obj data k v,
    reduce_custom_fields values obj = Ok data ->
    In (k, v) data ->
    In (k, v) obj \/
    exists value fieldId,
      In value values /\ prop value "fieldId" = Ok fieldId /\
      to_string fieldId = k /\ prop value "fieldValue" = Ok v.
Proof.
  induction values as [|value rest IH]; intros obj data k v; simpl.
  - intros [= <-] H. now left.
  - unfold rbind.
    destruct (prop value "fieldId") as [fieldId|] eqn:E1; [|discriminate].
    destruct (prop value "fieldValue") as [fieldValue|] eqn:E2; [|discriminate].
    intros Hdata Hin.
    destruct (IH _ _ _ _ Hdata Hin) as [H|(value' & id' & Hv & Hrest)].
    + destruct (In_obj_set _ _ _ _ _ H) as [[-> ->]|H'].
      * right. exists value, fieldId. repeat split; auto using in_eq.
      * now left.
    + right. exists value', id'. split; [now right | exact Hrest].
Qed.

Lemma assign_custom_fields_In updateFields fields fields' k v :
  assign_custom_fields updateFields fields = Ok fields' ->
  In (k, v) fields' ->
  In (k, v) fields \/ custom_entry updateFields k v.
Proof.
  unfold assign_custom_fields, rbind. intros H Hin.
  destruct (truthy (obj_get updateFields "customFieldsUi"));
    [|injection H as <-; now left].
  destruct (prop _ "customFieldsValues") as [customFields|] eqn:E1; [|discriminate].
  destruct (truthy customFields); [|injection H as <-; now left].
  destruct (call_reduce_custom_fields customFields) as [data|] eqn:E2; [|discriminate].
  injection H as <-.
  destruct (In_obj_assign _ _ _ _ Hin) as [H|H]; [now left|].
  right. unfold call_reduce_custom_fields in E2.
  destruct customFields as [| | | | |values|]; simpl in E2; try discriminate.
  destruct (In_reduce_custom_fields _ _ _ _ _ E2 H) as [[]|(value & id & Hrest)].
  exists values, value, id. split; [exact E1 | exact Hrest].
Qed.

(** An entry of an object after a guarded assignment is the assignment,
    its guard being true, or an entry of the object before. *)
Lemma In_assign_if (c : bool) (o : IDataObject) (k k0 : string) (v v0 : JsValue) :
  In (k, v) (assign_if c o k0 v0) ->
  (c = true /\ k = k0 /\ v = v0) \/ In (k, v) o.
Proof.
  destruct c; simpl; [|now right].
  intros H. destruct (In_obj_set _ _ _ _ _ H) as [[-> ->]|H']; [now left | now right].
Qed.

Lemma present_by (updateFields : IDataObject) (key name : string) :
  In name (sources key) ->
  truthy (obj_get updateFields name) = true ->
  present_in updateFields key.
Proof.
  intros Hin Ht. left. exists name. split; [exact Hin|]. split; [|exact Ht].
  now apply truthy_present.
Qed.

Lemma update_fields_entries jiraVersion updateFields fields k v :
  update_fields jiraVersion updateFields = Ok fields ->
  In (k, v) fields ->
  present_in updateFields k /\ (v = JNull -> custom_entry updateFields k JNull).
Proof.
  unfold update_fields. intros H Hin.
  destruct (assign_custom_fields_In _ _ _ _ _ H Hin) as [Hbase|Hcustom].
  2:{ split; [right; now exists v | now intros <-]. }
  clear H Hin.
  repeat match type of Hbase with
         | In _ (assign_if _ _ _ _) =>
             apply In_assign_if in Hbase; destruct Hbase as [(Hc & -> & ->)|Hbase]
         end;
    try (split;
         [ eapply present_by; [|exact Hc]; simpl; tauto
         | first [ discriminate
                 | intros Hnull; rewrite Hnull in Hc; discriminate
                 | unfold assignee_of; destruct (jiraVersion =? "server"); discriminate ] ]).
  destruct Hbase.
Qed.

Lemma check_parent_entries toUpperCase updateFields issueType subtaskIssues fields fields' k v :
  check_parent toUpperCase updateFields issueType subtaskIssues fields = Ok fields' ->
  In (k, v) fields' ->
  In (k, v) fields \/
  (k = "parent" /\ v <> JNull /\ truthy (obj_get updateFields "parentIssueKey") = true).
Proof.
  unfold check_parent, rbind. intros H Hin.
  destruct (negb _ && _); [discriminate|].
  destruct (truthy (obj_get updateFields "parentIssueKey")) eqn:Hp; simpl in H;
    [|injection H as <-; now left].
  destruct (includes subtaskIssues issueType); [|injection H as <-; now left].
  destruct (call_toUpperCase _ _) as [key|]; [|discriminate].
  injection H as <-.
  destruct (In_obj_set _ _ _ _ _ Hin) as [[-> ->]|H']; [right | now left].
  repeat split. discriminate.
Qed.

(** The [fields] object of an update, after the sub-task check, is
    sparse. *)
Lemma update_fields_sparse toUpperCase jiraVersion updateFields issueType subtaskIssues
  fields fields' :
  update_fields jiraVersion updateFields = Ok fields ->
  check_parent toUpperCase updateFields issueType subtaskIssues fields = Ok fields' ->
  sparse updateFields fields'.
Proof.
  intros Hf Hc key Hhas.
  apply obj_has_get_In in Hhas.
  destruct (check_parent_entries _ _ _ _ _ _ _ _ Hc Hhas) as [Hin|(-> & Hne & Hp)].
  - eapply update_fields_entries; eassumption.
  - split; [|intros Hnull; contradiction].
    eapply present_by; [|exact Hp]. simpl. tauto.
Qed.

(** C4.  Issue update: the body of the PUT is [{fields}], and [fields] is
    sparse: each of its keys is present in the collected [updateFields]
    (under the name the form gives it, or as a custom field entry), and no
    key holds [null] unless a custom field entry of the input gives it
    that value. *)
Theorem update_sends_only_present_fields :
  forall toUpperCase this jiraVersion i l t outcome t',
    issue_update toUpperCase this jiraVersion i l t = (outcome, t') ->
    exists sent,
      t' = (t ++ sent)%list /\
      forall r, In r sent -> method r = "PUT" ->
        exists updateFields fields,
          nodeParameter this "updateFields" i = Some (JObj updateFields) /\
          body r = JObj [("fields", JObj fields)] /\
          sparse updateFields fields.
Proof.
  intros toUpperCase this jv i l t outcome t' H. unfold issue_update in H.
  assert (Hnone : forall tr : Trace, exists sent : Trace,
             tr = (tr ++ sent)%list /\
             forall r, In r sent -> method r = "PUT" ->
               exists updateFields fields,
                 nodeParameter this "updateFields" i = Some (JObj updateFields) /\
                 body r = JObj [("fields", JObj fields)] /\
                 sparse updateFields fields).
  { intros tr. exists []. split; [now rewrite app_nil_r | intros r []]. }
  split_bind H issueKey t1 H1; apply getString_inv in H1 as [-> _]; [|apply Hnone].
  split_bind H updateFields t1 H1; apply getObject_inv in H1 as [-> Hu]; [|apply Hnone].
  specialize (Hu _ eq_refl).
  split_bind H fields t1 H1; apply lift_inv in H1 as [Hf ->]; [|apply Hnone].
  unfold jiraSoftwareCloudApiRequest in H.
  split_bind H issueTypes t1 H2; apply send_inv in H2 as ->.
  2:{ eexists. split; [reflexivity|]. intros r [<-|[]]. discriminate. }
  split_bind H subtaskIssues t1 H2; apply lift_inv in H2 as [_ ->].
  2:{ eexists. split; [reflexivity|]. intros r [<-|[]]. discriminate. }
  split_bind H checked t1 H3; apply lift_inv in H3 as [Hc ->].
  2:{ eexists. split; [reflexivity|]. intros r [<-|[]]. discriminate. }
  assert (Hsparse : sparse updateFields checked)
    by (eapply update_fields_sparse; symmetry; eassumption).
  assert (Hput : forall e q u p ro,
             exists uf fs,
               nodeParameter this "updateFields" i = Some (JObj uf) /\
               body (mkRequest e "PUT" (JObj (obj_set [] "fields" (JObj checked))) q u p ro)
               = JObj [("fields", JObj fs)] /\
               sparse uf fs).
  { intros. exists updateFields, checked.
    split; [exact Hu | split; [reflexivity | exact Hsparse]]. }
  split_bind H moved t1 Hmove.
  - split_bind H put t2 Hsend; apply send_inv in Hsend as ->.
    + apply ret_inv in H as [_ ->].
      destruct (truthy (obj_get updateFields "statusId")).
      * apply send_inv in Hmove as ->.
        eexists [_; _; _]. split; [now rewrite <- !app_assoc|].
        intros r [<-|[<-|[<-|[]]]] Hm; try discriminate. apply Hput.
      * apply ret_inv in Hmove as [_ ->].
        eexists [_; _]. split; [now rewrite <- !app_assoc|].
        intros r [<-|[<-|[]]] Hm; try discriminate. apply Hput.
    + destruct (truthy (obj_get updateFields "statusId")).
      * apply send_inv in Hmove as ->.
        eexists [_; _; _]. split; [now rewrite <- !app_assoc|].
        intros r [<-|[<-|[<-|[]]]] Hm; try discriminate. apply Hput.
      * apply ret_inv in Hmove as [_ ->].
        eexists [_; _]. split; [now rewrite <- !app_assoc|].
        intros r [<-|[<-|[]]] Hm; try discriminate. apply Hput.
  - destruct (truthy (obj_get updateFields "statusId")); [|discriminate].
    apply send_inv in Hmove as ->.
    eexists [_; _]. split; [now rewrite <- !app_assoc|].
    intros r [<-|[<-|[]]] Hm; discriminate.
Qed.

Lemma sparse_update_witness :
  let this := Examples.context [Examples.update_item Examples.sparse_update] in
  let run := issue_update Examples.upper this "cloud" 0 Examples.start [] in
  exists sent,
    snd run = ([] ++ sent)%list /\
    forall r, In r sent -> method r = "PUT" ->
      exists updateFields fields,
        nodeParameter this "updateFields" 0 = Some (JObj updateFields) /\
        body r = JObj [("fields", JObj fields)] /\
        sparse updateFields fields.
Proof.
  exact (update_sends_only_present_fields Examples.upper
           (Examples.context [Examples.update_item Examples.sparse_update])
           "cloud" 0 Examples.start [] _ _ (surjective_pairing _)).
Defined.

(** The run of the example: the empty description is left out, the custom
    field goes out with the null the input gave it. *)
Example sparse_update_run :
  snd (issue_update Examples.upper (Examples.context [Examples.update_item Examples.sparse_update])
         "cloud" 0 Examples.start [])
  = [ update_lookup;
      mkRequest "/api/2/issue/A-1" "PUT"
        (JObj [("fields", JObj [ ("summary", JStr "New title");
                                 ("customfield_10010", JNull) ])])
        JUndefined JUndefined None JUndefined ].
Proof. reflexivity. Qed.

(** *** C8 *)

Lemma same_value_zero_string (s : string) (x : JsValue) :
  same_value_zero (JStr s) x = true <-> x = JStr s.
Proof.
  destruct x; simpl; try (split; [discriminate | intros [=]]).
  split.
  - intros H. apply String.eqb_eq in H. now subst.
  - intros [= ->]. apply String.eqb_refl.
Qed.

Lemma existsb_filter {A} (f g : A -> bool) (l : list A) :
  existsb f (filter g l) = existsb (fun x => f x && g x) l.
Proof.
  induction l as [|x l IH]; simpl; [reflexivity|].
  destruct (g x); simpl; rewrite IH.
  - now rewrite andb_true_r.
  - now rewrite andb_false_r.
Qed.

Lemma filter_filter {A} (f g : A -> bool) (l : list A) :
  filter f (filter g l) = filter (fun x => f x && g x) l.
Proof.
  induction l as [|x l IH]; simpl; [reflexivity|].
  destruct (g x); simpl; rewrite IH.
  - now rewrite andb_true_r.
  - now rewrite andb_false_r.
Qed.

(** The display condition of the entries of a group, for create and for
    update: on the resource, the operation and [dataToSend]. *)
Lemma display_group nodeValues operation choice displayName name type required default
  options :
  obj_get nodeValues "resource" = JStr "document" ->
  Elasticsearch.displayParameter nodeValues
    (Elasticsearch.mkProperty displayName name type required default
       [ ("resource", [JStr "document"]); ("operation", [JStr operation]);
         ("dataToSend", [JStr choice]) ] options)
  = same_value_zero (JStr operation) (obj_get nodeValues "operation")
    && same_value_zero (JStr choice) (obj_get nodeValues "dataToSend").
Proof.
  intros Hr. unfold Elasticsearch.displayParameter. simpl.
  rewrite Hr. simpl. now rewrite !orb_false_r, andb_true_r.
Qed.

Lemma display_plain nodeValues operation displayName name type required default options :
  obj_get nodeValues "resource" = JStr "document" ->
  Elasticsearch.displayParameter nodeValues
    (Elasticsearch.mkProperty displayName name type required default
       (Elasticsearch.on operation) options)
  = same_value_zero (JStr operation) (obj_get nodeValues "operation").
Proof.
  intros Hr. unfold Elasticsearch.displayParameter. simpl.
  rewrite Hr. simpl. now rewrite !orb_false_r, andb_true_r.
Qed.

Arguments Elasticsearch.displayParameter : simpl never.

(** What is shown of the two groups, for create and for update. *)
Lemma groups_visible nodeValues operation :
  obj_get nodeValues "resource" = JStr "document" ->
  obj_get nodeValues "operation" = JStr operation ->
  operation = "create" \/ operation = "update" ->
  Elasticsearch.visible nodeValues "fieldsUi"
  = same_value_zero (JStr "defineBelow") (obj_get nodeValues "dataToSend") /\
  Elasticsearch.visible nodeValues "inputsToIgnore"
  = same_value_zero (JStr "autoMapInputData") (obj_get nodeValues "dataToSend") /\
  Elasticsearch.offered nodeValues "dataToSend" = ["defineBelow"; "autoMapInputData"].
Proof.
  intros Hr Ho Hop.
  unfold Elasticsearch.visible, Elasticsearch.offered, Elasticsearch.displayed.
  rewrite !existsb_filter, filter_filter.
  unfold Elasticsearch.documentFields. simpl.
  rewrite !(display_group _ _ _ _ _ _ _ _ _ Hr), !(display_plain _ _ _ _ _ _ _ _ Hr), Ho.
  destruct Hop as [-> | ->]; simpl;
    rewrite ?orb_false_r; repeat split; reflexivity.
Qed.

(** C8.  Elasticsearch document create and update: "Fields to Send"
    ([fieldsUi]) is shown exactly when [dataToSend] is 'defineBelow' and
    "Inputs to Ignore" ([inputsToIgnore]) exactly when it is
    'autoMapInputData'; these two are the values [dataToSend] offers, and
    for each of them exactly one of the two groups is shown, which is the
    one group that reaches the body. *)
Theorem data_to_send_selects_one_group :
  forall nodeValues operation,
    obj_get nodeValues "resource" = JStr "document" ->
    obj_get nodeValues "operation" = JStr operation ->
    operation = "create" \/ operation = "update" ->
    (Elasticsearch.visible nodeValues "fieldsUi" = true <->
     obj_get nodeValues "dataToSend" = JStr "defineBelow") /\
    (Elasticsearch.visible nodeValues "inputsToIgnore" = true <->
     obj_get nodeValues "dataToSend" = JStr "autoMapInputData") /\
    Elasticsearch.offered nodeValues "dataToSend" = ["defineBelow"; "autoMapInputData"] /\
    (forall v,
        In v (Elasticsearch.offered nodeValues "dataToSend") ->
        obj_get nodeValues "dataToSend" = JStr v ->
        xorb (Elasticsearch.visible nodeValues "fieldsUi")
             (Elasticsearch.visible nodeValues "inputsToIgnore") = true /\
        Elasticsearch.body_groups nodeValues
        = if v =? "defineBelow" then ["fieldsUi"] else ["inputsToIgnore"]).
Proof.
  intros nodeValues operation Hr Ho Hop.
  destruct (groups_visible nodeValues operation Hr Ho Hop) as (Hf & Hi & Hoffer).
  split; [|split; [|split]].
  - rewrite Hf. apply same_value_zero_string.
  - rewrite Hi. apply same_value_zero_string.
  - exact Hoffer.
  - intros v Hin Hv. rewrite Hoffer in Hin.
    unfold Elasticsearch.body_groups, Elasticsearch.data_groups.
    cbn [filter]. rewrite Hf, Hi, Hv.
    destruct Hin as [<-|[<-|[]]]; split; reflexivity.
Qed.

Lemma data_to_send_witness :
  xorb (Elasticsearch.visible Examples.auto_mapped "fieldsUi")
       (Elasticsearch.visible Examples.auto_mapped "inputsToIgnore") = true /\
  Elasticsearch.body_groups Examples.auto_mapped = ["inputsToIgnore"].
Proof.
  exact (proj2 (proj2 (proj2 (data_to_send_selects_one_group
           Examples.auto_mapped "create" eq_refl eq_refl (or_introl eq_refl))))
           "autoMapInputData" (or_intror (or_introl eq_refl)) eq_refl).
Defined.

(* ================================================================= *)
(** ** Further properties of [execute] *)

(** Take a finished run apart, down to the parameters read and the answers
    received: [expose] shows every read and every request of the run,
    [cases] goes through their outcomes. *)
Ltac expose H :=
  cbv beta iota delta
    [bind ret lift throw send getString getBoolean getNumber getObject
     getNodeParameter as_string as_boolean as_number as_object
     jiraSoftwareCloudApiRequest jiraSoftwareCloudApiRequestWith
     jiraSoftwareCloudApiRequestAllItems push_apply] in H.

Ltac cases H :=
  repeat match type of H with
         | context [match ?x with _ => _ end] =>
             lazymatch x with
             | context [match _ with _ => _ end] => fail
             | _ => destruct x eqn:?; cbv beta iota in H; try discriminate H
             end
         end.

Ltac crack H := expose H; cases H.

(** *** No work: no input, or an operation the node does not have *)

(** X1.  Without input items the loops of the issue, comment and user
    resources do not run: nothing is sent and [returnData] stays empty.
    The same holds, for any input, when the resource and the operation
    select no loop, as an unknown resource does: [execute] raises nothing
    for it. *)
Theorem execute_without_work :
  forall toUpperCase JSON_parse this resource operation jiraVersion,
    nodeParameter this "resource" 0 = Some (JStr resource) ->
    nodeParameter this "operation" 0 = Some (JStr operation) ->
    nodeParameter this "jiraVersion" 0 = Some (JStr jiraVersion) ->
    (inputLength this = 0%nat ->
     In resource ["issue"; "issueComment"; "user"] ->
     run toUpperCase JSON_parse this = (Ok [], [])) /\
    (operation_loop toUpperCase JSON_parse this resource operation jiraVersion = None ->
     run toUpperCase JSON_parse this = (Ok [], [])) /\
    (~ In resource ["issue"; "issueAttachment"; "issueComment"; "user"] ->
     operation_loop toUpperCase JSON_parse this resource operation jiraVersion = None).
Proof.
  intros toUpperCase parse this resource operation jv Hr Ho Hv.
  split; [|split].
  - intros Hn Hin. unfold run, execute. steps.
    unfold operation_loop. rewrite Hn.
    destruct Hin as [<-|[<-|[<-|[]]]]; simpl;
      repeat match goal with
             | |- context [if ?c then _ else _] => destruct c
             end; reflexivity.
  - intros Hnone. unfold run, execute. steps. now rewrite Hnone.
  - intros Hnot. unfold operation_loop.
    destruct (String.eqb_spec resource "issue") as [->|_]; [exfalso; apply Hnot; simpl; tauto|].
    destruct (String.eqb_spec resource "issueAttachment") as [->|_];
      [exfalso; apply Hnot; simpl; tauto|].
    destruct (String.eqb_spec resource "issueComment") as [->|_];
      [exfalso; apply Hnot; simpl; tauto|].
    destruct (String.eqb_spec resource "user") as [->|_];
      [exfalso; apply Hnot; simpl; tauto|].
    reflexivity.
Qed.

Lemma execute_without_work_witness :
  run Examples.upper Json.parse Examples.idle = (Ok [], []) /\
  run Examples.upper Json.parse (Examples.context [Examples.node "board" "get" []]) = (Ok [], []).
Proof.
  split.
  - apply (proj1 (execute_without_work Examples.upper Json.parse Examples.idle "issue" "get" "cloud"
                    eq_refl eq_refl eq_refl)).
    + reflexivity.
    + simpl. auto.
  - destruct (execute_without_work Examples.upper Json.parse
                (Examples.context [Examples.node "board" "get" []])
                "board" "get" "cloud" eq_refl eq_refl eq_refl) as (_ & Hnone & Hother).
    apply Hnone, Hother. simpl. intuition discriminate.
Defined.

(** *** One record for each input item *)

(** What a round that adds one record does to [returnData]. *)
Ltac adds_one H :=
  crack H;
  injection H as <- <-; simpl returnData; rewrite ?length_app; simpl; lia.

Lemma issue_create_adds_one toUpperCase this jiraVersion i l t l' t' :
  issue_create toUpperCase this jiraVersion i l t = (Ok l', t') ->
  List.length (returnData l') = S (List.length (returnData l)).
Proof. unfold issue_create. intros H. adds_one H. Qed.

Lemma issue_update_adds_one toUpperCase this jiraVersion i l t l' t' :
  issue_update toUpperCase this jiraVersion i l t = (Ok l', t') ->
  List.length (returnData l') = S (List.length (returnData l)).
Proof. unfold issue_update. intros H. adds_one H. Qed.

Lemma issue_get_adds_one this i l t l' t' :
  issue_get this i l t = (Ok l', t') ->
  List.length (returnData l') = S (List.length (returnData l)).
Proof. unfold issue_get. intros H. adds_one H. Qed.

Lemma issue_notify_adds_one JSON_parse this i l t l' t' :
  issue_notify JSON_parse this i l t = (Ok l', t') ->
  List.length (returnData l') = S (List.length (returnData l)).
Proof. unfold issue_notify. intros H. adds_one H. Qed.

Lemma issue_delete_adds_one this i l t l' t' :
  issue_delete this i l t = (Ok l', t') ->
  List.length (returnData l') = S (List.length (returnData l)).
Proof. unfold issue_delete. intros H. adds_one H. Qed.

Lemma attachment_remove_adds_one this jiraVersion i l t l' t' :
  attachment_remove this jiraVersion i l t = (Ok l', t') ->
  List.length (returnData l') = S (List.length (returnData l)).
Proof. unfold attachment_remove. intros H. adds_one H. Qed.

Lemma attachment_get_adds_one this jiraVersion i l t l' t' :
  attachment_get this jiraVersion i l t = (Ok l', t') ->
  List.length (returnData l') = S (List.length (returnData l)).
Proof. unfold attachment_get. intros H. adds_one H. Qed.

Lemma comment_add_adds_one JSON_parse this jiraVersion i l t l' t' :
  comment_add JSON_parse this jiraVersion i l t = (Ok l', t') ->
  List.length (returnData l') = S (List.length (returnData l)).
Proof. unfold comment_add. intros H. adds_one H. Qed.

Lemma comment_get_adds_one this jiraVersion i l t l' t' :
  comment_get this jiraVersion i l t = (Ok l', t') ->
  List.length (returnData l') = S (List.length (returnData l)).
Proof. unfold comment_get. intros H. adds_one H. Qed.

Lemma comment_remove_adds_one this jiraVersion i l t l' t' :
  comment_remove this jiraVersion i l t = (Ok l', t') ->
  List.length (returnData l') = S (List.length (returnData l)).
Proof. unfold comment_remove. intros H. adds_one H. Qed.

Lemma comment_update_adds_one JSON_parse this jiraVersion i l t l' t' :
  comment_update JSON_parse this jiraVersion i l t = (Ok l', t') ->
  List.length (returnData l') = S (List.length (returnData l)).
Proof. unfold comment_update. intros H. adds_one H. Qed.

Lemma user_create_adds_one this jiraVersion i l t l' t' :
  user_create this jiraVersion i l t = (Ok l', t') ->
  List.length (returnData l') = S (List.length (returnData l)).
Proof. unfold user_create. intros H. adds_one H. Qed.

Lemma user_delete_adds_one this jiraVersion i l t l' t' :
  user_delete this jiraVersion i l t = (Ok l', t') ->
  List.length (returnData l') = S (List.length (returnData l)).
Proof. unfold user_delete. intros H. adds_one H. Qed.

Lemma user_get_adds_one this jiraVersion i l t l' t' :
  user_get this jiraVersion i l t = (Ok l', t') ->
  List.length (returnData l') = S (List.length (returnData l)).
Proof. unfold user_get. intros H. adds_one H. Qed.

(** A loop of [n] rounds that each add one record adds [n] records. *)
Lemma for_loop_counts (round : nat -> Locals -> M Locals) :
  (forall i l t l' t',
      round i l t = (Ok l', t') ->
      List.length (returnData l') = S (List.length (returnData l))) ->
  forall n i l t l' t',
    for_loop round i n l t = (Ok l', t') ->
    List.length (returnData l') = (List.length (returnData l) + n)%nat.
Proof.
  intros Hround. induction n as [|n IH]; intros i l t l' t' H; simpl in H.
  - injection H as <- <-. lia.
  - split_bind H l1 t1 H1; [|discriminate].
    apply Hround in H1. apply IH in H. lia.
Qed.

(** The download pass keeps the number of records. *)
Lemma download_all_length this binaryPropertyName entries :
  forall t out t',
    download_all this binaryPropertyName entries t = (Ok out, t') ->
    List.length out = List.length entries.
Proof.
  induction entries as [|entry rest IH]; intros t out t' H; simpl in H.
  - now injection H as <- <-.
  - split_bind H first t1 H1; [|discriminate].
    split_bind H others t2 H2; [|discriminate].
    injection H as <- <-. simpl. f_equal. eapply IH; eauto.
Qed.

Lemma with_download_counts this (loop : Locals -> M Locals) n :
  (forall l t l' t', loop l t = (Ok l', t') ->
     List.length (returnData l') = (List.length (returnData l) + n)%nat) ->
  forall l t l' t',
    with_download this loop l t = (Ok l', t') ->
    List.length (returnData l') = (List.length (returnData l) + n)%nat.
Proof.
  intros Hloop l t l' t' H. unfold with_download in H.
  split_bind H wanted t1 H1; [|discriminate].
  split_bind H l1 t2 H2; [|discriminate].
  apply Hloop in H2. destruct wanted.
  - split_bind H name t3 H3; [|discriminate].
    split_bind H out t4 H4; [|discriminate].
    injection H as <- <-. simpl. apply download_all_length in H4. lia.
  - injection H as <- <-. exact H2.
Qed.

(** X2.  For the operations that answer each input item with one record,
    create, update, get, notify and delete of an issue, remove and get of
    an attachment, add, get, remove and update of a comment, create,
    delete and get of a user, a run that succeeds leaves as many records
    in [returnData] as there are input items. *)
Theorem one_record_for_each_item :
  forall toUpperCase JSON_parse this resource operation jiraVersion out t',
    nodeParameter this "resource" 0 = Some (JStr resource) ->
    nodeParameter this "operation" 0 = Some (JStr operation) ->
    nodeParameter this "jiraVersion" 0 = Some (JStr jiraVersion) ->
    In (resource, operation) one_record_operations ->
    run toUpperCase JSON_parse this = (Ok out, t') ->
    List.length out = inputLength this.
Proof.
  intros toUpperCase parse this resource operation jv out t' Hr Ho Hv Hin H.
  unfold run, execute in H. revert H. steps. intros H.
  assert (Hfinish : forall loop,
             operation_loop toUpperCase parse this resource operation jv = Some loop ->
             (forall l t l' t', loop l t = (Ok l', t') ->
                List.length (returnData l')
                = (List.length (returnData l) + inputLength this)%nat) ->
             List.length out = inputLength this).
  { intros loop Hloop Hcount. rewrite Hloop in H.
    split_bind H l1 t1 H1; [|discriminate].
    injection H as <- <-. now apply Hcount in H1. }
  assert (Heach : forall round,
             operation_loop toUpperCase parse this resource operation jv
             = Some (for_loop round 0 (inputLength this)) ->
             (forall i l t l' t', round i l t = (Ok l', t') ->
                List.length (returnData l') = S (List.length (returnData l))) ->
             List.length out = inputLength this).
  { intros round Hloop Hround. eapply Hfinish; [exact Hloop|].
    intros l t l1 t1. now apply for_loop_counts. }
  unfold one_record_operations in Hin. simpl in Hin.
  repeat (destruct Hin as [[= <- <-]|Hin];
          [ first
              [ eapply Heach; [reflexivity|];
                eauto using issue_create_adds_one, issue_update_adds_one,
                  issue_get_adds_one, issue_notify_adds_one, issue_delete_adds_one,
                  attachment_remove_adds_one, comment_add_adds_one,
                  comment_get_adds_one, comment_remove_adds_one,
                  comment_update_adds_one, user_create_adds_one,
                  user_delete_adds_one, user_get_adds_one
              | eapply Hfinish; [reflexivity|];
                apply with_download_counts; intros l t l1 t1;
                apply for_loop_counts; apply attachment_get_adds_one ]
          | ]).
  destruct Hin.
Qed.

Lemma one_record_witness :
  let this := Examples.context Examples.summary_then_whole in
  exists out sent,
    run Examples.upper Json.parse this = (Ok out, sent) /\ List.length out = 2%nat.
Proof.
  intros this.
  exists [ JObj [("key", JStr "A-1");
                 ("fields", JObj [("attachment", JArr Examples.attachments)])];
           JObj [] ].
  eexists. split; [reflexivity|].
  exact (one_record_for_each_item Examples.upper Json.parse this "issue" "get" "cloud" _ _
           eq_refl eq_refl eq_refl (or_intror (or_intror (or_introl eq_refl)))
           eq_refl).
Defined.

(** *** What is sent: read operations, and the API version of a server *)

Section SendsOnly.

Variable P : Request -> Prop.

Lemma sends_only_silent {A} (m : M A) :
  (forall t, exists o, m t = (o, t)) -> sends_only P m.
Proof.
  intros Hm t o t' H. destruct (Hm t) as [o' Ho]. rewrite Ho in H.
  injection H as <- <-. exists []. now rewrite app_nil_r.
Qed.

Lemma sends_only_ret {A} (a : A) : sends_only P (ret a).
Proof. apply sends_only_silent. intros t. now exists (Ok a). Qed.

Lemma sends_only_throw {A} (e : Exception) : sends_only P (@throw A e).
Proof. apply sends_only_silent. intros t. now exists (Err e). Qed.

Lemma sends_only_lift {A} (r : Result A) : sends_only P (lift r).
Proof. apply sends_only_silent. intros t. now exists r. Qed.

Lemma sends_only_bind {A B} (m : M A) (k : A -> M B) :
  sends_only P m -> (forall a, sends_only P (k a)) -> sends_only P (bind m k).
Proof.
  intros Hm Hk t o t' H. unfold bind in H.
  destruct (m t) as [[a|e] t1] eqn:Hfirst.
  - destruct (Hm _ _ _ Hfirst) as (s1 & -> & H1).
    destruct (Hk a _ _ _ H) as (s2 & -> & H2).
    exists (s1 ++ s2)%list. split; [now rewrite app_assoc|].
    apply Forall_app. now split.
  - injection H as <- <-. exact (Hm _ _ _ Hfirst).
Qed.

Lemma sends_only_getNodeParameter this name i :
  sends_only P (getNodeParameter this name i).
Proof.
  unfold getNodeParameter. destruct (nodeParameter this name i);
    [apply sends_only_ret | apply sends_only_throw].
Qed.

Lemma sends_only_getString this name i : sends_only P (getString this name i).
Proof.
  apply sends_only_bind; [apply sends_only_getNodeParameter|].
  intros []; first [apply sends_only_ret | apply sends_only_throw].
Qed.

Lemma sends_only_getBoolean this name i : sends_only P (getBoolean this name i).
Proof.
  apply sends_only_bind; [apply sends_only_getNodeParameter|].
  intros []; first [apply sends_only_ret | apply sends_only_throw].
Qed.

Lemma sends_only_getNumber this name i : sends_only P (getNumber this name i).
Proof.
  apply sends_only_bind; [apply sends_only_getNodeParameter|].
  intros []; first [apply sends_only_ret | apply sends_only_throw].
Qed.

Lemma sends_only_getObject this name i : sends_only P (getObject this name i).
Proof.
  apply sends_only_bind; [apply sends_only_getNodeParameter|].
  intros []; first [apply sends_only_ret | apply sends_only_throw].
Qed.

Lemma sends_only_send this r : P r -> sends_only P (send this r).
Proof.
  intros Hr t o t' H. unfold send in H.
  exists [r]. destruct (server this t r); injection H as <- <-; auto.
Qed.

Lemma sends_only_for_loop {S} (round : nat -> S -> M S) :
  (forall i s, sends_only P (round i s)) ->
  forall n i s, sends_only P (for_loop round i n s).
Proof.
  intros Hround. induction n as [|n IH]; intros i s; simpl.
  - apply sends_only_ret.
  - apply sends_only_bind; [apply Hround | intros s'; apply IH].
Qed.

End SendsOnly.

(** Reduce a goal on a computation to goals on the requests it sends. *)
Ltac sends_only_steps :=
  unfold push_apply, jiraSoftwareCloudApiRequest, jiraSoftwareCloudApiRequestWith,
    jiraSoftwareCloudApiRequestAllItems;
  repeat (cbv beta zeta;
          first [ apply sends_only_ret | apply sends_only_throw | apply sends_only_lift
                | apply sends_only_getString | apply sends_only_getBoolean
                | apply sends_only_getNumber | apply sends_only_getObject
                | apply sends_only_getNodeParameter
                | apply sends_only_bind; [|intros ?]
                | apply sends_only_send
                | match goal with
                  | |- sends_only _ (if ?c then _ else _) => destruct c
                  | |- sends_only _ (match ?x with _ => _ end) => destruct x
                  end ]).

Lemma sends_only_download_all P this binaryPropertyName entries :
  (forall content, P (mkRequest "" "GET" (JObj []) (JObj []) content None raw_bytes)) ->
  sends_only P (download_all this binaryPropertyName entries).
Proof.
  intros HP. induction entries as [|entry rest IH]; simpl.
  - apply sends_only_ret.
  - apply sends_only_bind; [|intros first; apply sends_only_bind;
                               [exact IH | intros; apply sends_only_ret]].
    unfold download. sends_only_steps. apply HP.
Qed.

Lemma sends_only_with_download P this loop l :
  (forall content, P (mkRequest "" "GET" (JObj []) (JObj []) content None raw_bytes)) ->
  (forall l0, sends_only P (loop l0)) ->
  sends_only P (with_download this loop l).
Proof.
  intros HP Hloop. unfold with_download.
  apply sends_only_bind; [apply sends_only_getBoolean | intros wanted].
  apply sends_only_bind; [apply Hloop | intros l1].
  destruct wanted; [|apply sends_only_ret].
  apply sends_only_bind; [apply sends_only_getString | intros name].
  apply sends_only_bind; [now apply sends_only_download_all | intros].
  apply sends_only_ret.
Qed.

Lemma run_sends_only toUpperCase P JSON_parse this resource operation jiraVersion :
  nodeParameter this "resource" 0 = Some (JStr resource) ->
  nodeParameter this "operation" 0 = Some (JStr operation) ->
  nodeParameter this "jiraVersion" 0 = Some (JStr jiraVersion) ->
  (forall loop,
      operation_loop toUpperCase JSON_parse this resource operation jiraVersion = Some loop ->
      forall l, sends_only P (loop l)) ->
  forall outcome sent, run toUpperCase JSON_parse this = (outcome, sent) -> Forall P sent.
Proof.
  intros Hr Ho Hv Hloop outcome sent. unfold run, execute. steps.
  destruct (operation_loop toUpperCase JSON_parse this resource operation jiraVersion)
    as [loop|] eqn:Hsome.
  - intros H.
    assert (Hall : sends_only P (l <- loop {| qs := []; returnData := [] |} ;;
                                 ret (returnData l))).
    { apply sends_only_bind; [now apply Hloop | intros; apply sends_only_ret]. }
    destruct (Hall _ _ _ H) as (s & -> & Hs). exact Hs.
  - intros [= <- <-]. constructor.
Qed.

(** X3.  The operations that read from Jira change nothing there: a run of
    issue get, getAll, changelog or transitions, of attachment get or
    getAll (with or without the download of the files), of comment get or
    getAll, or of user get sends GET requests only, but for the search of
    issue getAll, a POST to [/api/2/search].  This holds for a run that
    fails as for one that succeeds. *)
Theorem reading_operations_only_read :
  forall toUpperCase JSON_parse this resource operation jiraVersion outcome sent,
    nodeParameter this "resource" 0 = Some (JStr resource) ->
    nodeParameter this "operation" 0 = Some (JStr operation) ->
    nodeParameter this "jiraVersion" 0 = Some (JStr jiraVersion) ->
    In (resource, operation) reading_operations ->
    run toUpperCase JSON_parse this = (outcome, sent) ->
    Forall reads sent.
Proof.
  intros toUpperCase parse this resource operation jv outcome sent Hr Ho Hv Hin.
  apply (run_sends_only toUpperCase reads parse this resource operation jv Hr Ho Hv).
  intros loop Hloop l. revert Hloop.
  assert (Hget : forall content,
             reads (mkRequest "" "GET" (JObj []) (JObj []) content None raw_bytes))
    by (intros; now left).
  unfold reading_operations in Hin. simpl in Hin.
  repeat (destruct Hin as [[= <- <-]|Hin];
          [ intros [= <-];
            first [ apply sends_only_with_download; [exact Hget | intros l0] | idtac ];
            apply sends_only_for_loop; intros i s;
            unfold issue_get, issue_getAll, issue_changelog, issue_transitions,
              attachment_get, attachment_getAll, comment_get, comment_getAll, user_get;
            sends_only_steps;
            first [ now left | right; split; reflexivity ]
          | ]).
  destruct Hin.
Qed.

Lemma reading_operations_witness :
  let this := Examples.context Examples.summary_then_whole in
  List.length (snd (run Examples.upper Json.parse this)) = 2%nat /\
  Forall reads (snd (run Examples.upper Json.parse this)).
Proof.
  intros this. split; [reflexivity|].
  exact (reading_operations_only_read Examples.upper Json.parse this "issue" "get" "cloud" _ _
           eq_refl eq_refl eq_refl (or_introl eq_refl) (surjective_pairing _)).
Defined.

(** X4.  On a Jira server every request goes to version 2 of the REST API:
    with [jiraVersion = server], whatever the resource and the operation,
    the endpoint of each request starts with [/api/2/]; the only other
    requests are the downloads of the attachment resource, which GET the
    address Jira gave for the file. *)
Theorem server_requests_use_version_2 :
  forall toUpperCase JSON_parse this resource operation outcome sent,
    nodeParameter this "resource" 0 = Some (JStr resource) ->
    nodeParameter this "operation" 0 = Some (JStr operation) ->
    nodeParameter this "jiraVersion" 0 = Some (JStr "server") ->
    run toUpperCase JSON_parse this = (outcome, sent) ->
    Forall version_2 sent.
Proof.
  intros toUpperCase parse this resource operation outcome sent Hr Ho Hv.
  apply (run_sends_only toUpperCase version_2 parse this resource operation "server" Hr Ho Hv).
  intros loop Hloop l. revert Hloop.
  assert (Hget : forall content,
             version_2 (mkRequest "" "GET" (JObj []) (JObj []) content None raw_bytes))
    by (intros; now right).
  unfold operation_loop.
  repeat match goal with
         | |- context [if ?c then _ else _] => destruct c
         end;
    intros [= <-];
    first [ apply sends_only_with_download; [exact Hget | intros l0] | idtac ];
    apply sends_only_for_loop; intros i s;
    unfold issue_create, issue_update, issue_get, issue_getAll, issue_changelog,
      issue_notify, issue_transitions, issue_delete, attachment_add, attachment_remove,
      attachment_get, attachment_getAll, comment_add, comment_get, comment_getAll,
      comment_remove, comment_update, comment_body, user_create, user_delete, user_get;
    sends_only_steps; left; reflexivity.
Qed.

Lemma server_requests_witness :
  let this := Examples.context [Examples.plain_comment "add" "server"] in
  List.length (snd (run Examples.upper Json.parse this)) = 1%nat /\
  Forall version_2 (snd (run Examples.upper Json.parse this)).
Proof.
  intros this. split; [reflexivity|].
  exact (server_requests_use_version_2 Examples.upper Json.parse this "issueComment" "add" _ _
           eq_refl eq_refl eq_refl (surjective_pairing _)).
Defined.

(** *** A failed request ends the run *)

Lemma answered_app this t s1 s2 :
  answered this t (s1 ++ s2)%list
  = answered this t s1 && answered this (t ++ s1)%list s2.
Proof.
  revert t. induction s1 as [|r s1 IH]; intros t; simpl.
  - now rewrite app_nil_r.
  - destruct (server this t r); [|reflexivity].
    rewrite IH. now rewrite <- app_assoc.
Qed.

Section StopsAtFailure.

Variable this : IExecuteFunctions.

Lemma stops_silent {A} (m : M A) :
  (forall t, exists o, m t = (o, t)) -> stops_at_failure this m.
Proof.
  intros Hm t o t' H. destruct (Hm t) as [o' Ho]. rewrite Ho in H.
  injection H as <- <-. exists []. split; [now rewrite app_nil_r | now left].
Qed.

Lemma stops_ret {A} (a : A) : stops_at_failure this (ret a).
Proof. apply stops_silent. intros t. now exists (Ok a). Qed.

Lemma stops_throw {A} (e : Exception) : stops_at_failure this (@throw A e).
Proof. apply stops_silent. intros t. now exists (Err e). Qed.

Lemma stops_lift {A} (r : Result A) : stops_at_failure this (lift r).
Proof. apply stops_silent. intros t. now exists r. Qed.

Lemma stops_bind {A B} (m : M A) (k : A -> M B) :
  stops_at_failure this m -> (forall a, stops_at_failure this (k a)) ->
  stops_at_failure this (bind m k).
Proof.
  intros Hm Hk t o t' H. unfold bind in H.
  destruct (m t) as [[a|e] t1] eqn:Hfirst.
  - destruct (Hm _ _ _ Hfirst) as (s1 & -> & [H1|(init & r & _ & _ & _ & [=])]).
    destruct (Hk a _ _ _ H) as (s2 & -> & H2).
    exists (s1 ++ s2)%list. split; [now rewrite app_assoc|].
    destruct H2 as [H2|(init & r & -> & Hinit & Hr & ->)].
    + left. rewrite answered_app, H1. exact H2.
    + right. exists (s1 ++ init)%list, r.
      rewrite answered_app, H1. repeat split.
      * now rewrite app_assoc.
      * exact Hinit.
      * now rewrite app_assoc.
  - injection H as <- <-.
    destruct (Hm _ _ _ Hfirst) as (s1 & -> & [H1|(init & r & -> & Hinit & Hr & [= ->])]).
    + exists s1. split; [reflexivity | now left].
    + exists (init ++ [r])%list. split; [reflexivity|].
      right. now exists init, r.
Qed.

Lemma stops_getNodeParameter name i :
  stops_at_failure this (getNodeParameter this name i).
Proof.
  unfold getNodeParameter. destruct (nodeParameter this name i);
    [apply stops_ret | apply stops_throw].
Qed.

Lemma stops_getString name i : stops_at_failure this (getString this name i).
Proof.
  apply stops_bind; [apply stops_getNodeParameter|].
  intros []; first [apply stops_ret | apply stops_throw].
Qed.

Lemma stops_getBoolean name i : stops_at_failure this (getBoolean this name i).
Proof.
  apply stops_bind; [apply stops_getNodeParameter|].
  intros []; first [apply stops_ret | apply stops_throw].
Qed.

Lemma stops_getNumber name i : stops_at_failure this (getNumber this name i).
Proof.
  apply stops_bind; [apply stops_getNodeParameter|].
  intros []; first [apply stops_ret | apply stops_throw].
Qed.

Lemma stops_getObject name i : stops_at_failure this (getObject this name i).
Proof.
  apply stops_bind; [apply stops_getNodeParameter|].
  intros []; first [apply stops_ret | apply stops_throw].
Qed.

Lemma stops_send r : stops_at_failure this (send this r).
Proof.
  intros t o t' H. unfold send in H. exists [r].
  destruct (server this t r) as [v|] eqn:Hr; injection H as <- <-;
    (split; [reflexivity|]).
  - left. simpl. now rewrite Hr.
  - right. exists [], r. now rewrite app_nil_r.
Qed.

Lemma stops_for_loop {S} (round : nat -> S -> M S) :
  (forall i s, stops_at_failure this (round i s)) ->
  forall n i s, stops_at_failure this (for_loop round i n s).
Proof.
  intros Hround. induction n as [|n IH]; intros i s; simpl.
  - apply stops_ret.
  - apply stops_bind; [apply Hround | intros s'; apply IH].
Qed.

End StopsAtFailure.

Ltac stops_steps :=
  unfold push_apply, jiraSoftwareCloudApiRequest, jiraSoftwareCloudApiRequestWith,
    jiraSoftwareCloudApiRequestAllItems;
  repeat (cbv beta zeta;
          first [ apply stops_ret | apply stops_throw | apply stops_lift
                | apply stops_getString | apply stops_getBoolean
                | apply stops_getNumber | apply stops_getObject
                | apply stops_getNodeParameter
                | apply stops_send
                | apply stops_bind; [|intros ?]
                | match goal with
                  | |- stops_at_failure _ (if ?c then _ else _) => destruct c
                  | |- stops_at_failure _ (match ?x with _ => _ end) => destruct x
                  end ]).

Lemma stops_download_all this binaryPropertyName entries :
  stops_at_failure this (download_all this binaryPropertyName entries).
Proof.
  induction entries as [|entry rest IH]; simpl.
  - apply stops_ret.
  - apply stops_bind; [|intros first; apply stops_bind;
                          [exact IH | intros; apply stops_ret]].
    unfold download. stops_steps.
Qed.

Lemma stops_with_download this loop l :
  (forall l0, stops_at_failure this (loop l0)) ->
  stops_at_failure this (with_download this loop l).
Proof.
  intros Hloop. unfold with_download.
  apply stops_bind; [apply stops_getBoolean | intros wanted].
  apply stops_bind; [apply Hloop | intros l1].
  destruct wanted; [|apply stops_ret].
  apply stops_bind; [apply stops_getString | intros name].
  apply stops_bind; [apply stops_download_all | intros].
  apply stops_ret.
Qed.

Lemma stops_execute toUpperCase JSON_parse this :
  stops_at_failure this (execute toUpperCase JSON_parse this).
Proof.
  unfold execute.
  apply stops_bind; [apply stops_getString | intros resource].
  apply stops_bind; [apply stops_getString | intros operation].
  apply stops_bind; [apply stops_getString | intros jiraVersion].
  destruct (operation_loop toUpperCase JSON_parse this resource operation jiraVersion)
    as [loop|] eqn:Hloop; [|apply stops_ret].
  apply stops_bind; [|intros; apply stops_ret].
  revert Hloop. unfold operation_loop.
  repeat match goal with
         | |- context [if ?c then _ else _] => destruct c
         end;
    intros [= <-];
    first [ apply stops_with_download; intros l0 | idtac ];
    apply stops_for_loop; intros i s;
    unfold issue_create, issue_update, issue_get, issue_getAll, issue_changelog,
      issue_notify, issue_transitions, issue_delete, attachment_add, attachment_remove,
      attachment_get, attachment_getAll, comment_add, comment_get, comment_getAll,
      comment_remove, comment_update, comment_body, user_create, user_delete, user_get;
    stops_steps.
Qed.

(** X5.  [execute] does not go on after a request that failed, and does
    not send it again: in the requests of a run, whatever the resource, the
    operation and the number of input items, every request but the last
    was answered; and when the last one was not, the run ends with the
    failure of that request, and returns no record. *)
Theorem execute_stops_at_the_failed_request :
  forall toUpperCase JSON_parse this outcome sent,
    run toUpperCase JSON_parse this = (outcome, sent) ->
    ends_at_failure this [] sent outcome.
Proof.
  intros toUpperCase parse this outcome sent H.
  destruct (stops_execute toUpperCase parse this _ _ _ H) as (s & -> & Hs). exact Hs.
Qed.

Lemma execute_stops_witness :
  let this := Examples.unreachable Examples.summary_then_whole in
  List.length (snd (run Examples.upper Json.parse this)) = 1%nat /\
  ends_at_failure this [] (snd (run Examples.upper Json.parse this))
    (fst (run Examples.upper Json.parse this)).
Proof.
  intros this. split; [reflexivity|].
  exact (execute_stops_at_the_failed_request Examples.upper Json.parse this _ _
           (surjective_pairing _)).
Defined.

(** *** The requests of issue update and issue create *)

(** The requests added to the trace, read off the equation that ends a run
    taken apart. *)
Ltac trace_shape :=
  first [ exists []; split; [now rewrite app_nil_r|]
        | eexists; split; [rewrite <- ?app_assoc; reflexivity|] ].

(** X6.  Issue update with a [statusId] moves the issue before it edits
    it: a round that gets through the issue-type lookup and the sub-task
    check sends the lookup, then the transition POST with the status as
    [transition.id], then the PUT of the fields, and nothing else.  A
    transition that fails ends the round with its failure: the PUT is not
    sent.  Without a [statusId] no transition is sent.  The round succeeds
    when the PUT is answered, with the record [{success: true}] whatever
    Jira answered, and ends with the failure of the PUT otherwise.  A
    round that sends nothing, or the lookup alone, ends with an error. *)
Theorem update_moves_the_issue_before_the_edit :
  forall toUpperCase this jiraVersion i l t outcome t' issueKey updateFields,
    nodeParameter this "issueKey" i = Some (JStr issueKey) ->
    nodeParameter this "updateFields" i = Some (JObj updateFields) ->
    issue_update toUpperCase this jiraVersion i l t = (outcome, t') ->
    let statusId := obj_get updateFields "statusId" in
    let move := transition_request issueKey statusId in
    let asked := (t ++ [update_lookup])%list in
    exists sent, t' = (t ++ sent)%list /\
      ((sent = [] /\
        exists e, update_fields jiraVersion updateFields = Err e /\ outcome = Err e) \/
       (sent = [update_lookup] /\ exists e, outcome = Err e) \/
       (truthy statusId = true /\ sent = [update_lookup; move] /\
        server this asked move = None /\ outcome = Err NodeApiError) \/
       (exists fields,
          sent = (if truthy statusId
                  then [update_lookup; move; edit_request issueKey fields]
                  else [update_lookup; edit_request issueKey fields]) /\
          (truthy statusId = true -> server this asked move <> None) /\
          match server this (t ++ removelast sent)%list (edit_request issueKey fields) with
          | Some _ => outcome = Ok (mkLocals (qs l) (returnData l ++ [success])%list)
          | None => outcome = Err NodeApiError
          end)).
Proof.
  intros toUpperCase this jv i l t outcome t' issueKey updateFields Hk Hu H.
  unfold issue_update in H. revert H. steps. intros H.
  crack H; injection H as <- <-; trace_shape;
    try match goal with
        | Hb : truthy (obj_get _ "statusId") = _ |- _ => rewrite Hb
        end;
    first [ left; split; [reflexivity|]; eexists; split; reflexivity
          | right; left; split; [reflexivity|]; eexists; reflexivity
          | right; right; left; repeat split; assumption
          | right; right; right; eexists; split; [reflexivity|];
            split;
            [ first [ discriminate
                    | intros _; unfold transition_request, update_lookup; congruence ]
            | simpl removelast;
              unfold edit_request, transition_request, update_lookup;
              rewrite <- ?app_assoc in *; simpl app in *;
              match goal with
              | Hs : server _ ?h ?r = _ |- context [server _ ?h ?r'] =>
                  change r' with r; rewrite Hs
              end; reflexivity ] ].
Qed.

Lemma update_moves_witness :
  let this := Examples.context [Examples.update_item Examples.moved] in
  let move := transition_request "A-1" (JStr "31") in
  exists fields,
    issue_update Examples.upper this "cloud" 0 Examples.start []
    = (Ok (mkLocals [] [success]), [update_lookup; move; edit_request "A-1" fields]).
Proof.
  intros this move.
  destruct (update_moves_the_issue_before_the_edit Examples.upper this "cloud" 0
              Examples.start [] _ _ "A-1" Examples.moved eq_refl eq_refl
              (surjective_pairing _))
    as (sent & Htrace & [[-> _]|[[-> _]|[(_ & -> & _)|(fields & -> & _ & Hout)]]]);
    try discriminate Htrace.
  exists fields. apply injective_projections; [exact Hout | exact Htrace].
Defined.

Lemma create_fields_query jiraVersion summary projectId issueTypeId additionalFields
  q fields q' :
  create_fields jiraVersion summary projectId issueTypeId additionalFields q
  = Ok (fields, q') ->
  q' = assign_if (truthy (obj_get additionalFields "updateHistory")) q
         "updateHistory" (obj_get additionalFields "updateHistory").
Proof.
  unfold create_fields, rbind. intros H.
  repeat match type of H with
         | context [match ?x with _ => _ end] => destruct x; try discriminate H
         end; now injection H as _ <-.
Qed.

(** X7.  Issue create sends at most two requests for a record: the
    issue-type lookup, then the POST to [/api/2/issue] whose body is
    [{fields}].  The [updateHistory] option goes into the query string of
    the lookup; the POST carries no query string.  The record of the round
    is the answer to the POST as it came, and a POST that fails ends the
    round with its failure.  A round that sends nothing, or the lookup
    alone, ends with an error. *)
Theorem create_looks_up_then_posts :
  forall toUpperCase this jiraVersion i l t outcome t' additionalFields,
    nodeParameter this "additionalFields" i = Some (JObj additionalFields) ->
    issue_create toUpperCase this jiraVersion i l t = (outcome, t') ->
    let updateHistory := obj_get additionalFields "updateHistory" in
    let query := assign_if (truthy updateHistory) (qs l) "updateHistory" updateHistory in
    let asked := (t ++ [create_lookup query])%list in
    exists sent, t' = (t ++ sent)%list /\
      ((sent = [] /\ exists e, outcome = Err e) \/
       (sent = [create_lookup query] /\ exists e, outcome = Err e) \/
       exists fields,
         sent = [create_lookup query; create_request fields] /\
         match server this asked (create_request fields) with
         | Some answer =>
             outcome = Ok (mkLocals query (returnData l ++ [answer])%list)
         | None => outcome = Err NodeApiError
         end).
Proof.
  intros toUpperCase this jv i l t outcome t' additionalFields Ha H.
  unfold issue_create in H.
  expose H. rewrite Ha in H. cbv beta iota in H.
  cases H; injection H as <- <-;
    try match goal with
        | Hc : create_fields _ _ _ _ _ _ = Ok _ |- _ =>
            apply create_fields_query in Hc; subst
        end;
    trace_shape;
    first [ left; split; [reflexivity|]; eexists; reflexivity
          | right; left; split; [reflexivity|]; eexists; reflexivity
          | right; right; eexists; split; [reflexivity|];
            unfold create_request, create_lookup;
            match goal with
            | Hs : server _ _ ?r = _ |- context [server _ _ ?r'] =>
                change r' with r; rewrite Hs
            end; reflexivity ].
Qed.

Lemma create_looks_up_witness :
  let this := Examples.context [Examples.create_item "10001" []] in
  exists fields,
    issue_create Examples.upper this "cloud" 0 Examples.start []
    = (Ok (mkLocals [] [JObj [("key", JStr "A-9")]]),
       [create_lookup []; create_request fields]).
Proof.
  intros this.
  destruct (create_looks_up_then_posts Examples.upper this "cloud" 0 Examples.start []
              _ _ [] eq_refl (surjective_pairing _))
    as (sent & Htrace & [[-> _]|[[-> _]|(fields & -> & Hout)]]);
    try discriminate Htrace.
  exists fields. apply injective_projections; [exact Hout | exact Htrace].
Defined.

(** *** Custom fields *)

Lemma obj_set_keys (o : IDataObject) (k : string) (v : JsValue) :
  map fst (obj_set o k v)
  = if obj_has o k then map fst o else (map fst o ++ [k])%list.
Proof.
  induction o as [|[k' v'] o IH]; simpl; [reflexivity|].
  destruct (String.eqb_spec k' k) as [->|Hne]; simpl; [reflexivity|].
  rewrite IH. now destruct (obj_has o k).
Qed.

Lemma obj_has_keys (o : IDataObject) (k : string) :
  obj_has o k = true <-> In k (map fst o).
Proof.
  induction o as [|[k' v'] o IH]; simpl; [easy|].
  rewrite orb_true_iff, IH, String.eqb_eq. tauto.
Qed.

Lemma obj_set_NoDup (o : IDataObject) (k : string) (v : JsValue) :
  NoDup (map fst o) -> NoDup (map fst (obj_set o k v)).
Proof.
  intros Hnd. rewrite obj_set_keys. destruct (obj_has o k) eqn:E; [exact Hnd|].
  apply NoDup_app; [exact Hnd | constructor; [easy | constructor] |].
  intros x Hx [<-|[]]. apply obj_has_keys in Hx. congruence.
Qed.

Lemma obj_get_assign (target source : IDataObject) (k : string) :
  NoDup (map fst source) ->
  obj_get (obj_assign target source) k
  = if obj_has source k then obj_get source k else obj_get target k.
Proof.
  unfold obj_assign. revert target.
  induction source as [|[k' v] s IH]; intros target Hnd; simpl; [reflexivity|].
  inversion Hnd as [|? ? Hnot Hrest]; subst.
  rewrite IH by exact Hrest.
  destruct (String.eqb_spec k' k) as [->|Hne]; simpl.
  - destruct (obj_has s k) eqn:E.
    + apply obj_has_keys in E. contradiction.
    + apply obj_get_set_same.
  - destruct (obj_has s k); [reflexivity | now apply obj_get_set_other].
Qed.

Lemma reduce_custom_fields_get values :
  forall obj data,
    reduce_custom_fields values obj = Ok data ->
    (NoDup (map fst obj) -> NoDup (map fst data)) /\
    forall key,
      obj_get data key
      = match custom_value values key with
        | Some v => v
        | None => obj_get obj key
        end /\
      obj_has data key
      = match custom_value values key with
        | Some _ => true
        | None => obj_has obj key
        end.
Proof.
  induction values as [|value rest IH]; intros obj data H; simpl in H.
  - injection H as <-. now split.
  - unfold rbind in H.
    destruct (prop value "fieldId") as [fieldId|] eqn:Hid; [|discriminate].
    destruct (prop value "fieldValue") as [fieldValue|] eqn:Hval; [|discriminate].
    destruct (IH _ _ H) as [Hnd Hkey]. split.
    + intros Hobj. apply Hnd. now apply obj_set_NoDup.
    + intros key. destruct (Hkey key) as [Hget Hhas]. simpl.
      rewrite Hget, Hhas, Hid, Hval.
      destruct (custom_value rest key); [now split|].
      rewrite obj_has_set.
      destruct (String.eqb_spec (to_string fieldId) key) as [<-|Hne]; simpl.
      * split; [apply obj_get_set_same | reflexivity].
      * split; [now apply obj_get_set_other | reflexivity].
Qed.

Lemma assign_custom_fields_get source fields fields' values key v :
  prop (obj_get source "customFieldsUi") "customFieldsValues" = Ok (JArr values) ->
  assign_custom_fields source fields = Ok fields' ->
  custom_value values key = Some v ->
  obj_get fields' key = v.
Proof.
  intros Hvalues H Hkey. unfold assign_custom_fields in H.
  destruct (truthy (obj_get source "customFieldsUi")) eqn:Hui.
  2:{ destruct (obj_get source "customFieldsUi") as [| |[]|n|s| |]; discriminate. }
  rewrite Hvalues in H. simpl in H. unfold rbind in H.
  destruct (reduce_custom_fields values []) as [data|] eqn:Hdata; [|discriminate].
  injection H as <-.
  destruct (reduce_custom_fields_get _ _ _ Hdata) as [Hnd Hget].
  rewrite obj_get_assign by (apply Hnd; constructor).
  destruct (Hget key) as [-> ->]. now rewrite Hkey.
Qed.

(** X8.  The custom fields of issue update and issue create are written
    into [fields] after the standard ones, one entry after the other: the
    last entry of [customFieldsValues] that names a field decides its
    value, also when the name is that of a standard field such as
    [summary] or [description], whose own value is then lost.  (The check
    of the sub-task types comes after, and may still set [parent].) *)
Theorem last_custom_field_entry_decides :
  forall jiraVersion source values key v,
    prop (obj_get source "customFieldsUi") "customFieldsValues" = Ok (JArr values) ->
    custom_value values key = Some v ->
    (forall fields,
        update_fields jiraVersion source = Ok fields -> obj_get fields key = v) /\
    (forall summary projectId issueTypeId q fields q',
        create_fields jiraVersion summary projectId issueTypeId source q
        = Ok (fields, q') ->
        obj_get fields key = v).
Proof.
  intros jv source values key v Hvalues Hkey. split.
  - intros fields H. unfold update_fields in H.
    eapply assign_custom_fields_get; eauto.
  - intros summary projectId issueTypeId q fields q' H.
    unfold create_fields, rbind in H.
    destruct (if truthy (obj_get source "componentIds") then _ else _)
      as [standard|]; [|discriminate].
    destruct (assign_custom_fields source standard) as [all|] eqn:Hall; [|discriminate].
    injection H as <- _. eapply assign_custom_fields_get; eauto.
Qed.

Lemma last_custom_field_witness :
  update_fields "cloud" Examples.overridden
  = Ok [("summary", JStr "second")] /\
  obj_get [("summary", JStr "second")] "summary" = JStr "second".
Proof.
  split; [reflexivity|].
  exact (proj1 (last_custom_field_entry_decides "cloud" Examples.overridden
                  Examples.twice "summary" (JStr "second") eq_refl eq_refl)
           _ eq_refl).
Defined.

(** *** The users and groups of a notification *)




(** *** The options of a comment *)

Lemma obj_has_assign (target source : IDataObject) (k : string) :
  obj_has (obj_assign target source) k = obj_has target k || obj_has source k.
Proof.
  unfold obj_assign. revert target.
  induction source as [|[k' v] s IH]; intros target; simpl.
  - now rewrite orb_false_r.
  - rewrite IH, obj_has_set. now rewrite orb_assoc, (orb_comm (k' =? k)).
Qed.

Lemma obj_has_delete (o : IDataObject) (k k' : string) :
  obj_has (obj_delete o k) k' = negb (k =? k') && obj_has o k'.
Proof.
  induction o as [|[k0 v0] o IH]; simpl; [now rewrite andb_false_r|].
  destruct (String.eqb_spec k0 k) as [->|Hne]; simpl; rewrite IH.
  - now destruct (k =? k').
  - destruct (String.eqb_spec k0 k') as [->|Hne']; simpl; [|reflexivity].
    destruct (String.eqb_spec k k'); [congruence | reflexivity].
Qed.

Lemma obj_get_delete (o : IDataObject) (k k' : string) :
  k <> k' -> obj_get (obj_delete o k) k' = obj_get o k'.
Proof.
  intros Hne. induction o as [|[k0 v0] o IH]; simpl; [reflexivity|].
  destruct (String.eqb_spec k0 k) as [->|Hk]; simpl.
  - destruct (String.eqb_spec k k'); [contradiction | exact IH].
  - now rewrite IH.
Qed.

Lemma obj_delete_NoDup (o : IDataObject) (k : string) :
  NoDup (map fst o) -> NoDup (map fst (obj_delete o k)).
Proof.
  induction o as [|[k0 v0] o IH]; simpl; intros Hnd; [constructor|].
  inversion Hnd as [|? ? Hnot Hrest]; subst.
  destruct (k0 =? k); [now apply IH|]. simpl. constructor; [|now apply IH].
  intros Hin. apply Hnot. apply obj_has_keys in Hin. apply obj_has_keys.
  rewrite obj_has_delete in Hin. now apply andb_true_iff in Hin.
Qed.

Lemma obj_get_assign_empty (o : IDataObject) (k : string) :
  NoDup (map fst o) -> obj_get (obj_assign [] o) k = obj_get o k.
Proof.
  intros Hnd. rewrite obj_get_assign by exact Hnd.
  destruct (obj_has o k) eqn:E; [reflexivity|].
  now rewrite (obj_get_absent _ _ E).
Qed.

Lemma sends_option e m (o : IDataObject) v q u p ro k :
  NoDup (map fst o) -> k <> "body" ->
  sends (mkRequest e m (JObj (obj_set (obj_assign [] o) "body" v)) q u p ro) k
  = if obj_has o k then Some (obj_get o k) else None.
Proof.
  intros Hnd Hk. unfold sends. cbn [body].
  rewrite obj_has_set, obj_has_assign, obj_get_set_other by congruence.
  rewrite obj_get_assign_empty by exact Hnd.
  destruct (String.eqb_spec "body" k); [congruence | reflexivity].
Qed.

Lemma comment_body_given JSON_parse this jiraVersion i v :
  comment_given JSON_parse this jiraVersion i v ->
  exists jsonParameters,
    nodeParameter this "jsonParameters" 0 = Some (JBool jsonParameters) /\
    forall body0 t,
      comment_body JSON_parse this jiraVersion jsonParameters i body0 t
      = (Ok (obj_set body0 "body" v), t).
Proof.
  intros [(Hj & comment & Hc & ->)|(Hj & commentJson & Hc & Hp & Hne)].
  - exists false. split; [exact Hj | intros; now apply comment_body_plain].
  - exists true. split; [exact Hj|].
    intros; now apply comment_body_valid with commentJson.
Qed.

(** X10.  The options of a comment.  For a comment that is given, as text
    or as raw JSON that parses, comment add sends one POST: the options go
    in its body, beside [body]; an [expand] option that is set is taken
    out of the body and sent in the query string.  Comment update sends
    one PUT: the options go in its query string, and its body holds the
    comment and nothing else. *)
Theorem comment_options_travel :
  forall JSON_parse this jiraVersion i l t issueKey options v,
    nodeParameter this "issueKey" i = Some (JStr issueKey) ->
    nodeParameter this "options" i = Some (JObj options) ->
    comment_given JSON_parse this jiraVersion i v ->
    NoDup (map fst options) ->
    (exists outcome r q,
        comment_add JSON_parse this jiraVersion i l t = (outcome, (t ++ [r])%list) /\
        method r = "POST" /\ endpoint r = comment_path jiraVersion issueKey /\
        query r = JObj q /\ sends r "body" = Some v /\
        (truthy (obj_get options "expand") = true ->
         obj_get q "expand" = obj_get options "expand" /\
         sends r "expand" = None) /\
        (forall k, k <> "expand" -> k <> "body" ->
           sends r k = if obj_has options k then Some (obj_get options k) else None)) /\
    (forall commentId,
        nodeParameter this "commentId" i = Some (JStr commentId) ->
        exists outcome r q,
          comment_update JSON_parse this jiraVersion i l t
          = (outcome, (t ++ [r])%list) /\
          method r = "PUT" /\
          endpoint r = comment_path jiraVersion issueKey ++ "/" ++ commentId /\
          body r = JObj [("body", v)] /\ query r = JObj q /\
          forall k, obj_has options k = true -> obj_get q k = obj_get options k).
Proof.
  intros parse this jv i l t issueKey options v Hk Ho Hgiven Hnd.
  set (expand := obj_get options "expand").
  set (kept := if truthy expand then obj_delete options "expand" else options).
  assert (Hkept : NoDup (map fst kept)).
  { subst kept. destruct (truthy expand); [now apply obj_delete_NoDup | exact Hnd]. }
  assert (Hhas : forall k, k <> "expand" -> obj_has kept k = obj_has options k).
  { intros k Hne. subst kept. destruct (truthy expand); [|reflexivity].
    rewrite obj_has_delete.
    destruct (String.eqb_spec "expand" k); [congruence | reflexivity]. }
  assert (Hget : forall k, k <> "expand" -> obj_get kept k = obj_get options k).
  { intros k Hne. subst kept. destruct (truthy expand); [|reflexivity].
    apply obj_get_delete. congruence. }
  split.
  - destruct (comment_body_given parse this jv i v Hgiven)
      as (jsonParameters & Hj & Hbody).
    unfold comment_add. steps. fold expand. fold kept.
    unfold jiraSoftwareCloudApiRequest.
    match goal with
    | |- context [bind (send this ?r) (fun x => ret (@?f x)) t] =>
        destruct (send_then_ret this r t f) as [outcome Hrun]; exists outcome, r
    end.
    eexists. split; [exact Hrun|]. split; [reflexivity|]. split; [reflexivity|].
    split; [reflexivity|]. split; [apply sends_set|]. split.
    + intros Hexpand. rewrite Hexpand. split; [apply obj_get_set_same|].
      rewrite sends_option by (exact Hkept || discriminate).
      subst kept. fold expand in Hexpand. rewrite Hexpand, obj_has_delete. reflexivity.
    + intros k Hk1 Hk2. rewrite sends_option by assumption.
      now rewrite Hhas, Hget by assumption.
  - intros commentId Hid.
    destruct (comment_body_given parse this jv i v Hgiven)
      as (jsonParameters & Hj & Hbody).
    unfold comment_update. steps. fold expand. fold kept.
    unfold jiraSoftwareCloudApiRequest.
    match goal with
    | |- context [bind (send this ?r) (fun x => ret (@?f x)) t] =>
        destruct (send_then_ret this r t f) as [outcome Hrun]; exists outcome, r
    end.
    eexists. split; [exact Hrun|]. split; [reflexivity|]. split; [reflexivity|].
    split; [reflexivity|]. split; [reflexivity|].
    intros k Hhask. rewrite obj_get_assign by exact Hkept.
    destruct (String.eqb_spec k "expand") as [->|Hne].
    + subst kept. fold expand in Hhask |- *. destruct (truthy expand) eqn:Hexpand.
      * rewrite obj_has_delete. simpl. unfold assign_if. apply obj_get_set_same.
      * rewrite Hhask. reflexivity.
    + rewrite Hhas, Hhask, Hget by assumption. reflexivity.
Qed.

Lemma comment_options_witness :
  let this := Examples.context [Examples.plain_comment "add" "cloud"] in
  exists outcome r q,
    comment_add Json.parse this "cloud" 0 Examples.start [] = (outcome, [r]) /\
    method r = "POST" /\ endpoint r = "/api/3/issue/A-1/comment" /\
    query r = JObj q /\
    sends r "body" = Some (comment_as_sent "cloud" "done") /\
    obj_get q "expand" = JStr "renderedBody" /\ sends r "expand" = None.
Proof.
  intros this.
  assert (Hnd : NoDup (map fst [("expand", JStr "renderedBody")]))
    by (constructor; [intros [] | constructor]).
  assert (Hgiven : comment_given Json.parse this "cloud" 0 (comment_as_sent "cloud" "done"))
    by (left; split; [reflexivity | exists "done"; split; reflexivity]).
  destruct (proj1 (comment_options_travel Json.parse this "cloud" 0 Examples.start []
                     "A-1" [("expand", JStr "renderedBody")] _
                     eq_refl eq_refl Hgiven Hnd))
    as (outcome & r & q & Hrun & Hmethod & Hendpoint & Hquery & Hbody & Hexpand & _).
  exists outcome, r, q. destruct (Hexpand eq_refl) as [Hq Hnone].
  repeat split; assumption.
Defined.

(** *** Raw JSON *)

(** X21.  Raw JSON that parses is forwarded as parsed.  In raw-JSON mode,
    comment add and comment update stop with the validation error, the
    trace unchanged, when the text is not JSON, and send one request with
    the parsed value as its [body] property when the text is JSON for
    anything but the empty string.  Issue notify in raw-JSON mode sends
    its POST with, under [to] and under [restrict], what the two texts
    parse to, when that is truthy. *)
Theorem raw_json_is_forwarded_as_parsed :
  (forall JSON_parse this jiraVersion i l t issueKey options commentJson,
      nodeParameter this "jsonParameters" 0 = Some (JBool true) ->
      nodeParameter this "issueKey" i = Some (JStr issueKey) ->
      nodeParameter this "options" i = Some (JObj options) ->
      nodeParameter this "commentJson" i = Some (JStr commentJson) ->
      (JSON_parse commentJson = None ->
       comment_add JSON_parse this jiraVersion i l t
       = (Err (NodeOperationError invalid_document), t) /\
       forall commentId,
         nodeParameter this "commentId" i = Some (JStr commentId) ->
         comment_update JSON_parse this jiraVersion i l t
         = (Err (NodeOperationError invalid_document), t)) /\
      (forall json,
          JSON_parse commentJson = Some json -> json <> JStr "" ->
          (exists outcome r,
              comment_add JSON_parse this jiraVersion i l t = (outcome, (t ++ [r])%list) /\
              method r = "POST" /\ sends r "body" = Some json) /\
          (forall commentId,
              nodeParameter this "commentId" i = Some (JStr commentId) ->
              exists outcome r,
                comment_update JSON_parse this jiraVersion i l t
                = (outcome, (t ++ [r])%list) /\
                method r = "PUT" /\ sends r "body" = Some json))) /\
  (forall JSON_parse this i l t issueKey additionalFields recipientsText restrictionsText,
      nodeParameter this "issueKey" i = Some (JStr issueKey) ->
      nodeParameter this "additionalFields" i = Some (JObj additionalFields) ->
      nodeParameter this "jsonParameters" 0 = Some (JBool true) ->
      nodeParameter this "notificationRecipientsJson" i = Some (JStr recipientsText) ->
      nodeParameter this "notificationRecipientsRestrictionsJson" i
        = Some (JStr restrictionsText) ->
      exists outcome r,
        issue_notify JSON_parse this i l t = (outcome, (t ++ [r])%list) /\
        method r = "POST" /\
        (forall json, JSON_parse recipientsText = Some json -> truthy json = true ->
                      sends r "to" = Some json) /\
        (forall json, JSON_parse restrictionsText = Some json -> truthy json = true ->
                      sends r "restrict" = Some json)).
Proof.
  split.
  - intros parse this jv i l t issueKey options commentJson Hj Hk Ho Hc.
    split.
    + intros Hp. split.
      * unfold comment_add. steps.
        apply bind_err. now apply comment_body_invalid with (commentJson := commentJson).
      * intros commentId Hid. unfold comment_update. steps.
        apply bind_err. now apply comment_body_invalid with (commentJson := commentJson).
    + intros json Hp Hne. split.
      * unfold comment_add. steps.
        erewrite bind_ok by (eapply comment_body_valid; eassumption).
        unfold jiraSoftwareCloudApiRequest.
        match goal with
        | |- context [bind (send this ?r) (fun x => ret (@?f x)) t] =>
            destruct (send_then_ret this r t f) as [outcome Hrun]; exists outcome, r
        end.
        split; [exact Hrun|]. split; [reflexivity|]. apply sends_set.
      * intros commentId Hid. unfold comment_update. steps.
        erewrite bind_ok by (eapply comment_body_valid; eassumption).
        unfold jiraSoftwareCloudApiRequest.
        match goal with
        | |- context [bind (send this ?r) (fun x => ret (@?f x)) t] =>
            destruct (send_then_ret this r t f) as [outcome Hrun]; exists outcome, r
        end.
        split; [exact Hrun|]. split; [reflexivity|]. apply sends_set.
  - intros parse this i l t issueKey af s1 s2 Hk Haf Hj H1 H2.
    unfold issue_notify. steps. simpl negb. cbv iota.
    erewrite bind_ok by (steps; reflexivity).
    unfold jiraSoftwareCloudApiRequest.
    match goal with
    | |- context [bind (send this ?r) (fun x => ret (@?f x)) t] =>
        destruct (send_then_ret this r t f) as [outcome Hrun]; exists outcome, r
    end.
    split; [exact Hrun|]. split; [reflexivity|].
    unfold sends. simpl body. cbv beta iota.
    rewrite !obj_has_assign_if, !obj_get_assign_if. simpl.
    rewrite !andb_false_r, !andb_true_r, !orb_false_r. simpl.
    unfold validateJSON.
    split.
    + intros json Hp Ht. rewrite Hp. simpl. rewrite !Ht. reflexivity.
    + intros json Hp Ht. rewrite Hp. simpl. rewrite !Ht. reflexivity.
Qed.

Lemma raw_json_witness :
  comment_add Json.parse (Examples.context [Examples.json_comment "add" "{"])
    "cloud" 0 Examples.start []
  = (Err (NodeOperationError invalid_document), []) /\
  (exists outcome r,
      comment_add Json.parse (Examples.context [Examples.json_comment "add" "[1]"])
        "cloud" 0 Examples.start [] = (outcome, [r]) /\
      method r = "POST" /\ sends r "body" = Some (JArr [JNum 1])) /\
  (exists outcome r,
      issue_notify Json.parse
        (Examples.context [Examples.notify_json Examples.reporter_json ""])
        0 Examples.start [] = (outcome, [r]) /\
      method r = "POST" /\
      sends r "to" = Some (JObj [("reporter", JBool true)])).
Proof.
  destruct raw_json_is_forwarded_as_parsed as [Hcomment Hnotify].
  split; [|split].
  - exact (proj1 (proj1 (Hcomment Json.parse
             (Examples.context [Examples.json_comment "add" "{"])
             "cloud" 0 Examples.start [] "A-1" [] "{" eq_refl eq_refl eq_refl eq_refl)
             eq_refl)).
  - exact (proj1 (proj2 (Hcomment Json.parse
             (Examples.context [Examples.json_comment "add" "[1]"])
             "cloud" 0 Examples.start [] "A-1" [] "[1]" eq_refl eq_refl eq_refl eq_refl)
             (JArr [JNum 1]) eq_refl ltac:(discriminate))).
  - destruct (Hnotify Json.parse
                (Examples.context [Examples.notify_json Examples.reporter_json ""])
                0 Examples.start [] "A-1" [("textBody", JStr "look")]
                Examples.reporter_json "" eq_refl eq_refl eq_refl eq_refl eq_refl)
      as (outcome & r & Hrun & Hmethod & Hto & _).
    exists outcome, r. split; [exact Hrun|]. split; [exact Hmethod|].
    exact (Hto _ eq_refl eq_refl).
Defined.

(** *** The file of an upload *)



Example upload_run :
  run Examples.upper Json.parse (Examples.uploading [Examples.upload "data"])
  = (Ok [Examples.stored],
     [upload_request "cloud" "A-1" (JStr "contents") (JStr "a.txt")]).
Proof. reflexivity. Qed.

(** *** The files of the attachments *)





(** *** Return all *)

Lemma getAll_body_keys options body0 k :
  getAll_body options = Ok body0 ->
  obj_has body0 k = true -> In k ["fields"; "jql"; "expand"].
Proof.
  unfold getAll_body, rbind, assign_if. intros H.
  repeat match type of H with
         | context [match ?x with _ => _ end] =>
             lazymatch x with
             | context [match _ with _ => _ end] => fail
             | _ => destruct x; try discriminate H
             end
         end; injection H as <-; rewrite ?obj_has_set; cbn [obj_has In];
    rewrite ?orb_false_r, ?orb_true_iff, ?String.eqb_eq;
    first [discriminate | tauto].
Qed.

(** The answer that the run received is the one [Hr] gives for its
    request; the records added are the elements of that array. *)
Ltac received Hr :=
  match goal with
  | Hs : server _ _ _ = ?x |- _ =>
      lazymatch x with Some (JArr _) => fail | _ => idtac end;
      let E := fresh in
      pose proof (eq_trans (eq_sym Hr) Hs) as E;
      first [ discriminate E | injection E as <- ]
  end;
  match goal with
  | Ha : apply_arguments _ = _ |- _ =>
      simpl in Ha; first [ discriminate Ha | injection Ha as <- ]
  end;
  reflexivity.

(** X12.  With [returnAll] on, issue getAll, changelog and comment getAll
    hand the listing to the pagination helper, in one call for the record,
    and ask for no page size: no [maxResults] is sent and the [limit]
    parameter is not read.  Every record that the helper brings back is
    added to the result.  Issue getAll does so when its options give a
    body for the search. *)
Theorem return_all_goes_through_pagination :
  forall this i l t,
    nodeParameter this "returnAll" i = Some (JBool true) ->
    (forall outcome t' options body0,
        nodeParameter this "options" i = Some (JObj options) ->
        getAll_body options = Ok body0 ->
        issue_getAll this i l t = (outcome, t') ->
        exists r,
          t' = (t ++ [r])%list /\ paginated r = Some "issues" /\
          endpoint r = "/api/2/search" /\ body r = JObj body0 /\
          sends r "maxResults" = None /\
          forall records,
            server this t r = Some (JArr records) ->
            outcome = Ok (mkLocals (qs l) (returnData l ++ records)%list)) /\
    (forall outcome t' issueKey,
        nodeParameter this "issueKey" i = Some (JStr issueKey) ->
        issue_changelog this i l t = (outcome, t') ->
        exists r,
          t' = (t ++ [r])%list /\ paginated r = Some "values" /\
          endpoint r = issue_path issueKey ++ "/changelog" /\
          query r = JUndefined /\
          forall records,
            server this t r = Some (JArr records) ->
            outcome = Ok (mkLocals (qs l) (returnData l ++ records)%list)) /\
    (forall jiraVersion outcome t' issueKey options,
        nodeParameter this "issueKey" i = Some (JStr issueKey) ->
        nodeParameter this "options" i = Some (JObj options) ->
        comment_getAll this jiraVersion i l t = (outcome, t') ->
        exists r,
          t' = (t ++ [r])%list /\ paginated r = Some "comments" /\
          endpoint r = comment_path jiraVersion issueKey /\
          body r = JObj [] /\
          forall records,
            server this t r = Some (JArr records) ->
            outcome = Ok (mkLocals (obj_assign (qs l) options)
                            (returnData l ++ records)%list)).
Proof.
  intros this i l t Hall. split; [|split].
  - intros outcome t' options body0 Ho Hb H. unfold issue_getAll in H.
    expose H. rewrite Hall, Ho, Hb in H. cbv beta iota in H.
    cases H; injection H as <- <-;
      (eexists; split; [reflexivity|]; split; [reflexivity|]; split; [reflexivity|];
       split; [reflexivity|]; split;
       [ unfold sends; cbn [body];
         destruct (obj_has body0 "maxResults") eqn:Hhas; [|reflexivity];
         apply (getAll_body_keys _ _ _ Hb) in Hhas;
         simpl in Hhas; intuition discriminate
       | intros records Hr; received Hr ]).
  - intros outcome t' issueKey Hk H. unfold issue_changelog in H.
    expose H. rewrite Hall, Hk in H. cbv beta iota in H.
    cases H; injection H as <- <-;
      (eexists; split; [reflexivity|]; split; [reflexivity|]; split; [reflexivity|];
       split; [reflexivity|]; intros records Hr; received Hr).
  - intros jv outcome t' issueKey options Hk Ho H. unfold comment_getAll in H.
    expose H. rewrite Hall, Hk, Ho in H. cbv beta iota in H.
    cases H; injection H as <- <-;
      (eexists; split; [reflexivity|]; split; [reflexivity|]; split; [reflexivity|];
       split; [reflexivity|]; intros records Hr; received Hr).
Qed.

Lemma return_all_witness :
  let this := Examples.paged [Examples.search_all] in
  exists r,
    issue_getAll this 0 Examples.start [] = (Ok (mkLocals [] Examples.found), [r]) /\
    paginated r = Some "issues" /\ endpoint r = "/api/2/search" /\
    body r = JObj [("jql", JStr "project = A")] /\
    sends r "maxResults" = None.
Proof.
  intros this.
  destruct (proj1 (return_all_goes_through_pagination this 0 Examples.start []
                     eq_refl) _ _ [("jql", JStr "project = A")] _
              eq_refl eq_refl (surjective_pairing _))
    as (r & Hsent & Hpaged & Hendpoint & Hbody & Hmax & Hrecords).
  exists r. repeat split; try assumption.
  apply injective_projections; [|exact Hsent].
  apply Hrecords. apply app_inj_tail in Hsent as [_ <-]. reflexivity.
Defined.

(** *** The sub-task types *)

Lemma prop_is_path (v : JsValue) (k : string) (x : JsValue) :
  k <> "length" -> prop v k = Ok x -> x = path v [k].
Proof.
  intros Hk H. unfold path. simpl fold_left.
  destruct v; simpl in H; try discriminate;
    try (destruct (String.eqb_spec k "length"); [contradiction|]); congruence.
Qed.




(** *** The limit of the attachments, at its edges *)

Lemma slice0_negative {A} (l : list A) (e : Z) :
  (e < 0)%Z -> slice0 l e = firstn (List.length l - Z.to_nat (- e)) l.
Proof.
  intros He. unfold slice0.
  destruct (Z.ltb_spec e 0) as [_|Hge]; [|lia].
  f_equal. lia.
Qed.

(** X14.  The limit of attachment getAll, at its edges.  With [returnAll]
    on, every attachment of the issue is returned and no limit is read.
    A limit below zero is no error: a limit of [-k] leaves out the last
    [k] attachments and returns the others, which are none when the issue
    has [k] attachments or fewer. *)
Theorem attachments_negative_limit_counts_from_the_end :
  forall this i l t issueKey response fields attachments,
    nodeParameter this "issueKey" i = Some (JStr issueKey) ->
    server this t (attachments_request issueKey (qs l)) = Some response ->
    prop response "fields" = Ok fields ->
    prop fields "attachment" = Ok (JArr attachments) ->
    let asked := (t ++ [attachments_request issueKey (qs l)])%list in
    let records kept :=
      mkLocals (qs l)
        (returnData l ++ map (fun data => JObj [("json", data)]) kept)%list in
    (nodeParameter this "returnAll" i = Some (JBool true) ->
     attachment_getAll this i l t = (Ok (records attachments), asked)) /\
    (forall limit,
        nodeParameter this "returnAll" i = Some (JBool false) ->
        nodeParameter this "limit" i = Some (JNum limit) ->
        (limit < 0)%Z ->
        attachment_getAll this i l t
        = (Ok (records (firstn (List.length attachments - Z.to_nat (- limit))
                          attachments)),
           asked)).
Proof.
  intros this i l t issueKey response fields attachments Hk Hs Hf Ha asked records.
  split.
  - intros Hall. unfold attachment_getAll. steps.
    unfold jiraSoftwareCloudApiRequest. steps.
    change (Bool.eqb true false) with false. cbv iota.
    erewrite bind_ok by (steps; reflexivity).
    simpl call_map. steps. unfold push_apply. simpl apply_arguments. steps.
    reflexivity.
  - intros limit Hr Hl Hneg.
    rewrite (attachment_getAll_limited this i l t issueKey limit response fields
               attachments Hk Hr Hl Hs Hf Ha).
    subst records asked. cbv beta. now rewrite slice0_negative.
Qed.

Lemma attachments_negative_limit_witness :
  let this := Examples.context [Examples.attachments_item (-1)] in
  attachment_getAll this 0 Examples.start []
  = (Ok (mkLocals []
           (map (fun data => JObj [("json", data)]) (firstn 2 Examples.attachments))),
     [attachments_request "A-1" []]).
Proof.
  intros this.
  exact (proj2 (attachments_negative_limit_counts_from_the_end this 0 Examples.start []
                  "A-1" _ _ Examples.attachments eq_refl eq_refl eq_refl eq_refl)
           (-1)%Z eq_refl eq_refl eq_refl).
Defined.

(** *** The order of the records *)

Lemma issue_get_round this i l t l' t' :
  issue_get this i l t = (Ok l', t') ->
  exists issueKey r answer,
    nodeParameter this "issueKey" i = Some (JStr issueKey) /\
    endpoint r = issue_path issueKey /\ method r = "GET" /\
    t' = (t ++ [r])%list /\ server this t r = Some answer /\
    returnData l' = (returnData l ++ [answer])%list.
Proof.
  unfold issue_get. intros H. crack H. injection H as <- <-.
  do 3 eexists. repeat split; try eassumption; reflexivity.
Qed.

Lemma issue_get_rounds this n :
  forall i l t l' t',
    for_loop (issue_get this) i n l t = (Ok l', t') ->
    exists sent added,
      t' = (t ++ sent)%list /\ returnData l' = (returnData l ++ added)%list /\
      List.length sent = n /\ List.length added = n /\
      forall k,
        (k < n)%nat ->
        exists issueKey r answer,
          nodeParameter this "issueKey" (i + k) = Some (JStr issueKey) /\
          nth_error sent k = Some r /\
          endpoint r = issue_path issueKey /\ method r = "GET" /\
          server this (t ++ firstn k sent)%list r = Some answer /\
          nth_error added k = Some answer.
Proof.
  induction n as [|n IH]; intros i l t l' t' H; simpl in H.
  - injection H as <- <-. exists [], []. rewrite !app_nil_r.
    repeat split. intros k Hk. lia.
  - split_bind H l1 t1 H1; [|discriminate].
    apply issue_get_round in H1
      as (issueKey & r & answer & Hkey & Hend & Hget & -> & Hanswer & Hdata).
    apply IH in H as (sent & added & -> & Hdata' & Hsent & Hadded & Hnth).
    exists (r :: sent), (answer :: added).
    split; [now rewrite <- app_assoc|].
    split; [rewrite Hdata', Hdata; now rewrite <- app_assoc|].
    split; [simpl; congruence|]. split; [simpl; congruence|].
    intros [|k] Hk.
    + exists issueKey, r, answer. rewrite Nat.add_0_r. simpl. rewrite app_nil_r. auto 7.
    + destruct (Hnth k) as (key & rk & ak & Hk1 & Hk2 & Hk3 & Hk4 & Hk5 & Hk6); [lia|].
      exists key, rk, ak. rewrite <- Nat.add_succ_comm. simpl.
      rewrite <- app_assoc in Hk5. auto 7.
Qed.

(** X15.  Issue get answers the input items in their order.  A run that
    succeeds has sent one GET for each item, the [k]-th to the issue of
    item [k], and returns one record for each item, the [k]-th being what
    Jira answered to the [k]-th request. *)
Theorem issue_get_answers_the_items_in_order :
  forall toUpperCase JSON_parse this jiraVersion out sent,
    nodeParameter this "resource" 0 = Some (JStr "issue") ->
    nodeParameter this "operation" 0 = Some (JStr "get") ->
    nodeParameter this "jiraVersion" 0 = Some (JStr jiraVersion) ->
    run toUpperCase JSON_parse this = (Ok out, sent) ->
    List.length sent = inputLength this /\
    List.length out = inputLength this /\
    forall k,
      (k < inputLength this)%nat ->
      exists issueKey r answer,
        nodeParameter this "issueKey" k = Some (JStr issueKey) /\
        nth_error sent k = Some r /\
        endpoint r = issue_path issueKey /\ method r = "GET" /\
        server this (firstn k sent) r = Some answer /\
        nth_error out k = Some answer.
Proof.
  intros toUpperCase parse this jv out sent Hr Ho Hv H.
  unfold run, execute in H. revert H. steps. simpl operation_loop. intros H.
  split_bind H l1 t1 H1; [|discriminate]. injection H as <- <-.
  apply issue_get_rounds in H1 as (sent & added & -> & Hdata & Hsent & Hadded & Hnth).
  simpl in Hdata. subst. simpl. repeat split; try assumption.
Qed.

Lemma issue_get_in_order_witness :
  let this := Examples.context Examples.summary_then_whole in
  exists out sent,
    run Examples.upper Json.parse this = (Ok out, sent) /\
    exists r answer,
      nth_error sent 1 = Some r /\ endpoint r = issue_path "A-2" /\
      server this (firstn 1 sent) r = Some answer /\
      nth_error out 1 = Some answer.
Proof.
  intros this.
  exists (match fst (run Examples.upper Json.parse this) with Ok out => out | Err _ => [] end).
  exists (snd (run Examples.upper Json.parse this)).
  split; [reflexivity|].
  destruct (proj2 (proj2 (issue_get_answers_the_items_in_order Examples.upper Json.parse
                            this "cloud"
                            _ _ eq_refl eq_refl eq_refl
                            (eq_refl : run Examples.upper Json.parse this
                                       = (Ok (match fst (run Examples.upper Json.parse this) with
                                              | Ok out => out
                                              | Err _ => []
                                              end),
                                          snd (run Examples.upper Json.parse this)))))
              1%nat (le_n 2))
    as (issueKey & r & answer & Hkey & Hr & Hend & _ & Hanswer & Hout).
  injection Hkey as <-. now exists r, answer.
Defined.

(* ================================================================= *)
(** ** Properties of the option lists *)

Import Methods.

(** *** The order of the names *)

Lemma insert_permutation compare x sorted l :
  insert compare x sorted = Ok l -> Permutation.Permutation (x :: sorted) l.
Proof.
  revert l. induction sorted as [|y rest IH]; intros l H; simpl in H.
  - injection H as <-. apply Permutation.Permutation_refl.
  - unfold rbind in H. destruct (compare x y) as [c|]; [|discriminate].
    destruct (c <? 0)%Z.
    + injection H as <-. apply Permutation.Permutation_refl.
    + destruct (insert compare x rest) as [behind|]; [|discriminate].
      injection H as <-.
      eapply Permutation.perm_trans; [apply Permutation.perm_swap|].
      apply Permutation.perm_skip. now apply IH.
Qed.

Lemma filter_nothing {A} (p : A -> bool) (l : list A) :
  (forall z, In z l -> p z = false) -> filter p l = [].
Proof.
  induction l as [|a l IH]; intros H; simpl; [reflexivity|].
  rewrite (H a) by now left. apply IH. intros z Hz. apply H. now right.
Qed.

Lemma sort_into_permutation compare rest :
  forall sorted l,
    sort_into compare sorted rest = Ok l ->
    Permutation.Permutation (sorted ++ rest) l.
Proof.
  induction rest as [|x rest IH]; intros sorted l H; simpl in H.
  - injection H as <-. rewrite app_nil_r. apply Permutation.Permutation_refl.
  - unfold rbind in H.
    destruct (insert compare x sorted) as [s1|] eqn:Hins; [|discriminate].
    apply insert_permutation in Hins. apply IH in H.
    eapply Permutation.perm_trans; [|exact H].
    eapply Permutation.perm_trans;
      [apply Permutation.Permutation_sym, Permutation.Permutation_middle|].
    change (x :: sorted ++ rest)%list with ((x :: sorted) ++ rest)%list.
    now apply Permutation.Permutation_app_tail.
Qed.

Lemma push_options_made make entries :
  forall returnData l,
    push_options make entries returnData = Ok l <->
    exists made,
      Forall2 (fun entry option => make entry = Ok option) entries made /\
      l = (returnData ++ made)%list.
Proof.
  induction entries as [|entry rest IH]; intros acc l; simpl.
  - split.
    + intros [= <-]. exists []. split; [constructor | now rewrite app_nil_r].
    + intros (made & Hmade & ->). inversion Hmade. now rewrite app_nil_r.
  - unfold rbind. split.
    + destruct (make entry) as [option|] eqn:Hmake; [|discriminate].
      intros H. apply IH in H as (made & Hmade & ->).
      exists (option :: made). split; [now constructor | now rewrite <- app_assoc].
    + intros (made & Hmade & ->). inversion Hmade as [|? option ? made' Hmake Hrest]; subst.
      rewrite Hmake. apply IH. exists made'. split; [exact Hrest|].
      now rewrite <- app_assoc.
Qed.

Section NameOrder.

Variable string_less_than : string -> string -> bool.
Hypothesis ordered : strict_total_order string_less_than.

Lemma less_than_asymmetric (x y : string) :
  string_less_than x y = true -> string_less_than y x = false.
Proof.
  destruct ordered as (Hirreflexive & Htransitive & _). intros Hxy.
  destruct (string_less_than y x) eqn:Hyx; [|reflexivity].
  rewrite <- (Hirreflexive x). symmetry. now apply Htransitive with y.
Qed.

Lemma not_after_transitive (x y z : string) :
  string_less_than y x = false -> string_less_than z y = false ->
  string_less_than z x = false.
Proof.
  destruct ordered as (_ & Htransitive & Htotal). intros Hxy Hyz.
  destruct (string_less_than z x) eqn:Hzx; [|reflexivity].
  destruct (string_less_than x y) eqn:Hlt.
  - rewrite <- Hyz. symmetry. now apply Htransitive with x.
  - assert (x = y) by now apply Htotal. subst y. congruence.
Qed.

Lemma by_name_strings (a b : JsValue) :
  string_named a -> string_named b ->
  by_name string_less_than a b
  = Ok (if string_less_than (name_of a) (name_of b) then (-1)%Z
        else if string_less_than (name_of b) (name_of a) then 1%Z else 0%Z).
Proof.
  intros [x Ha] [y Hb]. unfold by_name, name_of. rewrite Ha, Hb.
  unfold path in Ha, Hb. simpl in Ha, Hb.
  destruct a as [| | | | | |pa]; try discriminate.
  destruct b as [| | | | | |pb]; try discriminate.
  simpl. rewrite Ha, Hb. simpl.
  destruct (string_less_than x y); [reflexivity|]. simpl.
  now destruct (string_less_than y x).
Qed.

Lemma insert_sorted x sorted l :
  Forall string_named (x :: sorted) ->
  Sorted.StronglySorted (in_name_order string_less_than) sorted ->
  insert (by_name string_less_than) x sorted = Ok l ->
  Sorted.StronglySorted (in_name_order string_less_than) l /\
  forall s, filter (named s) l = filter (named s) (sorted ++ [x])%list.
Proof.
  revert l. induction sorted as [|y rest IH]; intros l Hnamed Hsorted H; simpl in H.
  - injection H as <-. split; [|reflexivity].
    constructor; constructor.
  - inversion Hnamed as [|? ? Hx Hrest]; subst.
    inversion Hrest as [|? ? Hy Hrest']; subst.
    apply Sorted.StronglySorted_inv in Hsorted as [Hsorted Hall].
    rewrite by_name_strings in H by assumption. simpl in H.
    destruct (string_less_than (name_of x) (name_of y)) eqn:Hxy; simpl in H.
    + injection H as <-. split.
      * constructor; [constructor; assumption|].
        constructor; [unfold in_name_order; now apply less_than_asymmetric|].
        eapply Forall_impl; [|exact Hall]. intros z Hz. unfold in_name_order in *.
        eapply not_after_transitive; [apply less_than_asymmetric; exact Hxy | exact Hz].
      * intros s. change (x :: y :: rest) with ([x] ++ (y :: rest))%list.
        rewrite !filter_app. simpl filter at 1 4.
        destruct (named s x) eqn:Hs.
        -- apply String.eqb_eq in Hs. subst s.
           rewrite (filter_nothing (named (name_of x)) (y :: rest)); [reflexivity|].
           intros z Hz. unfold named. apply String.eqb_neq. intros Hsame.
           destruct Hz as [<-|Hz].
           ++ rewrite Hsame in Hxy. destruct ordered as (Hirreflexive & _).
              now rewrite Hirreflexive in Hxy.
           ++ rewrite Forall_forall in Hall. apply Hall in Hz.
              unfold in_name_order in Hz. rewrite Hsame in Hz. congruence.
        -- now rewrite app_nil_r.
    + assert (Hc : ((if string_less_than (name_of y) (name_of x) then 1 else 0) <? 0)%Z
                   = false)
        by (now destruct (string_less_than (name_of y) (name_of x))).
      rewrite Hc in H. unfold rbind in H.
      destruct (insert (by_name string_less_than) x rest) as [behind|] eqn:Hins;
        [|discriminate].
      injection H as <-.
      destruct (IH behind) as [Hbehind Hfilter]; auto.
      split.
      * constructor; [exact Hbehind|].
        apply insert_permutation in Hins.
        eapply Permutation.Permutation_Forall; [exact Hins|].
        constructor; [|exact Hall]. exact Hxy.
      * intros s. simpl. now rewrite Hfilter.
Qed.

Lemma sort_into_sorted rest :
  forall sorted l,
    Forall string_named (sorted ++ rest) ->
    Sorted.StronglySorted (in_name_order string_less_than) sorted ->
    sort_into (by_name string_less_than) sorted rest = Ok l ->
    Sorted.StronglySorted (in_name_order string_less_than) l /\
    forall s, filter (named s) l = filter (named s) (sorted ++ rest)%list.
Proof.
  induction rest as [|x rest IH]; intros sorted l Hnamed Hsorted H; simpl in H.
  - injection H as <-. rewrite app_nil_r. now split.
  - unfold rbind in H.
    destruct (insert (by_name string_less_than) x sorted) as [s1|] eqn:Hins;
      [|discriminate].
    apply Forall_app in Hnamed as [Hs Hx].
    inversion Hx as [|? ? Hx1 Hrest]; subst.
    destruct (insert_sorted x sorted s1) as [Hs1 Hf1]; auto.
    apply insert_permutation in Hins.
    destruct (IH s1 l) as [Hl Hfl]; auto.
    { apply Forall_app. split; [|exact Hrest].
      eapply Permutation.Permutation_Forall; [exact Hins|]. now constructor. }
    split; [exact Hl|]. intros s.
    rewrite Hfl, !filter_app, Hf1, filter_app. simpl.
    rewrite <- app_assoc. now destruct (named s x).
Qed.

Lemma insert_returns x sorted :
  Forall string_named (x :: sorted) ->
  exists l, insert (by_name string_less_than) x sorted = Ok l.
Proof.
  induction sorted as [|y rest IH]; intros Hnamed; simpl; [now eexists|].
  inversion Hnamed as [|? ? Hx Hrest]; subst.
  inversion Hrest as [|? ? Hy Hrest']; subst.
  rewrite by_name_strings by assumption. simpl.
  destruct (_ <? 0)%Z; [now eexists|].
  destruct IH as [l ->]; [now constructor|]. now eexists.
Qed.

Lemma sort_into_returns rest :
  forall sorted,
    Forall string_named (sorted ++ rest) ->
    exists l, sort_into (by_name string_less_than) sorted rest = Ok l.
Proof.
  induction rest as [|x rest IH]; intros sorted Hnamed; simpl; [now eexists|].
  apply Forall_app in Hnamed as [Hs Hx].
  inversion Hx as [|? ? Hx1 Hrest]; subst.
  destruct (insert_returns x sorted) as [s1 Hins]; [now constructor|].
  rewrite Hins. simpl. apply IH. apply Forall_app. split; [|exact Hrest].
  apply insert_permutation in Hins.
  eapply Permutation.Permutation_Forall; [exact Hins|]. now constructor.
Qed.

Lemma sorted_options_sorted make entries t options t' :
  sorted_options string_less_than make entries t = (Ok options, t') ->
  Forall string_named options ->
  Sorted.StronglySorted (in_name_order string_less_than) options.
Proof.
  unfold sorted_options. intros H Hnamed. crack H. injection H as Hs <-.
  match type of Hs with
  | sort _ ?made = Ok _ =>
      apply (sort_into_sorted made [] _); [|constructor|exact Hs];
      apply sort_into_permutation in Hs;
      eapply Permutation.Permutation_Forall;
        [apply Permutation.Permutation_sym; exact Hs | exact Hnamed]
  end.
Qed.

End NameOrder.

(** The comparison of the examples is a strict total order. *)
Lemma less_than_of_the_examples : strict_total_order Examples.less_than.
Proof.
  assert (Hlt : forall x y, String.ltb x y = true <-> OrderedTypeEx.String_as_OT.lt x y).
  { intros x y. unfold String.ltb. rewrite <- OrderedTypeEx.String_as_OT.cmp_lt.
    unfold OrderedTypeEx.String_as_OT.cmp.
    destruct (String.compare x y); split; congruence. }
  unfold Examples.less_than. split; [|split].
  - intros x. destruct (String.ltb x x) eqn:E; [|reflexivity].
    apply Hlt in E. apply OrderedTypeEx.String_as_OT.lt_not_eq in E.
    now contradiction E.
  - intros x y z Hxy Hyz. apply Hlt. apply Hlt in Hxy, Hyz.
    eapply OrderedTypeEx.String_as_OT.lt_trans; eassumption.
  - intros x y. unfold String.ltb. rewrite (String.compare_antisym y x).
    destruct (String.compare x y) eqn:E; simpl; intros H1 H2; try discriminate.
    now apply String.compare_eq_iff.
Qed.

(** X16.  The loop and the sort that end the lists of projects, issue
    types, labels, priorities, users, groups, transitions and components.
    The runtime compares two names that are strings by its [<], a strict
    total order.  When every entry of the answer gives an option and the
    names are strings, the list is returned, no request is sent for it,
    and it holds the options of the entries, each as often as it was made,
    in the order of their names; options of the same name keep the order
    they had in the answer. *)
Theorem sorted_options_sort_what_jira_lists :
  forall string_less_than make entries made t,
    strict_total_order string_less_than ->
    Forall2 (fun entry option => make entry = Ok option) entries made ->
    Forall string_named made ->
    exists options,
      sorted_options string_less_than make (JArr entries) t = (Ok options, t) /\
      Permutation.Permutation made options /\
      Sorted.StronglySorted (in_name_order string_less_than) options /\
      forall s, filter (named s) options = filter (named s) made.
Proof.
  intros string_less_than make entries made t Hordered Hmade Hnamed.
  destruct (sort_into_returns string_less_than made []) as [options Hsort];
    [exact Hnamed|].
  exists options. split.
  - assert (Hpush : push_options make entries [] = Ok made)
      by (apply push_options_made; now exists made).
    unfold sorted_options, bind, lift. simpl iterate. cbv iota beta.
    rewrite Hpush. unfold sort. now rewrite Hsort.
  - split; [exact (sort_into_permutation _ _ _ _ Hsort)|].
    apply (sort_into_sorted string_less_than Hordered made [] options); auto.
    constructor.
Qed.

Lemma sorted_options_witness :
  exists options,
    sorted_options Examples.less_than (option_from "name" "id")
      (JArr Examples.projects) []
    = (Ok options, []) /\
    filter (named "Beta") options
    = [ JObj [("name", JStr "Beta"); ("value", JStr "10001")];
        JObj [("name", JStr "Beta"); ("value", JStr "10002")] ].
Proof.
  pose (made := [ JObj [("name", JStr "Beta"); ("value", JStr "10001")];
                  JObj [("name", JStr "Alpha"); ("value", JStr "10000")];
                  JObj [("name", JStr "Beta"); ("value", JStr "10002")] ]).
  assert (Hmade : Forall2 (fun entry option => option_from "name" "id" entry = Ok option)
                    Examples.projects made)
    by (repeat constructor).
  assert (Hnamed : Forall string_named made)
    by (repeat constructor; eexists; reflexivity).
  destruct (sorted_options_sort_what_jira_lists Examples.less_than
              (option_from "name" "id") Examples.projects made []
              less_than_of_the_examples Hmade Hnamed)
    as (options & Hrun & _ & _ & Hstable).
  exists options. split; [exact Hrun|].
  rewrite Hstable. reflexivity.
Defined.

(** X17.  The lists of projects, issue types, labels, priorities, users,
    groups, transitions and project components come back sorted: whatever
    the method asked Jira and whatever Jira answered, a list that is
    returned, and whose names are strings, is in the order of the names,
    the order in which the runtime compares two strings, a strict total
    order. *)
Theorem option_lists_are_sorted_by_name :
  forall string_less_than load this t options t',
    strict_total_order string_less_than ->
    In load (sorted_lists string_less_than) ->
    load this t = (Ok options, t') ->
    Forall string_named options ->
    Sorted.StronglySorted (in_name_order string_less_than) options.
Proof.
  intros string_less_than load this t options t' Hordered Hin H Hnamed.
  unfold sorted_lists in Hin. simpl in Hin.
  repeat (destruct Hin as [<-|Hin];
          [ unfold getProjects, getIssueTypes, getLabels, getPriorities, getUsers,
              getGroups, getTransitions, getProjectComponents in H;
            expose H; cases H; eapply sorted_options_sorted; eassumption
          | ]).
  destruct Hin.
Qed.

Lemma option_lists_witness :
  let this := Examples.editing Examples.creating Examples.describing in
  exists options,
    getProjects Examples.less_than this []
    = (Ok options, [projects_request (JStr "server")]) /\
    Sorted.StronglySorted (in_name_order Examples.less_than) options.
Proof.
  intros this.
  exists [ JObj [("name", JStr "Alpha"); ("value", JStr "10000")];
           JObj [("name", JStr "Beta"); ("value", JStr "10001")];
           JObj [("name", JStr "Beta"); ("value", JStr "10002")] ].
  split; [reflexivity|].
  apply (option_lists_are_sorted_by_name Examples.less_than
           (getProjects Examples.less_than) this [] _ _
           less_than_of_the_examples (or_introl eq_refl) eq_refl).
  repeat constructor; eexists; reflexivity.
Defined.

(** *** The list of projects *)

(** X18.  The list of projects is asked with one request: of a server the
    projects themselves, of the cloud the pages of the project search.
    The answer may be the array of the projects or an object that holds
    the array under [values]: both give the same list.  A request that
    fails ends the method with its failure. *)
Theorem projects_come_as_a_list_or_under_values :
  forall string_less_than this t,
    let r := projects_request (getCurrentNodeParameter this "jiraVersion") in
    (answers this t r = None ->
     getProjects string_less_than this t = (Err NodeApiError, (t ++ [r])%list)) /\
    (forall projects,
        answers this t r = Some (JArr projects) \/
        (exists answer,
            answers this t r = Some (JObj answer) /\
            obj_get answer "values" = JArr projects) ->
        getProjects string_less_than this t
        = sorted_options string_less_than (option_from "name" "id") (JArr projects)
            (t ++ [r])%list).
Proof.
  intros string_less_than this t r. subst r. unfold projects_request, getProjects.
  destruct (strict_equal (getCurrentNodeParameter this "jiraVersion") (JStr "server"));
    (split;
     [ intros Hnone;
       unfold jiraSoftwareCloudApiRequest, jiraSoftwareCloudApiRequestAllItems,
         bind, send; simpl server; now rewrite Hnone
     | intros projects [Hlist|(answer & Hobject & Hvalues)];
       unfold jiraSoftwareCloudApiRequest, jiraSoftwareCloudApiRequestAllItems,
         bind, send, lift; simpl server;
       [ now rewrite Hlist
       | rewrite Hobject; simpl prop; cbv iota beta; now rewrite Hvalues ] ]).
Qed.

Lemma projects_witness :
  let this := Examples.editing Examples.creating Examples.describing in
  getProjects Examples.less_than this []
  = sorted_options Examples.less_than (option_from "name" "id") (JArr Examples.projects)
      [projects_request (JStr "server")] /\
  getProjects Examples.less_than
    (Examples.editing Examples.creating (fun _ _ => None)) []
  = (Err NodeApiError, [projects_request (JStr "server")]).
Proof.
  intros this. split.
  - apply (proj2 (projects_come_as_a_list_or_under_values Examples.less_than this [])).
    right. eexists. split; reflexivity.
  - exact (proj1 (projects_come_as_a_list_or_under_values Examples.less_than
                    (Examples.editing Examples.creating (fun _ _ => None)) [])
             eq_refl).
Defined.

(** *** The list of custom fields *)

Lemma push_custom_fields_filter (o : IDataObject) keys :
  forall returnData l,
    push_custom_fields (JObj o) keys returnData = Ok l ->
    l = (returnData
         ++ map custom_option (filter is_custom (map (obj_get o) keys)))%list.
Proof.
  induction keys as [|key rest IH]; intros acc l H; simpl in H.
  - injection H as <-. simpl. now rewrite app_nil_r.
  - unfold rbind in H. set (field := obj_get o key) in *.
    destruct (prop field "schema") as [schema|] eqn:Hschema; [|discriminate].
    apply prop_is_path in Hschema; [subst schema | discriminate].
    simpl map. simpl filter. fold field. unfold is_custom at 1. cbv zeta.
    destruct (truthy (path field ["schema"]) && has_custom_id (path field ["schema"])).
    + destruct (prop field "name") as [name|] eqn:Hname; [|discriminate].
      apply prop_is_path in Hname; [subst name | discriminate].
      destruct (prop field "key") as [field_key|] eqn:Hkey; [|discriminate].
      apply prop_is_path in Hkey; [subst field_key | discriminate].
      destruct (truthy (path field ["key"])) eqn:Htruthy.
      * apply IH in H. rewrite H. simpl. unfold custom_option at 2.
        rewrite Htruthy. now rewrite <- app_assoc.
      * destruct (prop field "fieldId") as [fieldId|] eqn:Hid; [|discriminate].
        apply prop_is_path in Hid; [subst fieldId | discriminate].
        apply IH in H. rewrite H. simpl. unfold custom_option at 2.
        rewrite Htruthy. now rewrite <- app_assoc.
    + now apply IH.
Qed.

Lemma push_custom_fields_options fields keys l :
  object_keys fields = Ok keys ->
  push_custom_fields fields keys [] = Ok l ->
  l = custom_options fields.
Proof.
  intros Hkeys H. destruct fields; try discriminate Hkeys;
    injection Hkeys as <-; simpl in H.
  - now injection H as <-.
  - now injection H as <-.
  - now apply push_custom_fields_filter in H.
Qed.

Ltac paths :=
  repeat match goal with
         | Hp : prop _ _ = Ok _ |- _ =>
             apply prop_is_path in Hp; [subst | discriminate]
         end.

(** X19.  The list of custom fields, when it is returned, holds the
    fields of the create metadata whose [schema] has a [customId], and no
    other field, in the order of the metadata: this list is not sorted.
    An option is named by the [name] of its field and valued by the [key]
    of the field, or by its [fieldId] when the key is not set.  The
    metadata are those of the project and the issue type of the node when
    it creates an issue; otherwise the method first asks Jira for the
    issue, and takes the project and the type from it. *)
Theorem custom_fields_are_the_fields_with_a_custom_id :
  forall this t options t',
    getCustomFields this t = (Ok options, t') ->
    exists projectId issueTypeId before meta project issuetype,
      (if strict_equal (getCurrentNodeParameter this "operation") (JStr "create")
       then
         before = t /\
         projectId = getCurrentNodeParameter this "project" /\
         issueTypeId = getCurrentNodeParameter this "issueType"
       else
         exists issue,
           let asked := issue_request (getCurrentNodeParameter this "issueKey") in
           before = (t ++ [asked])%list /\
           answers this t asked = Some issue /\
           projectId = path issue ["fields"; "project"; "id"] /\
           issueTypeId = path issue ["fields"; "issuetype"; "id"]) /\
      t' = (before ++ [createmeta_request projectId issueTypeId])%list /\
      answers this before (createmeta_request projectId issueTypeId) = Some meta /\
      call_find_by_id (path meta ["projects"]) projectId = Ok project /\
      call_find_by_id (path project ["issuetypes"]) issueTypeId = Ok issuetype /\
      options = custom_options (path issuetype ["fields"]).
Proof.
  intros this t options t' H. unfold getCustomFields in H.
  destruct (strict_equal (getCurrentNodeParameter this "operation") (JStr "create")).
  - expose H. cases H. injection H as Hpush <-. paths.
    do 6 eexists. split; [repeat split|].
    split; [reflexivity|]. split; [eassumption|].
    split; [eassumption|]. split; [eassumption|].
    eapply push_custom_fields_options; eassumption.
  - expose H. cases H. injection H as Hpush <-. paths.
    do 6 eexists. split; [eexists; repeat split; eassumption|].
    split; [reflexivity|]. split; [eassumption|].
    split; [eassumption|]. split; [eassumption|].
    eapply push_custom_fields_options; eassumption.
Qed.

Lemma custom_fields_witness :
  let this := Examples.editing Examples.creating Examples.describing in
  getCustomFields this []
  = (Ok [JObj [("name", JStr "Team"); ("value", JStr "customfield_10010")]],
     [createmeta_request (JStr "10000") (JStr "10001")]) /\
  exists projectId issueTypeId meta project issuetype,
    answers this [] (createmeta_request projectId issueTypeId) = Some meta /\
    call_find_by_id (path meta ["projects"]) projectId = Ok project /\
    call_find_by_id (path project ["issuetypes"]) issueTypeId = Ok issuetype /\
    [JObj [("name", JStr "Team"); ("value", JStr "customfield_10010")]]
    = custom_options (path issuetype ["fields"]).
Proof.
  intros this. split; [reflexivity|].
  destruct (custom_fields_are_the_fields_with_a_custom_id this [] _ _ eq_refl)
    as (projectId & issueTypeId & before & meta & project & issuetype
        & Hbefore & _ & Hmeta & Hproject & Htype & Hoptions).
  simpl in Hbefore. destruct Hbefore as (-> & -> & ->).
  now exists (JStr "10000"), (JStr "10001"), meta, project, issuetype.
Defined.

(** *** The credential test *)

(** X20.  The credential test reports, it does not throw.  For a
    credential that has its data, it sends one GET to
    [<domain>/rest/api/2/project], authorised by the base64 form of
    [email:password], or of [email:apiToken] when no password is set; it
    returns the status OK when the request is answered, and the status
    Error, with the message of the failure, when it is not. *)
Theorem credential_test_reports_the_failure :
  forall base64 this credential credentials,
    prop credential "data" = Ok (JObj credentials) ->
    let secret := if truthy (obj_get credentials "password")
                  then obj_get credentials "password"
                  else obj_get credentials "apiToken" in
    exists options,
      path options ["method"] = JStr "GET" /\
      path options ["uri"]
      = JStr (to_string (obj_get credentials "domain") ++ "/rest/api/2/project") /\
      path options ["headers"; "Authorization"]
      = JStr ("Basic "
              ++ base64 (to_string (obj_get credentials "email") ++ ":"
                         ++ to_string secret)) /\
      match helpers_request this options with
      | inl _ =>
          jiraSoftwareApiTest base64 this credential
          = Ok (JObj [ ("status", JStr "OK");
                       ("message", JStr "Authentication successful!") ])
      | inr err =>
          forall message,
            prop err "message" = Ok message ->
            jiraSoftwareApiTest base64 this credential
            = Ok (JObj [ ("status", JStr "Error");
                         ("message",
                          JStr ("Connection details not valid: "
                                ++ to_string message)) ])
      end.
Proof.
  intros base64 this credential credentials Hdata secret.
  unfold jiraSoftwareApiTest. rewrite Hdata. simpl rbind. fold secret.
  assert (Hsecret : (if truthy (obj_get credentials "password")
                     then Ok (obj_get credentials "password")
                     else Ok (obj_get credentials "apiToken")) = Ok secret)
    by (subst secret; now destruct (truthy _)).
  rewrite Hsecret. simpl rbind.
  match goal with
  | |- context [helpers_request this (JObj ?o)] => exists (JObj o)
  end.
  repeat split.
  destruct (helpers_request this _) as [answer|err]; [reflexivity|].
  intros message Hmessage. now rewrite Hmessage.
Qed.

Lemma credential_test_witness :
  jiraSoftwareApiTest Examples.unencoded Examples.refusing Examples.credential
  = Ok (JObj [ ("status", JStr "Error");
               ("message", JStr "Connection details not valid: 401") ]).
Proof.
  destruct (credential_test_reports_the_failure Examples.unencoded Examples.refusing
              Examples.credential _ eq_refl) as (options & _ & _ & _ & Houtcome).
  simpl in Houtcome. exact (Houtcome (JStr "401") eq_refl).
Defined.
